(** * Biro3Client: the session client of the Biro extension

    A shallow embedding of [src/api/Biro3Client.ts] and [src/api/ApiError.ts]:
    the request pipeline, the cookie parser, the entity caches, the report
    decoder, the multipart builder of [submitFile] and the re-authentication
    loop [withReauth], followed by the properties the specification states
    about them.

    Conventions.
    - A JavaScript string is a [string] (a sequence of bytes, text in UTF-8).
    - [string | null] is [option string]; [undefined] and [null] are both
      [None], the code only ever tests them with [!x], [x && y] and [??].
    - A [Record<number, T>] is a [gmap Z T].
    - An [async] method is a state transformer over the client and the world
      outside it (server, user, log sink) that returns a value or throws. *)

From Stdlib Require Import ZArith List Ascii String.
From stdpp Require Import base option list sorting strings gmap pretty.

Local Open Scope string_scope.
Local Open Scope Z_scope.
Local Set Warnings "-register-all".

(** ** Platform primitives *)

Module JS.

(** *** Strings *)

Definition code (c : ascii) : Z := Z.of_N (N_of_ascii c).
Definition chr (n : Z) : ascii := ascii_of_N (Z.to_N n).

(** [s.split(sep)[0]]: the part of [s] before the first [sep]. *)
Fixpoint beforeFirst (sep : ascii) (s : string) : string :=
  match s with
  | EmptyString => EmptyString
  | String c r => if Ascii.eqb c sep then EmptyString else String c (beforeFirst sep r)
  end.

(** [s.substring(n)]. *)
Fixpoint substring (n : nat) (s : string) : string :=
  match n, s with
  | O, _ => s
  | S n, String _ r => substring n r
  | S _, EmptyString => EmptyString
  end.

(** Truthiness of a [string | null]: [null] and the empty string are falsy. *)
Definition truthy (x : option string) : bool :=
  match x with
  | Some (String _ _) => true
  | _ => false
  end.

(** *** Numbers *)

(** [String(x)] for the number a JSON literal denotes. The literal is read
    as the double nearest to it, and the double is written with the fewest
    digits that are read back as the same double, in the notation of
    [Number::toString]: plainly up to 21 digits before and 6 zeros after the
    point, with an exponent beyond. *)
Module Number.

(** A number is a double: zero, an infinity, or [mantissa * 2^exponent] with
    a mantissa below 2^53, negated or not. *)
Inductive Double := Zero | Infinite | Finite (mantissa exponent : Z).

(** [a * 2^e] and [a * 10^e] as fractions. *)
Definition scale2 (a e : Z) : Z * Z :=
  if 0 <=? e then (a * 2 ^ e, 1) else (a, 2 ^ (- e)).
Definition scale10 (a e : Z) : Z * Z :=
  if 0 <=? e then (a * 10 ^ e, 1) else (a, 10 ^ (- e)).

(** The double nearest to [n / d], ties to the even mantissa. *)
Definition nearest (n d : Z) : Double :=
  if n =? 0 then Zero
  else
    let e := Z.log2 n - Z.log2 d in
    let e := let '(a, b) := scale2 d e in if n * b <? a then e - 1 else e in
    let p := Z.max (e - 52) (-1074) in
    let '(a, b) := scale2 d p in
    let num := n * b in
    let q := num / a in
    let r := num mod a in
    let m := if 2 * r <? a then q
             else if a <? 2 * r then q + 1
             else q + q mod 2 in
    let '(m, p) := if m =? 2 ^ 53 then (2 ^ 52, p + 1) else (m, p) in
    if m =? 0 then Zero
    else if 971 <? p then Infinite
    else Finite m p.

(** The digits of [String(v)] for [v = m * 2^p]: the fewest digits [s] with
    an exponent [t] such that [s * 10^t] is read back as [v], and among
    these the nearest to [v]. *)
Section Shortest.
Variables m p : Z.

(** In units of [2^(p-2)], [v] is [4 * m]; the doubles next to it are read
    from the halfway points on. *)
Definition low : Z :=
  if (m =? 2 ^ 52) && (-1074 <? p) then 4 * m - 1 else 4 * m - 2.
Definition high : Z := 4 * m + 2.

(** [c * 10^t] compared with [x * 2^(p-2)]. *)
Definition compareWith (c t x : Z) : comparison :=
  let '(a, b) := scale10 c t in
  let '(a', b') := scale2 x (p - 2) in
  (a * b') ?= (a' * b).

Definition within (c t : Z) : bool :=
  let even := m mod 2 =? 0 in
  match compareWith c t low, compareWith c t high with
  | Gt, Lt => true
  | Eq, Lt | Gt, Eq => even
  | _, _ => false
  end.

(** The largest [s] with [s * 10^t <= v]. *)
Definition below (t : Z) : Z :=
  let '(a, b) := scale2 (4 * m) (p - 2) in
  let '(a', b') := scale10 1 t in
  (a * b') / (b * a').

(** [l] with [10^l <= v < 10^(l+1)], sought upwards from an estimate. *)
Fixpoint magnitude (fuel : nat) (l : Z) : Z :=
  match fuel with
  | O => l
  | S fuel =>
      match compareWith 1 (l + 1) (4 * m) with
      | Gt => l
      | _ => magnitude fuel (l + 1)
      end
  end.

Definition log10 : Z :=
  magnitude 8 ((Z.log2 m + p) * 30103 / 100000 - 3).

Fixpoint digitsFrom (fuel : nat) (k : Z) : Z * Z :=
  let t := log10 - k + 1 in
  let s := below t in
  match fuel with
  | O => (s, t)
  | S fuel =>
      match within s t, within (s + 1) t with
      | true, true =>
          match compareWith (2 * s + 1) t (8 * m) with
          | Gt => (s, t)
          | Lt => (s + 1, t)
          | Eq => (if s mod 2 =? 0 then s else s + 1, t)
          end
      | true, false => (s, t)
      | false, true => (s + 1, t)
      | false, false => digitsFrom fuel (k + 1)
      end
  end.

Fixpoint trimmed (fuel : nat) (s t : Z) : Z * Z :=
  match fuel with
  | O => (s, t)
  | S fuel => if s mod 10 =? 0 then trimmed fuel (s / 10) (t + 1) else (s, t)
  end.

Definition shortest : Z * Z :=
  let '(s, t) := digitsFrom 17 1 in trimmed 20 s t.

End Shortest.

Fixpoint zeros (n : nat) : string :=
  match n with O => EmptyString | S n => String "0" (zeros n) end.

(** [Number::toString] for a positive number with the digits [s] and the
    exponent [t]. *)
Definition written (s t : Z) : string :=
  let digits := pretty s in
  let k := Z.of_nat (String.length digits) in
  let n := t + k in
  if (k <=? n) && (n <=? 21) then digits +:+ zeros (Z.to_nat (n - k))
  else if (0 <? n) && (n <=? 21) then
    String.substring 0 (Z.to_nat n) digits +:+ "."
    +:+ String.substring (Z.to_nat n) (Z.to_nat (k - n)) digits
  else if (-6 <? n) && (n <=? 0) then "0." +:+ zeros (Z.to_nat (- n)) +:+ digits
  else
    let e := n - 1 in
    let exponent := (if 0 <=? e then "e+" else "e-") +:+ pretty (Z.abs e) in
    if k =? 1 then digits +:+ exponent
    else String.substring 0 1 digits +:+ "."
         +:+ String.substring 1 (Z.to_nat (k - 1)) digits +:+ exponent.

(** [String(x)] *)
Definition render (negative : bool) (x : Double) : string :=
  match x with
  | Zero => "0"
  | Infinite => if negative then "-Infinity" else "Infinity"
  | Finite m p =>
      let '(s, t) := shortest m p in
      (if negative then "-" else EmptyString) +:+ written s t
  end.

(** The number a literal denotes: digits, a fraction, an exponent. *)
Fixpoint digits (acc : Z) (n : Z) (s : string) : Z * Z * string :=
  match s with
  | String c r =>
      let d := code c - 48 in
      if (0 <=? d) && (d <=? 9) then digits (acc * 10 + d) (n + 1) r else (acc, n, s)
  | EmptyString => (acc, n, s)
  end.

Definition literal (lit : string) : option (bool * Double) :=
  let '(negative, s) :=
    match lit with
    | String "-" r => (true, r)
    | _ => (false, lit)
    end in
  let '(whole, n, s) := digits 0 0 s in
  if n =? 0 then None
  else
    let '(mantissa, places, s) :=
      match s with
      | String "." r => let '(m, k, r') := digits whole 0 r in (m, Some k, r')
      | _ => (whole, None, s)
      end in
    if decide (places = Some 0) then None
    else
      let places := default 0 places in
      let exponent :=
        match s with
        | EmptyString => Some 0
        | String c r =>
            if (code c =? 101) || (code c =? 69) then
              let '(sign, r) :=
                match r with
                | String "-" r' => (-1, r')
                | String "+" r' => (1, r')
                | _ => (1, r)
                end in
              match digits 0 0 r with
              | (e, k, EmptyString) => if k =? 0 then None else Some (sign * e)
              | _ => None
              end
            else None
        end in
      match exponent with
      | Some e =>
          let e := e - places in
          if mantissa =? 0 then Some (negative, Zero)
          else if 310 <? e then Some (negative, Infinite)
          else if e + n + places <? -330 then Some (negative, Zero)
          else let '(a, b) := scale10 mantissa e in Some (negative, nearest a b)
      | None => None
      end.


(** [String(x)]; a text that is no number literal is left as it is. *)
Definition toString (lit : string) : string :=
  match literal lit with
  | Some (negative, x) => render negative x
  | None => lit
  end.

(** [JSON.stringify(x)]: an infinity is written [null]. *)
Definition stringify (lit : string) : string :=
  match literal lit with
  | Some (_, Infinite) => "null"
  | Some (negative, x) => render negative x
  | None => lit
  end.

(** [!!x] *)
Definition truthy (lit : string) : bool :=
  match literal lit with
  | Some (_, Zero) => false
  | _ => true
  end.

End Number.

(** [`${n}`] and [n.toString()] for an integral number that JavaScript
    counts exactly, up to 2^53 in magnitude, as ids, statuses and seconds
    are: its digits. (A larger number is written with the digits of the
    nearest double, and from 1e21 on with an exponent; this definition does
    not follow the code there.) *)
Definition ofNumber (n : Z) : string := pretty n.

(** *** JSON values *)

(** A number keeps its literal and stands for the double nearest to it;
    the client never computes with one. *)
Inductive Json :=
| JNull
| JBool (b : bool)
| JNumber (literal : string)
| JString (s : string)
| JArray (items : list Json)
| JObject (fields : list (string * Json)).

(** [x ?? y] on a value that is never [undefined]. *)
Definition nullish (v : Json) : bool :=
  match v with JNull => true | _ => false end.

(** [typeof v === 'string'] *)
Definition isString (v : Json) : bool :=
  match v with JString _ => true | _ => false end.

(** [!!v] *)
Definition toBoolean (v : Json) : bool :=
  match v with
  | JNull => false
  | JBool b => b
  | JNumber lit => Number.truthy lit
  | JString EmptyString => false
  | _ => true
  end.

(** Own property lookup: the last definition of a repeated key wins. *)
Fixpoint field (name : string) (fields : list (string * Json)) : option Json :=
  match fields with
  | [] => None
  | (k, v) :: rest =>
      match field name rest with
      | Some w => Some w
      | None => if String.eqb k name then Some v else None
      end
  end.

(** [v[name]] for a [v] that is not [null]; [None] is [undefined]. *)
Definition prop (name : string) (v : Json) : option Json :=
  match v with
  | JObject fs => field name fs
  | _ => None
  end.

(** *** [JSON.stringify] *)

Definition dquote : ascii := chr 34.

Definition hexDigit (n : Z) : ascii :=
  if n <? 10 then chr (48 + n) else chr (87 + n).

Definition escapeChar (c : ascii) : string :=
  let n := code c in
  if n =? 34 then String (chr 92) (String dquote EmptyString)
  else if n =? 92 then "\\"
  else if n =? 8 then "\b"
  else if n =? 12 then "\f"
  else if n =? 10 then "\n"
  else if n =? 13 then "\r"
  else if n =? 9 then "\t"
  else if n <? 32 then
    "\u00" +:+ String (hexDigit (n / 16)) (String (hexDigit (n mod 16)) EmptyString)
  else String c EmptyString.

Fixpoint escape (s : string) : string :=
  match s with
  | EmptyString => EmptyString
  | String c r => escapeChar c +:+ escape r
  end.

Definition quote (s : string) : string :=
  String dquote (escape s +:+ String dquote EmptyString).

Fixpoint joinWith (sep : string) (l : list string) : string :=
  match l with
  | [] => EmptyString
  | [x] => x
  | x :: r => x +:+ sep +:+ joinWith sep r
  end.

Fixpoint stringify (v : Json) : string :=
  match v with
  | JNull => "null"
  | JBool true => "true"
  | JBool false => "false"
  | JNumber lit => Number.stringify lit
  | JString s => quote s
  | JArray items => "[" +:+ joinWith "," (List.map stringify items) +:+ "]"
  | JObject fs =>
      "{" +:+ joinWith "," (List.map (fun kv => quote (fst kv) +:+ ":" +:+ stringify (snd kv)) fs) +:+ "}"
  end.

(** [String(v)] *)
Fixpoint toString (v : Json) : string :=
  match v with
  | JNull => "null"
  | JBool true => "true"
  | JBool false => "false"
  | JNumber lit => Number.toString lit
  | JString s => s
  | JArray items =>
      joinWith "," (List.map (fun i => match i with
                                       | JNull => EmptyString
                                       | _ => toString i
                                       end) items)
  | JObject _ => "[object Object]"
  end.

(** *** [JSON.parse] *)

Definition isWs (c : ascii) : bool :=
  let n := code c in (n =? 32) || (n =? 9) || (n =? 10) || (n =? 13).

Fixpoint skipWs (s : string) : string :=
  match s with
  | String c r => if isWs c then skipWs r else s
  | EmptyString => s
  end.

Definition isDigit (c : ascii) : bool := (48 <=? code c) && (code c <=? 57).

(** The longest prefix of digits, and what follows it. *)
Fixpoint digits (s : string) : string * string :=
  match s with
  | String c r =>
      if isDigit c then let (d, r') := digits r in (String c d, r') else (EmptyString, s)
  | EmptyString => (EmptyString, s)
  end.

Definition hexValue (c : ascii) : option Z :=
  let n := code c in
  if (48 <=? n) && (n <=? 57) then Some (n - 48)
  else if (65 <=? n) && (n <=? 70) then Some (n - 55)
  else if (97 <=? n) && (n <=? 102) then Some (n - 87)
  else None.

(** UTF-8 for one code point. *)
Definition utf8 (cp : Z) : list ascii :=
  if cp <? 128 then [chr cp]
  else if cp <? 2048 then [chr (192 + cp / 64); chr (128 + cp mod 64)]
  else if cp <? 65536 then
    [chr (224 + cp / 4096); chr (128 + (cp / 64) mod 64); chr (128 + cp mod 64)]
  else
    [chr (240 + cp / 262144); chr (128 + (cp / 4096) mod 64);
     chr (128 + (cp / 64) mod 64); chr (128 + cp mod 64)].

(** What a string literal is made of: bytes written as they are, and the
    UTF-16 code units of [\uXXXX] escapes, which pair up into surrogates. *)
Inductive Piece := Raw (c : ascii) | Unit (u : Z).

Fixpoint pieces (s : string) : option (list Piece * string) :=
  match s with
  | EmptyString => None
  | String c r =>
      let n := code c in
      if n =? 34 then Some ([], r)
      else if n =? 92 then
        match r with
        | String e r1 =>
            let k := code e in
            let simple (x : Z) := '(ps, rest) ← pieces r1; Some (Raw (chr x) :: ps, rest) in
            if k =? 34 then simple 34
            else if k =? 92 then simple 92
            else if k =? 47 then simple 47
            else if k =? 98 then simple 8
            else if k =? 102 then simple 12
            else if k =? 110 then simple 10
            else if k =? 114 then simple 13
            else if k =? 116 then simple 9
            else if k =? 117 then
              match r1 with
              | String h1 (String h2 (String h3 (String h4 r2))) =>
                  a ← hexValue h1; b ← hexValue h2; c' ← hexValue h3; d ← hexValue h4;
                  '(ps, rest) ← pieces r2;
                  Some (Unit (((a * 16 + b) * 16 + c') * 16 + d) :: ps, rest)
              | _ => None
              end
            else None
        | EmptyString => None
        end
      else if n <? 32 then None
      else '(ps, rest) ← pieces r; Some (Raw c :: ps, rest)
  end.

Fixpoint assemble (ps : list Piece) : list ascii :=
  match ps with
  | [] => []
  | Raw c :: r => c :: assemble r
  | Unit hi :: r =>
      match r with
      | Unit lo :: r' =>
          if (55296 <=? hi) && (hi <=? 56319) && (56320 <=? lo) && (lo <=? 57343)
          then utf8 (65536 + (hi - 55296) * 1024 + (lo - 56320)) ++ assemble r'
          else utf8 hi ++ assemble r
      | _ => utf8 hi ++ assemble r
      end
  end.

(** A string literal, after its opening quote. *)
Definition stringLit (s : string) : option (string * string) :=
  '(ps, rest) ← pieces s; Some (string_of_list_ascii (assemble ps), rest).

(** A number literal: an optional minus, an integer part without leading
    zero, an optional fraction and an optional exponent. *)
Definition number (s : string) : option (string * string) :=
  let '(sign, s1) :=
    match s with
    | String c r => if code c =? 45 then ("-", r) else (EmptyString, s)
    | EmptyString => (EmptyString, s)
    end in
  '(int, s2) ←
    match s1 with
    | String c r =>
        if code c =? 48 then Some ("0", r)
        else if isDigit c then Some (digits s1)
        else None
    | EmptyString => None
    end;
  '(frac, s3) ←
    match s2 with
    | String c r =>
        if code c =? 46 then
          let (d, r') := digits r in
          match d with EmptyString => None | _ => Some ("." +:+ d, r') end
        else Some (EmptyString, s2)
    | EmptyString => Some (EmptyString, s2)
    end;
  '(ex, s4) ←
    match s3 with
    | String c r =>
        if (code c =? 101) || (code c =? 69) then
          let '(sg, r1) :=
            match r with
            | String c1 r' =>
                if (code c1 =? 43) || (code c1 =? 45)
                then (String c1 EmptyString, r') else (EmptyString, r)
            | EmptyString => (EmptyString, r)
            end in
          let (d, r2) := digits r1 in
          match d with
          | EmptyString => None
          | _ => Some (String c sg +:+ d, r2)
          end
        else Some (EmptyString, s3)
    | EmptyString => Some (EmptyString, s3)
    end;
  Some (sign +:+ int +:+ frac +:+ ex, s4).

(** [keyword w s]: [s] without its prefix [w]. *)
Fixpoint keyword (w s : string) : option string :=
  match w, s with
  | EmptyString, _ => Some s
  | String a w', String b s' => if Ascii.eqb a b then keyword w' s' else None
  | String _ _, EmptyString => None
  end.

Fixpoint value (n : nat) (s : string) : option (Json * string) :=
  match n with
  | O => None
  | S n =>
      match skipWs s with
      | EmptyString => None
      | String c r =>
          let k := code c in
          if k =? 123 then
            match skipWs r with
            | EmptyString => None
            | String c' r' =>
                if code c' =? 125 then Some (JObject [], r') else members n r []
            end
          else if k =? 91 then
            match skipWs r with
            | EmptyString => None
            | String c' r' =>
                if code c' =? 93 then Some (JArray [], r') else elements n r []
            end
          else if k =? 34 then
            '(str, r') ← stringLit r; Some (JString str, r')
          else if k =? 116 then r' ← keyword "true" (String c r); Some (JBool true, r')
          else if k =? 102 then r' ← keyword "false" (String c r); Some (JBool false, r')
          else if k =? 110 then r' ← keyword "null" (String c r); Some (JNull, r')
          else '(lit, r') ← number (String c r); Some (JNumber lit, r')
      end
  end
with elements (n : nat) (s : string) (acc : list Json) : option (Json * string) :=
  match n with
  | O => None
  | S n =>
      '(v, r) ← value n s;
      match skipWs r with
      | EmptyString => None
      | String c r' =>
          if code c =? 44 then elements n r' (v :: acc)
          else if code c =? 93 then Some (JArray (rev (v :: acc)), r')
          else None
      end
  end
with members (n : nat) (s : string) (acc : list (string * Json)) : option (Json * string) :=
  match n with
  | O => None
  | S n =>
      match skipWs s with
      | EmptyString => None
      | String c r =>
          if code c =? 34 then
            '(key, r1) ← stringLit r;
            match skipWs r1 with
            | EmptyString => None
            | String c1 r2 =>
                if code c1 =? 58 then
                  '(v, r3) ← value n r2;
                  match skipWs r3 with
                  | EmptyString => None
                  | String c3 r4 =>
                      if code c3 =? 44 then members n r4 ((key, v) :: acc)
                      else if code c3 =? 125 then Some (JObject (rev ((key, v) :: acc)), r4)
                      else None
                  end
                else None
            end
          else None
      end
  end.

(** [JSON.parse(text)]; [None] is the [SyntaxError]. Every call of the three
    parsers above follows the reading of at least one character or goes one
    level down, so twice the length of the text bounds their depth. *)
Definition parse (text : string) : option Json :=
  '(v, r) ← value (2 * String.length text + 2) text;
  match skipWs r with
  | EmptyString => Some v
  | String _ _ => None
  end.

(** *** [atob]: forgiving base64 *)

Definition isAsciiWs (c : ascii) : bool :=
  let n := code c in (n =? 9) || (n =? 10) || (n =? 12) || (n =? 13) || (n =? 32).

Definition sextet (c : ascii) : option Z :=
  let n := code c in
  if (65 <=? n) && (n <=? 90) then Some (n - 65)
  else if (97 <=? n) && (n <=? 122) then Some (n - 71)
  else if (48 <=? n) && (n <=? 57) then Some (n + 4)
  else if n =? 43 then Some 62
  else if n =? 47 then Some 63
  else None.

Definition stripPadding (cs : list ascii) : list ascii :=
  if (Z.of_nat (length cs) mod 4 =? 0) then
    match rev cs with
    | a :: b :: r =>
        if code a =? 61 then (if code b =? 61 then rev r else rev (b :: r)) else cs
    | _ => cs
    end
  else cs.

Fixpoint groups (v : list Z) : list ascii :=
  match v with
  | a :: b :: c :: d :: r =>
      chr (a * 4 + b / 16) :: chr ((b mod 16) * 16 + c / 4) :: chr ((c mod 4) * 64 + d)
        :: groups r
  | [a; b; c] => [chr (a * 4 + b / 16); chr ((b mod 16) * 16 + c / 4)]
  | [a; b] => [chr (a * 4 + b / 16)]
  | _ => []
  end.

(** [atob(data)]: the bytes, one per character; [None] is the
    [InvalidCharacterError]. *)
Definition atob (data : string) : option (list ascii) :=
  let cs := stripPadding (List.filter (fun c => negb (isAsciiWs c)) (list_ascii_of_string data)) in
  if Z.of_nat (length cs) mod 4 =? 1 then None
  else groups <$> mapM sextet cs.

(** *** [new TextDecoder().decode]: UTF-8, malformed input replaced *)

Record Pending := { needed : nat; seen : list ascii; lower : Z; upper : Z }.

Definition replacement : list ascii := [chr 239; chr 191; chr 189].

Definition lead (b : ascii) : list ascii * option Pending :=
  let n := code b in
  if n <=? 127 then ([b], None)
  else if (194 <=? n) && (n <=? 223) then
    ([], Some {| needed := 1; seen := [b]; lower := 128; upper := 191 |})
  else if (224 <=? n) && (n <=? 239) then
    ([], Some {| needed := 2; seen := [b];
                 lower := if n =? 224 then 160 else 128;
                 upper := if n =? 237 then 159 else 191 |})
  else if (240 <=? n) && (n <=? 244) then
    ([], Some {| needed := 3; seen := [b];
                 lower := if n =? 240 then 144 else 128;
                 upper := if n =? 244 then 143 else 191 |})
  else (replacement, None).

Fixpoint decodeFrom (st : option Pending) (bs : list ascii) : list ascii :=
  match bs with
  | [] => match st with Some _ => replacement | None => [] end
  | b :: r =>
      match st with
      | None => let (out, st') := lead b in out ++ decodeFrom st' r
      | Some p =>
          if (lower p <=? code b) && (code b <=? upper p) then
            match needed p with
            | S (S m) =>
                decodeFrom (Some {| needed := S m; seen := b :: seen p;
                                    lower := 128; upper := 191 |}) r
            | _ => rev (b :: seen p) ++ decodeFrom None r
            end
          else let (out, st') := lead b in replacement ++ out ++ decodeFrom st' r
      end
  end.

Definition decode (bytes : list ascii) : string :=
  let bytes :=
    match bytes with
    | a :: b :: c :: r =>
        if (code a =? 239) && (code b =? 187) && (code c =? 191) then r else bytes
    | _ => bytes
    end in
  string_of_list_ascii (decodeFrom None bytes).

End JS.

Import JS.

(** ** Data model *)

(** [models.ts]. The client reads one field of one entity, the id of a
    subject instance; assignments, exercises and submission statuses are
    stored and handed out as the JSON they arrived as. *)
Record SubjectInstance := {
  subjectInstanceId : Z;
  courseId : Z;
  subjectCode : string;
  subjectName : string;
  semesterName : string;
  courseCode : string;
  courseDay : string;
  startTime : string;
  endTime : string;
  roomName : string
}.

(** [{ filename: string; content: C }]: [C] is [string] for an uploaded file
    and for a report as it arrives, and a JavaScript value for a decoded
    report ([string | ReportContent]: a [JString] or what [JSON.parse] gave). *)
Record Item (C : Type) := { filename : string; content : C }.
Arguments filename {C} _.
Arguments content {C} _.

(** What [res.json()] yields, at the type the caller declares for it. *)
Inductive Payload :=
| PJson (d : Json)
| PSubjectInstances (v : list SubjectInstance)
| PFiles (v : list (Item string)).

Module Http.

Record Request := {
  method : string;
  url : string;
  credentials : string;
  mode : string;
  headers : list (string * string);
  body : option string
}.

(** A response: its status line, the two headers the client reads, the body
    as text and, when the body is JSON, as the value [json()] resolves to. *)
Record Response := {
  status : Z;
  statusText : string;
  contentType : option string;
  setCookie : list string;
  text : string;
  json : option Payload
}.

Definition ok (res : Response) : bool := (200 <=? status res) && (status res <=? 299).

(** [headers[name] = value] on an object literal: a key keeps its place. *)
Fixpoint setHeader (name value : string) (hs : list (string * string)) : list (string * string) :=
  match hs with
  | [] => [(name, value)]
  | (k, v) :: r => if String.eqb k name then (k, value) :: r else (k, v) :: setHeader name value r
  end.

Fixpoint header (name : string) (hs : list (string * string)) : option string :=
  match hs with
  | [] => None
  | (k, v) :: r => if String.eqb k name then Some v else header name r
  end.

End Http.

(** [ApiError.ts] *)
Inductive Data := DText (s : string) | DJson (d : Payload).

Record ApiError := {
  status : Z;
  statusMessage : string;
  response : option Data;
  message : string
}.

(** A thrown value: an [ApiError], or any other error by name and message. *)
Inductive Thrown :=
| ApiErr (e : ApiError)
| OtherErr (name msg : string).

(** [String(error)] *)
Definition describe (error : Thrown) : string :=
  match error with
  | ApiErr e => "Error: " +:+ message e
  | OtherErr name EmptyString => name
  | OtherErr name msg => name +:+ ": " +:+ msg
  end.

Definition nonEmpty (s : string) : option string :=
  match s with EmptyString => None | _ => Some s end.

(** [ApiError.fromResponse] *)
Definition fromResponse (res : Http.Response) : ApiError :=
  let contentType := Http.contentType res in
  let '(msg, data) :=
    if decide (contentType = Some "application/json") then
      match Http.json res with
      | Some d =>
          (match d with
           | PJson (JObject fs) => toString <$> field "message" fs
           | _ => None
           end, Some (DJson d))
      | None => (None, None)
      end
    else (Some (Http.text res), Some (DText (Http.text res))) in
  let msg :=
    match msg ≫= nonEmpty with
    | Some m => "HTTP " +:+ ofNumber (Http.status res) +:+ ": " +:+ m
    | None =>
        match nonEmpty (Http.statusText res) with
        | Some t => "HTTP " +:+ ofNumber (Http.status res) +:+ ": " +:+ t
        | None => "HTTP " +:+ ofNumber (Http.status res)
        end
    end in
  {| status := Http.status res; statusMessage := Http.statusText res;
     response := data; message := msg |}.

(** ** The client and the world around it *)

Record Biro3Client := {
  username : option string;
  password : option string;
  accessToken : option string;
  refreshToken : option string;
  subjectInstances : option (gmap Z SubjectInstance);
  assignments : gmap Z Json;
  assignmentDetails : gmap Z Json;
  exercises : gmap Z Json;
  submissionStatuses : gmap Z Json;
  reports : gmap Z (list (Item Json));
  submissionFiles : gmap Z (list (Item string))
}.

(** [new Biro3Client()] *)
Definition constructor : Biro3Client :=
  {| username := None; password := None; accessToken := None; refreshToken := None;
     subjectInstances := None; assignments := ∅; assignmentDetails := ∅; exercises := ∅;
     submissionStatuses := ∅; reports := ∅; submissionFiles := ∅ |}.

Definition setUsername v (c : Biro3Client) :=
  Build_Biro3Client v (password c) (accessToken c) (refreshToken c) (subjectInstances c)
    (assignments c) (assignmentDetails c) (exercises c) (submissionStatuses c) (reports c)
    (submissionFiles c).
Definition setPassword v (c : Biro3Client) :=
  Build_Biro3Client (username c) v (accessToken c) (refreshToken c) (subjectInstances c)
    (assignments c) (assignmentDetails c) (exercises c) (submissionStatuses c) (reports c)
    (submissionFiles c).
Definition setAccessToken v (c : Biro3Client) :=
  Build_Biro3Client (username c) (password c) v (refreshToken c) (subjectInstances c)
    (assignments c) (assignmentDetails c) (exercises c) (submissionStatuses c) (reports c)
    (submissionFiles c).
Definition setRefreshToken v (c : Biro3Client) :=
  Build_Biro3Client (username c) (password c) (accessToken c) v (subjectInstances c)
    (assignments c) (assignmentDetails c) (exercises c) (submissionStatuses c) (reports c)
    (submissionFiles c).
Definition setSubjectInstances v (c : Biro3Client) :=
  Build_Biro3Client (username c) (password c) (accessToken c) (refreshToken c) v
    (assignments c) (assignmentDetails c) (exercises c) (submissionStatuses c) (reports c)
    (submissionFiles c).
Definition setAssignments v (c : Biro3Client) :=
  Build_Biro3Client (username c) (password c) (accessToken c) (refreshToken c)
    (subjectInstances c) v (assignmentDetails c) (exercises c) (submissionStatuses c)
    (reports c) (submissionFiles c).
Definition setAssignmentDetails v (c : Biro3Client) :=
  Build_Biro3Client (username c) (password c) (accessToken c) (refreshToken c)
    (subjectInstances c) (assignments c) v (exercises c) (submissionStatuses c) (reports c)
    (submissionFiles c).
Definition setExercises v (c : Biro3Client) :=
  Build_Biro3Client (username c) (password c) (accessToken c) (refreshToken c)
    (subjectInstances c) (assignments c) (assignmentDetails c) v (submissionStatuses c)
    (reports c) (submissionFiles c).
Definition setSubmissionStatuses v (c : Biro3Client) :=
  Build_Biro3Client (username c) (password c) (accessToken c) (refreshToken c)
    (subjectInstances c) (assignments c) (assignmentDetails c) (exercises c) v (reports c)
    (submissionFiles c).
Definition setReports v (c : Biro3Client) :=
  Build_Biro3Client (username c) (password c) (accessToken c) (refreshToken c)
    (subjectInstances c) (assignments c) (assignmentDetails c) (exercises c)
    (submissionStatuses c) v (submissionFiles c).
Definition setSubmissionFiles v (c : Biro3Client) :=
  Build_Biro3Client (username c) (password c) (accessToken c) (refreshToken c)
    (subjectInstances c) (assignments c) (assignmentDetails c) (exercises c)
    (submissionStatuses c) (reports c) v.

Module Level.
Inductive t := debug | warn | error.
End Level.

(** The global [fetch] resolves with a response or rejects (no network). *)
Inductive FetchResult :=
| Rejected (reason : string)
| Resolved (res : Http.Response).

(** Everything outside the client. The server answers the newest request
    knowing all the requests sent so far; the user answers the n-th input box
    and the n-th error message ([None]: dismissed). *)
Record World := {
  server : list Http.Request → FetchResult;
  sent : list Http.Request;
  typed : nat → option string;
  asked : nat;
  chosen : nat → option string;
  shown : list (option Json);
  logged : list (Level.t * string)
}.

Record Session := { client : Biro3Client; world : World }.

(** ** Asynchronous code: state, exceptions, and loops that may not end *)

Inductive Res (A : Type) :=
| Return (a : A)
| Throw (e : Thrown)
| Diverge.
Arguments Return {A} _.
Arguments Throw {A} _.
Arguments Diverge {A}.

Definition M (S A : Type) : Type := S → Res A * S.

Definition ret {S A} (a : A) : M S A := λ s, (Return a, s).

Definition throw {S A} (e : Thrown) : M S A := λ s, (Throw e, s).

Definition diverge {S A} : M S A := λ s, (Diverge, s).

Definition bind {S A B} (m : M S A) (k : A → M S B) : M S B :=
  λ s, match m s with
       | (Return a, s') => k a s'
       | (Throw e, s') => (Throw e, s')
       | (Diverge, s') => (Diverge, s')
       end.

(** [try { m } catch (error) { handler }] *)
Definition tryCatch {S A} (m : M S A) (handler : Thrown → M S A) : M S A :=
  λ s, match m s with
       | (Throw e, s') => handler e s'
       | r => r
       end.

Notation "'let*' x ':=' m 'in' k" := (bind m (λ x, k))
  (at level 10, x binder, m at level 100, k at level 200).
Notation "m ';;' k" := (bind m (λ _, k))
  (at level 100, k at level 200, right associativity).

Definition Task (A : Type) : Type := M Session A.

(** [this] *)
Definition this : Task Biro3Client := λ σ, (Return (client σ), σ).

(** [this.x = v], through one of the setters above. *)
Definition assign (f : Biro3Client → Biro3Client) : Task unit :=
  λ σ, (Return tt, {| client := f (client σ); world := world σ |}).

Definition act {A} (f : World → Res A * World) : Task A :=
  λ σ, let (r, w) := f (world σ) in (r, {| client := client σ; world := w |}).

(** [log.debug], [log.warn], [log.error] *)
Definition log (level : Level.t) (line : string) : Task unit :=
  act (λ w, (Return tt,
    {| server := server w; sent := sent w; typed := typed w; asked := asked w;
       chosen := chosen w; shown := shown w; logged := (logged w ++ [(level, line)])%list |})).

(** The global [fetch(url, init)] *)
Definition fetch (req : Http.Request) : Task Http.Response :=
  act (λ w,
    let w' := {| server := server w; sent := req :: sent w; typed := typed w;
                 asked := asked w; chosen := chosen w; shown := shown w;
                 logged := logged w |} in
    match server w (req :: sent w) with
    | Rejected reason => (Throw (OtherErr "TypeError" reason), w')
    | Resolved res => (Return res, w')
    end).

(** [vscode.window.showInputBox] *)
Definition showInputBox : Task (option string) :=
  act (λ w, (Return (typed w (asked w)),
    {| server := server w; sent := sent w; typed := typed w; asked := S (asked w);
       chosen := chosen w; shown := shown w; logged := logged w |})).

(** [vscode.window.showErrorMessage(message, ...items)]: the world keeps
    the [message] it was given, which [login] passes without a look at its
    type ([None]: [undefined]). *)
Definition showErrorMessage (msg : option Json) : Task (option string) :=
  act (λ w, (Return (chosen w (length (shown w))),
    {| server := server w; sent := sent w; typed := typed w; asked := asked w;
       chosen := chosen w; shown := (shown w ++ [msg])%list; logged := logged w |})).

(** ** [Biro3Client.ts] *)

(** [record[name] = value] on a record that was written as [{}], the
    values being strings. The record holds the properties of the object
    itself. [__proto__] is none of them: the name finds the accessor the
    object inherits from [Object.prototype], whose setter ignores a value
    that is a string, so that this assignment changes nothing. *)
Definition assignProperty (name value : string) (record : gmap string string)
  : gmap string string :=
  if decide (name = "__proto__") then record else <[name := value]> record.

Definition parseCookies (response : Http.Response) : gmap string string :=
  fold_left
    (λ cookies setCookie,
       let cookieName := beforeFirst "=" setCookie in
       let cookieValue :=
         beforeFirst ";" (substring (String.length cookieName + 1) setCookie) in
       assignProperty cookieName cookieValue cookies)
    (Http.setCookie response) ∅.

Definition listToRecord {T} (items : list T) (key : T → Z) : gmap Z T :=
  fold_left (λ res item, <[key item := item]> res) items ∅.

Definition api (path : string) : string := "https://biro3.inf.u-szeged.hu/api/v1/" +:+ path.

(** The value of a [string | null] when it is truthy. *)
Definition whenTruthy (x : option string) : option string :=
  if truthy x then x else None.

(** [res.json()] read at a declared type [T]. A body that is not JSON
    rejects with a [SyntaxError]; a JSON body of another shape than the
    declared one is outside the declared types and rejects alike. *)
Class Shape (T : Type) := cast : Payload → option T.
Global Instance shape_any : Shape Payload := λ d, Some d.
Global Instance shape_json : Shape Json :=
  λ d, match d with PJson j => Some j | _ => None end.
Global Instance shape_subjectInstances : Shape (list SubjectInstance) :=
  λ d, match d with PSubjectInstances v => Some v | _ => None end.
Global Instance shape_files : Shape (list (Item string)) :=
  λ d, match d with PFiles v => Some v | _ => None end.

Definition json {T} `{Shape T} (res : Http.Response) : Task T :=
  match Http.json res ≫= cast with
  | Some d => ret d
  | None => throw (OtherErr "SyntaxError" "Unexpected token in JSON")
  end.

(** A value that is assigned to a field declared [string | null] without
    a check. The code keeps it as it is, whatever its type, and all it does
    with the field is test it and write it into a header. The model holds
    the field as [string | null]: a string as it is, and a value of another
    type as the string it is written as when it is truthy, as none when it
    is not. (An array that is written as the empty string, [[]] for one, is
    truthy for the code and not for the model.) *)
Definition heldAs (v : Json) : option string :=
  match v with
  | JString t => Some t
  | _ => if toBoolean v then Some (toString v) else None
  end.

(** [d['accessToken']] for [d: any]: reading a property of [null] throws,
    and a missing property reads as no token. *)
Definition accessTokenOf (d : Payload) : Task (option string) :=
  match d with
  | PJson JNull => throw (OtherErr "TypeError" "Cannot read properties of null")
  | PJson (JObject fs) => ret (field "accessToken" fs ≫= heldAs)
  | _ => ret None
  end.

Definition get (url : string) : Task Http.Response :=
  let* self := this in
  let headers := [
    ("Accept", "application/json, text/plain, */*");
    ("Accept-Language", "en-US,en;q=0.5");
    ("Sec-GPC", "1");
    ("Sec-Fetch-Dest", "empty");
    ("Sec-Fetch-Mode", "cors");
    ("Sec-Fetch-Site", "same-origin")] in
  let headers :=
    match whenTruthy (accessToken self) with
    | Some token => Http.setHeader "Authorization" ("Bearer " +:+ token) headers
    | None => headers
    end in
  let headers :=
    match whenTruthy (refreshToken self) with
    | Some token => Http.setHeader "Cookie" ("refresh-token=" +:+ token) headers
    | None => headers
    end in
  log Level.debug ("GET " +:+ url);;
  let* res := fetch {| Http.method := "GET"; Http.url := url;
                       Http.credentials := "include"; Http.mode := "cors";
                       Http.headers := headers; Http.body := None |} in
  if negb (Http.ok res) then throw (ApiErr (fromResponse res))
  else
    assign (λ c, setRefreshToken
                   (match parseCookies res !! "refresh-token" with
                    | Some v => Some v
                    | None => refreshToken c
                    end) c);;
    ret res.

Definition getJson {T} `{Shape T} (url : string) : Task T :=
  let* res := get url in
  let* d := json res in
  ret d.

Definition LF : string := String (chr 10) EmptyString.
Definition CRLF : string := String (chr 13) (String (chr 10) EmptyString).

Definition postRaw (url body : string) (headers : list (string * string)) : Task Http.Response :=
  let* self := this in
  let _headers := [
    ("Accept", "application/json, text/plain, */*");
    ("Accept-Language", "en-US,en;q=0.5");
    ("Content-Type", "application/json");
    ("Sec-GPC", "1");
    ("Sec-Fetch-Dest", "empty");
    ("Sec-Fetch-Mode", "cors");
    ("Sec-Fetch-Site", "same-origin")] in
  let _headers :=
    match whenTruthy (accessToken self) with
    | Some token => Http.setHeader "Authorization" ("Bearer " +:+ token) _headers
    | None => _headers
    end in
  let _headers :=
    match whenTruthy (refreshToken self) with
    | Some token => Http.setHeader "Cookie" ("refresh-token=" +:+ token) _headers
    | None => _headers
    end in
  log Level.debug ("POST " +:+ url +:+ LF +:+ body);;
  let* res := fetch {| Http.method := "POST"; Http.url := url;
                       Http.credentials := "include"; Http.mode := "cors";
                       Http.headers :=
                         fold_left (λ hs kv, Http.setHeader (fst kv) (snd kv) hs) headers _headers;
                       Http.body := Some body |} in
  if negb (Http.ok res) then throw (ApiErr (fromResponse res))
  else
    assign (λ c, setRefreshToken
                   (match parseCookies res !! "refresh-token" with
                    | Some v => Some v
                    | None => refreshToken c
                    end) c);;
    ret res.

Definition post (url : string) (body : Json) : Task Http.Response :=
  postRaw url (stringify body) [].

(** *** Authentication *)

Definition fetchAccessToken (username password : string) : Task unit :=
  assign (setRefreshToken None);;
  assign (setAccessToken None);;
  let* res := post (api "auth/login/student")
                (JObject [("username", JString username); ("password", JString password)]) in
  assign (setUsername (Some username));;
  assign (setPassword (Some password));;
  let* d := json res in
  let* token := accessTokenOf d in
  assign (setAccessToken token).

Definition refreshAccessToken : Task unit :=
  assign (setAccessToken None);;
  let* res := post (api "auth/refresh-token") (JObject [("withCredentials", JBool true)]) in
  let* d := json res in
  let* token := accessTokenOf d in
  assign (setAccessToken token).

(** [error.response['message']], as it is read: the value of the property,
    of whatever type, and [None] for [undefined]. A string, the body of an
    answer that was read as text, has no such property. *)
Definition responseMessage (e : ApiError) : Task (option Json) :=
  match response e with
  | None | Some (DJson (PJson JNull)) =>
      throw (OtherErr "TypeError" "Cannot read properties of null")
  | Some (DJson (PJson (JObject fs))) => ret (field "message" fs)
  | Some _ => ret None
  end.

(** The label of the retry button, [Újra], as its UTF-8 bytes. *)
Definition Ujra : string := String (chr 195) (String (chr 154) "jra").

(** [login()]: the prompt is repeated as long as the user asks for it, so
    the loop is unrolled [fuel] times. *)
Fixpoint login (fuel : nat) : Task unit :=
  match fuel with
  | O => diverge
  | S fuel =>
      let* usernameInput := showInputBox in
      let usernameInput := default EmptyString usernameInput in
      let* passwordInput := showInputBox in
      let passwordInput := default EmptyString passwordInput in
      tryCatch (fetchAccessToken usernameInput passwordInput)
        (λ error,
           log Level.error (describe error);;
           match error with
           | ApiErr e =>
               let* msg := responseMessage e in
               let* choice := showErrorMessage msg in
               if decide (choice = Some Ujra) then login fuel else throw error
           | OtherErr _ _ => throw error
           end)
  end.

(** *** Entity caches *)

(** [items[i]] on an array. *)
Definition index {T} (items : list T) (i : Z) : option T :=
  if 0 <=? i then items !! Z.to_nat i else None.

(** [record[id] ?? ...]: a stored [null] counts as absent. *)
Definition nonNull (v : option Json) : option Json :=
  match v with
  | Some d => if nullish d then None else Some d
  | None => None
  end.

Definition fetchSubjectInstances : Task (list SubjectInstance) :=
  let* v := getJson (api "students/subject-instances") in
  assign (setSubjectInstances (Some (listToRecord v subjectInstanceId)));;
  ret v.

Definition getSubjectInstance (instanceId : Z) : Task (option SubjectInstance) :=
  let* self := this in
  match subjectInstances self ≫= (λ r, r !! instanceId) with
  | Some v => ret (Some v)
  | None =>
      let* v := fetchSubjectInstances in
      ret (index v instanceId)
  end.

(** [Object.values(record)]: the values in the order of the keys, which for
    keys that are array indices (the integers from 0 below 2^32 - 1, as ids
    are) is the ascending one. Other keys would follow these in the order
    they were first assigned, which the record does not keep: for them the
    order given here is not that of the code. *)
Definition byKey {T} (a b : Z * T) : Prop := a.1 ≤ b.1.

Global Instance byKey_dec {T} : RelDecision (@byKey T) := λ a b, decide (a.1 ≤ b.1).

Definition values {T} (record : gmap Z T) : list T :=
  (merge_sort byKey (map_to_list record)).*2.

Definition getSubjectInstances : Task (list SubjectInstance) :=
  let* self := this in
  match subjectInstances self with
  | Some r => ret (values r)
  | None => fetchSubjectInstances
  end.

Definition fetchAssignments (subjectId : Z) : Task Json :=
  let* v := getJson (api ("students/subject-instances/" +:+ ofNumber subjectId +:+ "/assignments")) in
  assign (λ c, setAssignments (<[subjectId := v]> (assignments c)) c);;
  ret v.

Definition getAssignments (subjectId : Z) : Task Json :=
  let* self := this in
  match nonNull (assignments self !! subjectId) with
  | Some v => ret v
  | None => fetchAssignments subjectId
  end.

Definition fetchAssignment (assignmentId : Z) : Task Json :=
  let* v := getJson (api ("students/assignments/" +:+ ofNumber assignmentId)) in
  assign (λ c, setAssignmentDetails (<[assignmentId := v]> (assignmentDetails c)) c);;
  ret v.

Definition getAssignment (assignmentId : Z) : Task Json :=
  let* self := this in
  match nonNull (assignmentDetails self !! assignmentId) with
  | Some v => ret v
  | None => fetchAssignment assignmentId
  end.

Definition fetchExercise (exerciseId : Z) : Task Json :=
  let* v := getJson (api ("students/exercises/" +:+ ofNumber exerciseId)) in
  assign (λ c, setExercises (<[exerciseId := v]> (exercises c)) c);;
  ret v.

Definition getExercise (exerciseId : Z) : Task Json :=
  let* self := this in
  match nonNull (exercises self !! exerciseId) with
  | Some v => ret v
  | None => fetchExercise exerciseId
  end.

Definition fetchSubmissionStatus (submissionId : Z) : Task Json :=
  let* v := getJson (api ("students/submissions/" +:+ ofNumber submissionId +:+ "/status")) in
  assign (λ c, setSubmissionStatuses (<[submissionId := v]> (submissionStatuses c)) c);;
  ret v.

Definition getSubmissionStatus (submissionId : Z) : Task Json :=
  let* self := this in
  match nonNull (submissionStatuses self !! submissionId) with
  | Some v => ret v
  | None => fetchSubmissionStatus submissionId
  end.

(** *** File submission *)

Definition boundary : string := "----geckoformboundary273ffe305e9d16e6289195cb1b17216e".

(** [builder.appendLine(line)] on the builder's [value]. *)
Definition appendLine (line : string) (value : string) : string :=
  value +:+ line +:+ CRLF.

Definition inQuotes (s : string) : string := String dquote (s +:+ String dquote EmptyString).

Definition submitFile (exerciseId : Z) (filename filecontent : string) : Task Payload :=
  let value := EmptyString in
  let value := appendLine ("--" +:+ boundary) value in
  let value := appendLine ("Content-Disposition: form-data; name=" +:+ inQuotes "submissionName") value in
  let value := appendLine EmptyString value in
  let value := appendLine EmptyString value in
  let value := appendLine ("--" +:+ boundary) value in
  let value := appendLine ("Content-Disposition: form-data; name="
                           +:+ inQuotes "post-deadline-submission-confirmed") value in
  let value := appendLine EmptyString value in
  let value := appendLine "false" value in
  let value := appendLine ("--" +:+ boundary) value in
  let value := appendLine ("Content-Disposition: form-data; name=" +:+ inQuotes "file"
                           +:+ "; filename=" +:+ stringify (JString filename)) value in
  let value := appendLine "Content-Type: application/octet-stream" value in
  let value := appendLine EmptyString value in
  let value := appendLine filecontent value in
  let value := appendLine ("--" +:+ boundary +:+ "--") value in
  let* res := postRaw (api ("students/exercises/" +:+ ofNumber exerciseId +:+ "/submissions"))
                value [("Content-Type", "multipart/form-data; boundary=" +:+ boundary)] in
  let* d := json res in
  ret d.

(** *** Reports and uploaded files *)

(** [for (const item of items) { ... }], each item replaced by what the
    body leaves in it. *)
Fixpoint forOf {A B} (body : A → Task B) (items : list A) : Task (list B) :=
  match items with
  | [] => ret []
  | item :: rest =>
      let* item' := body item in
      let* rest' := forOf body rest in
      ret (item' :: rest')
  end.

(** [utf8Decoder.decode(Uint8Array.from(atob(content), v => v.charCodeAt(0)))] *)
Definition decodeBase64 (content : string) : Task string :=
  match atob content with
  | Some bytes => ret (decode bytes)
  | None => throw (OtherErr "InvalidCharacterError"
                     "The string to be decoded is not correctly encoded.")
  end.

(** [JSON.parse(content)] *)
Definition JSON_parse (content : string) : Task Json :=
  match parse content with
  | Some d => ret d
  | None => throw (OtherErr "SyntaxError" "Unexpected token in JSON")
  end.

Definition decodeReport (item : Item string) : Task (Item Json) :=
  let* content := decodeBase64 (content item) in
  tryCatch
    (let* d := JSON_parse content in
     ret {| filename := filename item; content := d |})
    (λ error, ret {| filename := filename item; content := JString content |}).

Definition fetchReports (evaluationId : Z) : Task (list (Item Json)) :=
  let* v := getJson (api ("students/evaluations/" +:+ ofNumber evaluationId +:+ "/reports")) in
  let* v := forOf decodeReport v in
  assign (λ c, setReports (<[evaluationId := v]> (reports c)) c);;
  ret v.

Definition getReports (evaluationId : Z) : Task (list (Item Json)) :=
  let* self := this in
  match reports self !! evaluationId with
  | Some v => ret v
  | None => fetchReports evaluationId
  end.

Definition decodeFile (item : Item string) : Task (Item string) :=
  let* content := decodeBase64 (content item) in
  ret {| filename := filename item; content := content |}.

Definition fetchSubmissionFiles (submissionId : Z) : Task (list (Item string)) :=
  let* v := getJson (api ("students/submissions/" +:+ ofNumber submissionId +:+ "/uploaded-files")) in
  let* v := forOf decodeFile v in
  assign (λ c, setSubmissionFiles (<[submissionId := v]> (submissionFiles c)) c);;
  ret v.

Definition getSubmissionFiles (submissionId : Z) : Task (list (Item string)) :=
  let* self := this in
  match submissionFiles self !! submissionId with
  | Some v => ret v
  | None => fetchSubmissionFiles submissionId
  end.

(** *** [withReauth] *)

(** [this.username && this.password]: both, when both are truthy. *)
Definition credentials (self : Biro3Client) : option (string * string) :=
  match whenTruthy (username self), whenTruthy (password self) with
  | Some u, Some p => Some (u, p)
  | _, _ => None
  end.

(** The calls [withReauth] makes are recorded as it makes them, the way a
    test would spy on the wrapped operation and on the client's methods.
    The record is kept beside the session, out of reach of the code run. *)
Inductive Call :=
| CallFetch
| CallLogin
| CallFetchAccessToken (username password : string)
| CallRefreshAccessToken.

Global Instance Call_eq_dec : EqDecision Call.
Proof. solve_decision. Defined.

Definition Spied (A : Type) : Type := M (Session * list Call) A.

Definition lift {A} (t : Task A) : Spied A :=
  λ s, let (r, σ) := t (fst s) in (r, (σ, snd s)).

Definition called (c : Call) : Spied unit :=
  λ s, (Return tt, (fst s, (snd s ++ [c])%list)).

(** Lines 56 to 64: authenticate first when there is nothing to send. *)
Definition authenticateFirst (loginFuel : nat) : Spied unit :=
  let* self := lift this in
  (if negb (truthy (username self)) || negb (truthy (password self)) then
     lift (log Level.warn "No username/password, asking the user ...");;
     called CallLogin;;
     lift (login loginFuel)
   else ret tt);;
  let* self := lift this in
  match credentials self with
  | Some (u, p) =>
      if negb (truthy (accessToken self)) then
        lift (log Level.warn "No access token, logging in again ...");;
        called (CallFetchAccessToken u p);;
        lift (fetchAccessToken u p)
      else ret tt
  | None => ret tt
  end.

(** Lines 70 to 102: the [catch (error)] block of the loop. [retries] is
    the counter before [retries++]; [continue] is the rest of the loop, run
    with the counter incremented. *)
Definition catchBlock {T} (continue : Spied T) (retries : nat) (error : Thrown) : Spied T :=
  match error with
  | ApiErr e =>
      if status e =? 401 then
        match retries with
        | 0%nat =>
            lift (log Level.warn "Refreshing access token ...");;
            tryCatch (called CallRefreshAccessToken;; lift refreshAccessToken)
              (λ error, lift (log Level.error (describe error)));;
            continue
        | 1%nat =>
            let* self := lift this in
            match credentials self with
            | Some (u, p) =>
                lift (log Level.warn "Logging in again ...");;
                tryCatch (called (CallFetchAccessToken u p);; lift (fetchAccessToken u p))
                  (λ error, lift (log Level.error (describe error)));;
                continue
            | None =>
                lift (log Level.error
                        "No saved username or password (this should never happen)");;
                throw error
            end
        | _ => throw error
        end
      else
        lift (log Level.warn ("HTTP " +:+ ofNumber (status e)));;
        throw error
  | OtherErr _ _ => throw error
  end.

(** Lines 66 to 104: the [do { try { return await fetch() } catch ... }
    while (true)] loop, entered with the current value of [retries] and
    unrolled at most [fuel] times. *)
Fixpoint retry {T} (fuel : nat) (fetch : Task T) (retries : nat) : Spied T :=
  match fuel with
  | O => diverge
  | S fuel =>
      tryCatch (called CallFetch;; lift fetch)
        (catchBlock (retry fuel fetch (S retries)) retries)
  end.

Definition withReauth {T} (loginFuel fuel : nat) (fetch : Task T) : Spied T :=
  authenticateFirst loginFuel;;
  retry fuel fetch 0.

(** ** [utils.ts] *)

(** [models.ts]: an assignment. The numbers of an assignment are integral. *)
Module Assignment.
Record t := {
  assignmentAssignedStudentId : Z;
  startTime : string;
  endTime : string;
  assignmentName : string;
  assignmentDescription : string;
  assignmentType : string;
  maxScore : Z;
  minScore : Z;
  score : option Z;
  subjectName : string;
  semesterName : string;
  studentGroupName : Json;
  studentGroupMembers : Json;
  subjectInstanceId : Z;
  postDeadlineHandling : string
}.
End Assignment.

(** A number that may be [NaN]: [None]. *)
Definition Num : Type := option Z.

(** [a < b] on numbers: false as soon as one of them is [NaN]. *)
Definition less (a b : Num) : bool :=
  match a, b with
  | Some x, Some y => x <? y
  | _, _ => false
  end.

(** [false | "EARLY" | "LATE"] *)
Inductive Locked := Unlocked | EARLY | LATE.

(** [isAssignmentLocked], given what [Date.parse] makes of a string (the
    milliseconds, or [NaN]) and what [Date.now()] returns. *)
Definition isAssignmentLocked (Date_parse : string → Num) (Date_now : Z)
    (assignment : Assignment.t) : Locked :=
  let startTime := Date_parse (Assignment.startTime assignment) in
  let endTime := Date_parse (Assignment.endTime assignment) in
  let now := Some Date_now in
  if less now startTime then EARLY
  else if less now endTime then Unlocked
  else LATE.

(** ** [assets/main.js] *)

Module TimeLabels.

(** An element of class [time]: its text and its [data-time] attribute
    ([None] when it has none). *)
Record Element := { textContent : string; dataTime : option string }.

(** What the getters of a [Date] return, each possibly [NaN]. *)
Record Getters := {
  getFullYear : Num;
  getMonth : Num;
  getDate : Num;
  getHours : Num;
  getMinutes : Num;
  getSeconds : Num
}.

(** [`${n}`], [String(n)] and [n.toString()] *)
Definition str (n : Num) : string :=
  match n with
  | Some z => ofNumber z
  | None => "NaN"
  end.

(** [Math.floor(n / k)] for a positive integer [k] *)
Definition floorDiv (n : Num) (k : Z) : Num := (λ z, z / k) <$> n.

(** [s.padStart(2, '0')] *)
Definition padStart2 (s : string) : string :=
  match s with
  | EmptyString => "00"
  | String c EmptyString => String "0" s
  | _ => s
  end.

(** The white space [Number.parseInt] skips, as far as it is ASCII. *)
Definition isStrWs (c : ascii) : bool :=
  let n := code c in
  (n =? 9) || (n =? 10) || (n =? 11) || (n =? 12) || (n =? 13) || (n =? 32).

Fixpoint trimStart (s : string) : string :=
  match s with
  | String c r => if isStrWs c then trimStart r else s
  | EmptyString => s
  end.

Definition digitValue (radix : Z) (c : ascii) : option Z :=
  match hexValue c with
  | Some d => if d <? radix then Some d else None
  | None => None
  end.

(** The value of the longest prefix of digits; [acc] is what has been read. *)
Fixpoint readDigits (radix : Z) (acc : Num) (s : string) : Num :=
  match s with
  | String c r =>
      match digitValue radix c with
      | Some d => readDigits radix (Some (default 0 acc * radix + d)) r
      | None => acc
      end
  | EmptyString => acc
  end.

(** [Number.parseInt(s)]: optional white space and sign, an optional [0x],
    then digits up to the first character that is none; [NaN] when there is
    no digit. *)
Definition parseInt (s : string) : Num :=
  let s := trimStart s in
  let '(sign, s) :=
    match s with
    | String c r =>
        if code c =? 45 then (-1, r) else if code c =? 43 then (1, r) else (1, s)
    | EmptyString => (1, s)
    end in
  let '(radix, s) :=
    match s with
    | String z (String x r) =>
        if (code z =? 48) && ((code x =? 120) || (code x =? 88)) then (16, r) else (10, s)
    | _ => (10, s)
    end in
  (λ n, sign * n) <$> readDigits radix None s.

(** The body of the loop of [refreshTimeLabels] for one element: [now] is
    [Math.floor(Date.now() / 1000)], [Date_parse] is what [Date.parse] makes
    of a string and [getters] what the getters of [new Date(ms)] return. *)
Definition refreshTimeLabel (Date_parse : string → Num) (getters : Num → Getters)
    (now : Z) (element : Element) : Element :=
  let '(t, element) :=
    match whenTruthy (dataTime element) with
    | Some attr => (parseInt attr, element)
    | None =>
        let t := floorDiv (Date_parse (textContent element)) 1000 in
        (t, {| textContent := textContent element; dataTime := Some (str t) |})
    end in
  let d := (λ z, now - z) <$> t in
  if less d (Some 60) then
    {| textContent := str d +:+ " másodperce"; dataTime := dataTime element |}
  else
    let d := floorDiv d 60 in
    if less d (Some 60) then
      {| textContent := str d +:+ " perce"; dataTime := dataTime element |}
    else
      let d := floorDiv d 60 in
      if less d (Some 24) then
        {| textContent := str d +:+ " órája"; dataTime := dataTime element |}
      else
        let date := getters ((λ z, z * 1000) <$> t) in
        {| textContent :=
             str (getFullYear date) +:+ ". "
             +:+ str ((λ m, m + 1) <$> getMonth date) +:+ ". "
             +:+ str (getDate date) +:+ ". "
             +:+ str (getHours date) +:+ ":"
             +:+ padStart2 (str (getMinutes date)) +:+ ":"
             +:+ padStart2 (str (getSeconds date));
           dataTime := dataTime element |}.

(** [refreshTimeLabels], on the elements of class [time]. *)
Definition refreshTimeLabels (Date_parse : string → Num) (getters : Num → Getters)
    (Date_now : Z) (elements : list Element) : list Element :=
  let now := Date_now / 1000 in
  List.map (refreshTimeLabel Date_parse getters now) elements.

End TimeLabels.

(** ** The vocabulary of the properties *)

(** *** Code that comes back *)

Definition terminates {S A} (m : M S A) : Prop := ∀ s, (m s).1 ≠ Diverge.

(** *** The re-authentication loop *)

(** What the two recovery steps of the loop do to the session: the call is
    announced in the log, and an error it throws is logged and dropped. *)
Definition recoverByRefresh : Task unit :=
  log Level.warn "Refreshing access token ...";;
  tryCatch refreshAccessToken (λ error, log Level.error (describe error)).

Definition recoverByLogin (u p : string) : Task unit :=
  log Level.warn "Logging in again ...";;
  tryCatch (fetchAccessToken u p) (λ error, log Level.error (describe error)).

(** The session with more lines in its log. *)
Definition withLog (lines : list (Level.t * string)) (σ : Session) : Session :=
  {| client := client σ;
     world := {| server := server (world σ); sent := sent (world σ);
                 typed := typed (world σ); asked := asked (world σ);
                 chosen := chosen (world σ); shown := shown (world σ);
                 logged := (logged (world σ) ++ lines)%list |} |}.

(** How often the wrapped operation was invoked. *)
Definition invocations (calls : list Call) : nat :=
  length (filter (λ c, c = CallFetch) calls).

(** *** The request pipeline *)

(** The server's answer to the next request, whatever the request. *)
Definition answers (σ : Session) (a : FetchResult) : Prop :=
  ∀ req, server (world σ) (req :: sent (world σ)) = a.

(** A request fails when nothing comes back or what comes back is not 2xx. *)
Definition failed (a : FetchResult) : bool :=
  match a with
  | Rejected _ => true
  | Resolved res => negb (Http.ok res)
  end.

(** What a request throws when it fails. *)
Definition failure (a : FetchResult) : Thrown :=
  match a with
  | Rejected reason => OtherErr "TypeError" reason
  | Resolved res => ApiErr (fromResponse res)
  end.

(** What [parseCookies] keeps of a [Set-Cookie] header. *)
Definition cookieName (setCookie : string) : string := beforeFirst "=" setCookie.
Definition cookieValue (setCookie : string) : string :=
  beforeFirst ";" (substring (String.length (cookieName setCookie) + 1) setCookie).

(** The [refresh-token] cookie of a response: the value the last
    [Set-Cookie] header of that name gives it, if there is one. *)
Definition refreshCookie (res : Http.Response) : option string :=
  cookieValue <$> last (filter (λ h, cookieName h = "refresh-token") (Http.setCookie res)).

(** The stored refresh token after a response that is taken into account. *)
Definition rotated (res : Http.Response) (stored : option string) : option string :=
  match refreshCookie res with
  | Some v => Some v
  | None => stored
  end.

(** *** Reports and uploaded files *)

Definition invalidCharacter : Thrown :=
  OtherErr "InvalidCharacterError" "The string to be decoded is not correctly encoded.".

(** A payload is well encoded when [atob] accepts it. *)
Definition wellEncoded (item : Item string) : Prop := is_Some (atob (content item)).

(** The text a payload stands for. *)
Definition textOf (item : Item string) : string :=
  decode (default [] (atob (content item))).

(** A report once decoded: what the text parses to, or the text itself. *)
Definition reportOf (item : Item string) : Item Json :=
  {| filename := filename item;
     content := default (JString (textOf item)) (parse (textOf item)) |}.

Definition fileOf (item : Item string) : Item string :=
  {| filename := filename item; content := textOf item |}.

(** *** The multipart body *)

(** What the builder holds after [appendLine] has been called with each of
    [ls] in turn. *)
Definition lines (ls : list string) : string :=
  foldr (λ line rest, line +:+ CRLF +:+ rest) EmptyString ls.

(** *** The body of a submission, as the wire format has it *)

(** What the specification says of the body, written down without the
    client's definitions: the characters, the delimiter lines of the fixed
    boundary, the three parts, and how a receiver reads lines and parts off
    the text. *)
Module Multipart.

Definition cr : ascii := "013".
Definition lf : ascii := "010".
Definition crlf : string := String cr (String lf EmptyString).
Definition quotes : ascii := "034".

(** The line that opens a part, and the line that closes the body. *)
Definition delimiter : string := "------geckoformboundary273ffe305e9d16e6289195cb1b17216e".
Definition closing : string := "------geckoformboundary273ffe305e9d16e6289195cb1b17216e--".

(** The [Content-Type] of the request. *)
Definition contentType : string :=
  "multipart/form-data; boundary=----geckoformboundary273ffe305e9d16e6289195cb1b17216e".

Definition disposition (name : string) : string :=
  "Content-Disposition: form-data; name="
  +:+ String quotes (name +:+ String quotes EmptyString).

(** The headers of the three parts; the file name goes in as a JSON string. *)
Definition submissionName : list string := [disposition "submissionName"].
Definition confirmed : list string := [disposition "post-deadline-submission-confirmed"].
Definition file (filename : string) : list string :=
  [disposition "file" +:+ "; filename=" +:+ stringify (JString filename);
   "Content-Type: application/octet-stream"].

(** The text whose lines are [ls], each followed by CR LF. *)
Definition text (ls : list string) : string :=
  foldr (λ line rest, line +:+ crlf +:+ rest) EmptyString ls.

(** The body the specification describes, the file content put where the
    last part has its content. *)
Definition expected (filename filecontent : string) : string :=
  text ([delimiter] ++ submissionName ++ [EmptyString; EmptyString]
        ++ [delimiter] ++ confirmed ++ [EmptyString; "false"]
        ++ [delimiter] ++ file filename ++ [EmptyString; filecontent]
        ++ [closing]).







(** A line has no CR and no LF in it. *)
Fixpoint plain (line : string) : bool :=
  match line with
  | EmptyString => true
  | String c r => negb (Ascii.eqb c cr) && negb (Ascii.eqb c lf) && plain r
  end.

End Multipart.


(** *** Time labels *)

(** A date as a label has it: year, month, day, hours, and minutes and
    seconds in two digits. *)
Definition dateText (date : TimeLabels.Getters) : string :=
  TimeLabels.str (TimeLabels.getFullYear date) +:+ ". "
  +:+ TimeLabels.str ((λ month, month + 1) <$> TimeLabels.getMonth date) +:+ ". "
  +:+ TimeLabels.str (TimeLabels.getDate date) +:+ ". "
  +:+ TimeLabels.str (TimeLabels.getHours date) +:+ ":"
  +:+ TimeLabels.padStart2 (TimeLabels.str (TimeLabels.getMinutes date)) +:+ ":"
  +:+ TimeLabels.padStart2 (TimeLabels.str (TimeLabels.getSeconds date)).

(** ** Scenarios *)

Module Scenario.

Definition nobody : nat → option string := λ _, None.

(** A world with the given server, a user who dismisses every prompt, and
    nothing sent or logged yet. *)
Definition worldOf (server : list Http.Request → FetchResult) : World :=
  {| server := server; sent := []; typed := nobody; asked := 0%nat; chosen := nobody;
     shown := []; logged := [] |}.

(** A JSON response. *)
Definition reply (status : Z) (statusText : string) (cookies : list string) (d : Json)
  : Http.Response :=
  {| Http.status := status; Http.statusText := statusText;
     Http.contentType := Some "application/json"; Http.setCookie := cookies;
     Http.text := stringify d; Http.json := Some (PJson d) |}.

(** A client that has signed in some time ago. *)
Definition signedIn : Biro3Client :=
  setRefreshToken (Some "old")
    (setAccessToken (Some "stale")
       (setPassword (Some "secret") (setUsername (Some "student") constructor))).

Definition unauthorized : Http.Response :=
  reply 401 "Unauthorized" ["refresh-token=abc123; Path=/"]
    (JObject [("message", JString "Token expired")]).

Definition serverError : Http.Response :=
  reply 500 "Internal Server Error" [] (JObject [("message", JString "Out of order")]).

Definition exercise : Json :=
  JObject [("assignedExerciseId", JNumber "5"); ("name", JString "hello")].

(** A server that turns every request down with a 401. *)
Definition locked : Session :=
  {| client := signedIn; world := worldOf (λ _, Resolved unauthorized) |}.

(** A server that answers every request with a 500. *)
Definition broken : Session :=
  {| client := signedIn; world := worldOf (λ _, Resolved serverError) |}.

(** No network. *)
Definition offline : Session :=
  {| client := signedIn; world := worldOf (λ _, Rejected "fetch failed") |}.

(** A server that only accepts the token [fresh], which its refresh
    endpoint hands out together with a new refresh token. *)
Definition expiring (sent : list Http.Request) : FetchResult :=
  match sent with
  | req :: _ =>
      if String.eqb (Http.url req) (api "auth/refresh-token") then
        Resolved (reply 200 "OK" ["refresh-token=r2; Path=/; HttpOnly"]
                    (JObject [("accessToken", JString "fresh")]))
      else if decide (Http.header "Authorization" (Http.headers req) = Some "Bearer fresh")
      then Resolved (reply 200 "OK" [] exercise)
      else Resolved unauthorized
  | [] => Rejected "no request"
  end.

Definition stale : Session := {| client := signedIn; world := worldOf expiring |}.

(** A server that rotates the refresh token with every answer. *)
Definition rotating : Session :=
  {| client := signedIn;
     world := worldOf (λ _, Resolved (reply 200 "OK" ["refresh-token=abc123; Path=/"] exercise)) |}.

(** An operation that cannot reach the server. *)
Definition unreachable : Task Json := throw (OtherErr "TypeError" "fetch failed").

(** One subject instance, with an id that is not its place in the list. *)
Definition programming : SubjectInstance :=
  {| subjectInstanceId := 7; courseId := 3; subjectCode := "IB204L";
     subjectName := "Programming"; semesterName := "2024-25-1"; courseCode := "IB204L-1";
     courseDay := "Monday"; startTime := "10:00"; endTime := "12:00"; roomName := "IR-217" |}.

Definition campus : Session :=
  {| client := signedIn;
     world := worldOf (λ _, Resolved
       {| Http.status := 200; Http.statusText := "OK";
          Http.contentType := Some "application/json"; Http.setCookie := [];
          Http.text := EmptyString;
          Http.json := Some (PSubjectInstances [programming]) |}) |}.

(** Reports: one says [hello], one is [{"report_type":"X","tests":[]}]. *)
Definition structured : Json := JObject [("report_type", JString "X"); ("tests", JArray [])].

Definition payloads : list (Item string) :=
  [ {| filename := "stdout.txt"; content := "aGVsbG8=" |};
    {| filename := "report.json"; content := "eyJyZXBvcnRfdHlwZSI6IlgiLCJ0ZXN0cyI6W119" |} ].

Definition filesReply (v : list (Item string)) : Http.Response :=
  {| Http.status := 200; Http.statusText := "OK";
     Http.contentType := Some "application/json"; Http.setCookie := [];
     Http.text := EmptyString; Http.json := Some (PFiles v) |}.

Definition graded : Session :=
  {| client := signedIn; world := worldOf (λ _, Resolved (filesReply payloads)) |}.

(** A report whose payload is not base64. *)
Definition garbled : Session :=
  {| client := signedIn;
     world := worldOf (λ _, Resolved (filesReply
       [ {| filename := "stdout.txt"; content := "aGVsbG8=" |};
         {| filename := "stderr.txt"; content := "%%%%" |} ])) |}.

End Scenario.

(** ** The vocabulary of the further properties *)

(** [c] occurs in [s]. *)
Fixpoint occurs (c : ascii) (s : string) : bool :=
  match s with
  | EmptyString => false
  | String x r => Ascii.eqb x c || occurs c r
  end.

(** The value the last entry named [name] gives it, in a list of headers. *)
Definition lastValue (name : string) (hs : list (string * string)) : option string :=
  snd <$> last (filter (λ kv, kv.1 = name) hs).

(** The request a call has just sent. *)
Definition lastSent (σ : Session) : option Http.Request := head (sent (world σ)).

(** The requests a call has sent, the session before it being [σ]. *)
Definition sentSince (σ after : Session) : nat :=
  (length (sent (world after)) - length (sent (world σ)))%nat.

(** The server gives the same answer to every request. *)
Definition alwaysAnswers (σ : Session) (a : FetchResult) : Prop :=
  ∀ reqs, server (world σ) reqs = a.

(** The caches of a client and what it signs in with, the refresh token
    apart. *)
Definition sameButRefreshToken (c c' : Biro3Client) : Prop :=
  c' = setRefreshToken (refreshToken c') c.

(** The entities that are cached as the JSON they arrive as, with the
    cache, the getter and the fetcher of each. *)
Inductive Kind := Assignments | AssignmentDetails | Exercise | SubmissionStatus.

Definition cacheOf (kind : Kind) (c : Biro3Client) : gmap Z Json :=
  match kind with
  | Assignments => assignments c
  | AssignmentDetails => assignmentDetails c
  | Exercise => exercises c
  | SubmissionStatus => submissionStatuses c
  end.

Definition fetchOf (kind : Kind) : Z → Task Json :=
  match kind with
  | Assignments => fetchAssignments
  | AssignmentDetails => fetchAssignment
  | Exercise => fetchExercise
  | SubmissionStatus => fetchSubmissionStatus
  end.

Definition getOf (kind : Kind) : Z → Task Json :=
  match kind with
  | Assignments => getAssignments
  | AssignmentDetails => getAssignment
  | Exercise => getExercise
  | SubmissionStatus => getSubmissionStatus
  end.

(** The session after [n] calls in a row. *)
Definition repeatedly {A} (call : Task A) (n : nat) (σ : Session) : Session :=
  Nat.iter n (λ s, (call s).2) σ.

(** What the user types into the next two input boxes, a dismissed box
    counting as the empty string. *)
Definition typedUsername (σ : Session) : string :=
  default EmptyString (typed (world σ) (asked (world σ))).
Definition typedPassword (σ : Session) : string :=
  default EmptyString (typed (world σ) (S (asked (world σ)))).

(** The user asks for another attempt whenever an error message comes up. *)
Definition alwaysRetries (σ : Session) : Prop :=
  ∀ k, chosen (world σ) k = Some Ujra.

(** The message [login] shows for an [ApiError], when reading it does not
    throw. *)
Definition shownFor (e : ApiError) (msg : option Json) : Prop :=
  ∀ σ, responseMessage e σ = (Return msg, σ).

(** The session once the user has been asked for a username and a
    password. *)
Definition prompted (σ : Session) : Session :=
  {| client := client σ;
     world := {| server := server (world σ); sent := sent (world σ);
                 typed := typed (world σ); asked := S (S (asked (world σ)));
                 chosen := chosen (world σ); shown := shown (world σ);
                 logged := logged (world σ) |} |}.

(** The session once an error message has been shown. *)
Definition withShown (msg : option Json) (σ : Session) : Session :=
  {| client := client σ;
     world := {| server := server (world σ); sent := sent (world σ);
                 typed := typed (world σ); asked := asked (world σ);
                 chosen := chosen (world σ); shown := (shown (world σ) ++ [msg])%list;
                 logged := logged (world σ) |} |}.

(** ** Further scenarios *)

Module Cases.

(** A user who retries for ever, and types the same thing every time. *)
Definition stubborn (server : list Http.Request → FetchResult) : World :=
  {| server := server; sent := []; typed := λ _, Some "guess"; asked := 0%nat;
     chosen := λ _, Some Ujra; shown := []; logged := [] |}.

(** An answer that says it is JSON and has no body. *)
Definition bodiless : Http.Response :=
  {| Http.status := 401; Http.statusText := "Unauthorized";
     Http.contentType := Some "application/json"; Http.setCookie := [];
     Http.text := EmptyString; Http.json := None |}.

(** An answer to a login: a token and a refresh token. *)
Definition welcome : Http.Response :=
  Scenario.reply 200 "OK" ["refresh-token=r1; Path=/; HttpOnly"]
    (JObject [("accessToken", JString "fresh")]).

(** Nobody has signed in yet. *)
Definition anonymous (w : World) : Session := {| client := constructor; world := w |}.

(** A server that lets everybody in, and knows one exercise. *)
Definition open (sent : list Http.Request) : FetchResult :=
  match sent with
  | req :: _ =>
      if String.eqb (Http.url req) (api "auth/login/student") then Resolved welcome
      else Resolved (Scenario.reply 200 "OK" [] Scenario.exercise)
  | [] => Rejected "no request"
  end.

(** A server that lets everybody in and then turns every request down. *)
Definition fickle (sent : list Http.Request) : FetchResult :=
  match sent with
  | req :: _ =>
      if String.eqb (Http.url req) (api "auth/login/student") then Resolved welcome
      else Resolved Scenario.unauthorized
  | [] => Rejected "no request"
  end.

(** A server whose logins work and whose refresh tokens do not. *)
Definition relogin (sent : list Http.Request) : FetchResult :=
  match sent with
  | req :: _ =>
      if String.eqb (Http.url req) (api "auth/login/student") then Resolved welcome
      else if decide (Http.header "Authorization" (Http.headers req) = Some "Bearer fresh")
      then Resolved (Scenario.reply 200 "OK" [] Scenario.exercise)
      else Resolved Scenario.unauthorized
  | [] => Rejected "no request"
  end.

(** The user types [guess] twice and the server lets them in. *)
Definition welcoming : Session :=
  anonymous (stubborn (λ _, Resolved welcome)).

(** The user keeps trying and the server keeps turning them down. *)
Definition insisting : Session :=
  anonymous (stubborn (λ _, Resolved Scenario.unauthorized)).

(** A server that turns every request down without a body. *)
Definition mute : Session :=
  {| client := Scenario.signedIn; world := Scenario.worldOf (λ _, Resolved bodiless) |}.

(** A server that answers every request with [null]. *)
Definition nothing : Session :=
  {| client := Scenario.signedIn;
     world := Scenario.worldOf (λ _, Resolved (Scenario.reply 200 "OK" [] JNull)) |}.

(** A client that has lost its access token, and a server that turns
    everything down. *)
Definition expired : Session :=
  {| client := setAccessToken None Scenario.signedIn;
     world := Scenario.worldOf (λ _, Resolved Scenario.unauthorized) |}.

(** Both tokens have run out; logging in again helps. *)
Definition lapsed : Session :=
  {| client := Scenario.signedIn; world := Scenario.worldOf relogin |}.

(** Nobody has signed in, the user dismisses the prompts, and the server
    accepts the empty login. *)
Definition unnamed : Session := anonymous (Scenario.worldOf fickle).

(** A list in which two subject instances have the same id. *)
Definition evening : SubjectInstance :=
  {| subjectInstanceId := 7; courseId := 4; subjectCode := "IB204L";
     subjectName := "Programming"; semesterName := "2024-25-1"; courseCode := "IB204L-2";
     courseDay := "Tuesday"; startTime := "18:00"; endTime := "20:00"; roomName := "IR-218" |}.

Definition doubled : Session :=
  {| client := Scenario.signedIn;
     world := Scenario.worldOf (λ _, Resolved
       {| Http.status := 200; Http.statusText := "OK";
          Http.contentType := Some "application/json"; Http.setCookie := [];
          Http.text := EmptyString;
          Http.json := Some (PSubjectInstances [Scenario.programming; evening]) |}) |}.

(** A time label that has not been refreshed yet, a clock that reads every
    text as the same moment, and dates that cannot be read. *)
Definition fresh : TimeLabels.Element :=
  {| TimeLabels.textContent := "2023-11-14T22:13:20Z"; TimeLabels.dataTime := None |}.

Definition moment : string → Num := λ _, Some 1700000000000.

Definition blank : Num → TimeLabels.Getters :=
  λ _, {| TimeLabels.getFullYear := None; TimeLabels.getMonth := None;
          TimeLabels.getDate := None; TimeLabels.getHours := None;
          TimeLabels.getMinutes := None; TimeLabels.getSeconds := None |}.




(** The body of the request a call has just sent. *)
Definition posted {A} (r : Res A * Session) : option string :=
  lastSent r.2 ≫= Http.body.

End Cases.

(** * Properties *)

(** ** Asynchronous code that comes back *)

Section Terminates.
Context {S A B : Type}.

Lemma terminates_ret (a : A) : terminates (S:=S) (ret a).
Proof. intros s. discriminate. Qed.

Lemma terminates_throw (e : Thrown) : terminates (S:=S) (A:=A) (throw e).
Proof. intros s. discriminate. Qed.

Lemma terminates_bind (m : M S A) (k : A → M S B) :
  terminates m → (∀ a, terminates (k a)) → terminates (bind m k).
Proof.
  intros Hm Hk s. unfold bind. specialize (Hm s).
  destruct (m s) as [[a|e|] s']; simpl in *; try done. apply Hk.
Qed.

Lemma terminates_tryCatch (m : M S A) (handler : Thrown → M S A) :
  terminates m → (∀ e, terminates (handler e)) → terminates (tryCatch m handler).
Proof.
  intros Hm Hh s. unfold tryCatch. specialize (Hm s).
  destruct (m s) as [[a|e|] s']; simpl in *; try done. apply Hh.
Qed.
End Terminates.

Lemma terminates_this : terminates this.
Proof. intros σ. discriminate. Qed.

Lemma terminates_assign f : terminates (assign f).
Proof. intros σ. discriminate. Qed.

Lemma terminates_log level line : terminates (log level line).
Proof. intros σ. discriminate. Qed.

Lemma terminates_fetch req : terminates (fetch req).
Proof.
  intros σ. unfold fetch, act.
  destruct (server (world σ) (req :: sent (world σ))); discriminate.
Qed.

Lemma terminates_showInputBox : terminates showInputBox.
Proof. intros σ. discriminate. Qed.

Lemma terminates_showErrorMessage msg : terminates (showErrorMessage msg).
Proof. intros σ. discriminate. Qed.

Lemma terminates_lift {A} (t : Task A) : terminates t → terminates (lift t).
Proof.
  intros Ht s. unfold lift. specialize (Ht (fst s)).
  destruct (t (fst s)) as [r σ]. exact Ht.
Qed.

Lemma terminates_called c : terminates (called c).
Proof. intros s. discriminate. Qed.

(** Straight-line code comes back because its steps do. *)
Ltac comes_back :=
  repeat first
    [ progress intros
    | progress cbv zeta
    | apply terminates_ret
    | apply terminates_throw
    | apply terminates_this
    | apply terminates_assign
    | apply terminates_log
    | apply terminates_fetch
    | apply terminates_showInputBox
    | apply terminates_showErrorMessage
    | apply terminates_called
    | apply terminates_lift
    | apply terminates_bind
    | apply terminates_tryCatch
    | match goal with
      | |- terminates (if ?b then _ else _) => destruct b
      | |- terminates (match ?x with _ => _ end) => destruct x
      end
    | assumption ].

Lemma terminates_json {T} `{Shape T} res : terminates (json (T:=T) res).
Proof. unfold json. comes_back. Qed.

Lemma terminates_accessTokenOf d : terminates (accessTokenOf d).
Proof. unfold accessTokenOf. comes_back. Qed.

Lemma terminates_get url : terminates (get url).
Proof. unfold get. comes_back. Qed.

Lemma terminates_postRaw url body headers : terminates (postRaw url body headers).
Proof. unfold postRaw. comes_back. Qed.

Lemma terminates_post url body : terminates (post url body).
Proof. apply terminates_postRaw. Qed.

Lemma terminates_getJson {T} `{Shape T} url : terminates (getJson (T:=T) url).
Proof.
  unfold getJson. apply terminates_bind; [apply terminates_get|intros res].
  apply terminates_bind; [apply terminates_json|intros d]. apply terminates_ret.
Qed.

Lemma terminates_fetchAccessToken u p : terminates (fetchAccessToken u p).
Proof.
  unfold fetchAccessToken.
  repeat first [ apply terminates_post | apply terminates_json
               | apply terminates_accessTokenOf | apply terminates_assign
               | apply terminates_bind; [|intros ?] ].
Qed.

Lemma terminates_refreshAccessToken : terminates refreshAccessToken.
Proof.
  unfold refreshAccessToken.
  repeat first [ apply terminates_post | apply terminates_json
               | apply terminates_accessTokenOf | apply terminates_assign
               | apply terminates_bind; [|intros ?] ].
Qed.

(** ** The re-authentication loop *)

Lemma withLog_nil σ : withLog [] σ = σ.
Proof.
  destruct σ as [c w]. destruct w. unfold withLog. simpl. by rewrite app_nil_r.
Qed.

Lemma log_eq level line σ : log level line σ = (Return tt, withLog [(level, line)] σ).
Proof. reflexivity. Qed.

Lemma invocations_app calls calls' :
  invocations (calls ++ calls') = (invocations calls + invocations calls')%nat.
Proof. unfold invocations. by rewrite filter_app, length_app. Qed.

Lemma invocations_fetch : invocations [CallFetch] = 1%nat.
Proof. reflexivity. Qed.

Lemma invocations_refresh : invocations [CallRefreshAccessToken] = 0%nat.
Proof. reflexivity. Qed.

Lemma invocations_prompt : invocations [CallLogin] = 0%nat.
Proof. reflexivity. Qed.

Lemma invocations_login u p : invocations [CallFetchAccessToken u p] = 0%nat.
Proof. reflexivity. Qed.

Lemma credentials_None c :
  credentials c = None →
  negb (truthy (username c)) || negb (truthy (password c)) = true.
Proof.
  unfold credentials, whenTruthy.
  destruct (truthy (username c)) eqn:Hu, (truthy (password c)) eqn:Hp; try done.
  destruct (username c) as [[]|]; try done. by destruct (password c) as [[]|].
Qed.

Section Loop.
Context {T : Type}.
Implicit Types (fetch : Task T) (continue : Spied T) (σ : Session) (calls : list Call).

Lemma recovery_returns (attempt : Task unit) (line : string) σ :
  terminates attempt →
  ((log Level.warn line;;
    tryCatch attempt (λ error, log Level.error (describe error))) σ).1 = Return tt.
Proof.
  intros Hattempt. unfold bind, tryCatch. rewrite log_eq.
  specialize (Hattempt (withLog [(Level.warn, line)] σ)).
  destruct (attempt _) as [[[]|e|] σ']; simpl in *; done.
Qed.

(** A recovery step inside the loop: the session changes as the step says,
    the call is recorded, and the loop goes on whatever the step's fate. *)
Lemma recovery_step (attempt : Task unit) (line : string) (c : Call) continue σ calls :
  terminates attempt →
  (lift (log Level.warn line);;
   tryCatch (called c;; lift attempt) (λ error, lift (log Level.error (describe error)));;
   continue) (σ, calls)
  = continue (((log Level.warn line;;
                tryCatch attempt (λ error, log Level.error (describe error))) σ).2,
              (calls ++ [c])%list).
Proof.
  intros Hattempt. unfold bind, tryCatch, lift, called. rewrite !log_eq. simpl.
  specialize (Hattempt (withLog [(Level.warn, line)] σ)).
  destruct (attempt _) as [[[]|e|] σ']; simpl in *; done.
Qed.

Lemma catchBlock_refresh continue e σ calls :
  status e = 401 →
  catchBlock continue 0 (ApiErr e) (σ, calls)
  = continue ((recoverByRefresh σ).2, (calls ++ [CallRefreshAccessToken])%list).
Proof.
  intros He. unfold catchBlock. rewrite He. simpl (401 =? 401).
  apply recovery_step, terminates_refreshAccessToken.
Qed.

Lemma catchBlock_login continue e σ calls u p :
  status e = 401 →
  credentials (client σ) = Some (u, p) →
  catchBlock continue 1 (ApiErr e) (σ, calls)
  = continue ((recoverByLogin u p σ).2, (calls ++ [CallFetchAccessToken u p])%list).
Proof.
  intros He Hc. unfold catchBlock. rewrite He. simpl (401 =? 401). cbv iota.
  unfold bind at 1. unfold lift at 1, this. simpl. rewrite Hc.
  apply recovery_step, terminates_fetchAccessToken.
Qed.

Lemma catchBlock_no_credentials continue e σ calls :
  status e = 401 →
  credentials (client σ) = None →
  catchBlock continue 1 (ApiErr e) (σ, calls)
  = (Throw (ApiErr e),
     (withLog [(Level.error, "No saved username or password (this should never happen)")] σ,
      calls)).
Proof.
  intros He Hc. unfold catchBlock. rewrite He. simpl (401 =? 401). cbv iota.
  unfold bind at 1. unfold lift at 1, this. simpl. rewrite Hc. reflexivity.
Qed.

Lemma catchBlock_exhausted continue e retries s :
  status e = 401 →
  (2 ≤ retries)%nat →
  catchBlock continue retries (ApiErr e) s = (Throw (ApiErr e), s).
Proof.
  intros He Hr. unfold catchBlock. rewrite He. simpl (401 =? 401).
  destruct retries as [|[|r]]; [lia|lia|reflexivity].
Qed.

Lemma catchBlock_status continue e retries σ calls :
  status e ≠ 401 →
  catchBlock continue retries (ApiErr e) (σ, calls)
  = (Throw (ApiErr e),
     (withLog [(Level.warn, "HTTP " +:+ ofNumber (status e))] σ, calls)).
Proof.
  intros He. unfold catchBlock.
  destruct (Z.eqb_spec (status e) 401) as [|_]; [done|reflexivity].
Qed.

Lemma catchBlock_other continue retries name msg s :
  catchBlock continue retries (OtherErr name msg) s = (Throw (OtherErr name msg), s).
Proof. reflexivity. Qed.

(** One turn of the loop. *)
Lemma retry_turn fuel fetch retries σ calls :
  retry (S fuel) fetch retries (σ, calls) =
    match fetch σ with
    | (Return v, σ') => (Return v, (σ', (calls ++ [CallFetch])%list))
    | (Throw error, σ') =>
        catchBlock (retry fuel fetch (S retries)) retries error
          (σ', (calls ++ [CallFetch])%list)
    | (Diverge, σ') => (Diverge, (σ', (calls ++ [CallFetch])%list))
    end.
Proof.
  simpl. unfold tryCatch, bind, called, lift. simpl.
  destruct (fetch σ) as [[v|error|] σ']; reflexivity.
Qed.

(** Signed in with a token at hand, [withReauth] goes straight to the loop. *)
Lemma authenticateFirst_signedIn loginFuel σ calls u p :
  credentials (client σ) = Some (u, p) →
  truthy (accessToken (client σ)) = true →
  authenticateFirst loginFuel (σ, calls) = (Return tt, (σ, calls)).
Proof.
  intros Hc Ht. unfold authenticateFirst, bind, lift, this. simpl.
  assert (truthy (username (client σ)) = true ∧ truthy (password (client σ)) = true)
    as [Hu Hp].
  { unfold credentials, whenTruthy in Hc.
    destruct (truthy (username (client σ))), (truthy (password (client σ)));
      try done; destruct (username (client σ)); done. }
  rewrite Hu, Hp. simpl. rewrite Hc, Ht. reflexivity.
Qed.

Lemma withReauth_loop loginFuel fuel fetch s σ0 calls :
  authenticateFirst loginFuel s = (Return tt, (σ0, calls)) →
  withReauth loginFuel fuel fetch s = retry fuel fetch 0 (σ0, calls).
Proof. intros Hpre. unfold withReauth, bind. by rewrite Hpre. Qed.

(** C1. When the wrapped operation fails with an [ApiError] of status 401
    on the initial attempt, again after the refresh-token recovery and
    again after the login recovery, [withReauth] has made exactly two
    recovery calls, [refreshAccessToken()] and then [fetchAccessToken]
    with the stored username and password, has invoked the operation three
    times, and throws the operation's own 401 error (the one caught last),
    not an error of the recovery calls. *)
Theorem withReauth_gives_up_after_two_recoveries
    loginFuel n fetch s σ0 calls e1 σ1 e2 σ2 u p e3 σ3 :
  authenticateFirst loginFuel s = (Return tt, (σ0, calls)) →
  fetch σ0 = (Throw (ApiErr e1), σ1) → status e1 = 401 →
  fetch (recoverByRefresh σ1).2 = (Throw (ApiErr e2), σ2) → status e2 = 401 →
  credentials (client σ2) = Some (u, p) →
  fetch (recoverByLogin u p σ2).2 = (Throw (ApiErr e3), σ3) → status e3 = 401 →
  withReauth loginFuel (3 + n) fetch s =
    (Throw (ApiErr e3),
     (σ3, (calls ++ [CallFetch; CallRefreshAccessToken; CallFetch;
                     CallFetchAccessToken u p; CallFetch])%list)).
Proof.
  intros Hpre H1 He1 H2 He2 Hc H3 He3.
  rewrite (withReauth_loop _ _ _ _ _ _ Hpre).
  change (3 + n)%nat with (S (S (S n))).
  rewrite retry_turn, H1, (catchBlock_refresh _ _ _ _ He1).
  rewrite retry_turn, H2, (catchBlock_login _ _ _ _ _ _ He2 Hc).
  rewrite retry_turn, H3, (catchBlock_exhausted _ _ _ _ He3) by lia.
  by rewrite <- !app_assoc.
Qed.

(** C3. When the wrapped operation fails with a 401 on the initial attempt
    and succeeds on the next invocation, [withReauth] has made one recovery
    call, [refreshAccessToken()], and no [fetchAccessToken] call, and it
    returns the result of the second invocation. *)
Theorem withReauth_refreshes_once loginFuel n fetch s σ0 calls e σ1 v σ2 :
  authenticateFirst loginFuel s = (Return tt, (σ0, calls)) →
  fetch σ0 = (Throw (ApiErr e), σ1) → status e = 401 →
  fetch (recoverByRefresh σ1).2 = (Return v, σ2) →
  withReauth loginFuel (2 + n) fetch s =
    (Return v, (σ2, (calls ++ [CallFetch; CallRefreshAccessToken; CallFetch])%list)).
Proof.
  intros Hpre H1 He H2.
  rewrite (withReauth_loop _ _ _ _ _ _ Hpre).
  change (2 + n)%nat with (S (S n)).
  rewrite retry_turn, H1, (catchBlock_refresh _ _ _ _ He).
  rewrite retry_turn, H2. by rewrite <- !app_assoc.
Qed.

(** C2, as the code has it. When the wrapped operation fails with
    anything but an [ApiError] of status 401, [withReauth] makes no
    recovery call and rethrows the error after that one invocation. An
    [ApiError] is logged first, as the warning [HTTP <status>]; any other
    error is rethrown without a line in the log. *)
Theorem withReauth_rethrows_other_errors loginFuel n fetch s σ0 calls error σ1 :
  authenticateFirst loginFuel s = (Return tt, (σ0, calls)) →
  fetch σ0 = (Throw error, σ1) →
  (∀ e, error = ApiErr e → status e ≠ 401) →
  withReauth loginFuel (1 + n) fetch s =
    (Throw error,
     (withLog match error with
              | ApiErr e => [(Level.warn, "HTTP " +:+ ofNumber (status e))]
              | OtherErr _ _ => []
              end σ1,
      (calls ++ [CallFetch])%list)).
Proof.
  intros Hpre H1 Hne.
  rewrite (withReauth_loop _ _ _ _ _ _ Hpre).
  change (1 + n)%nat with (S n). rewrite retry_turn, H1.
  destruct error as [e|name msg].
  - apply catchBlock_status. by apply Hne.
  - by rewrite catchBlock_other, withLog_nil.
Qed.

(** The loop comes back within three turns of where it stands. *)
Lemma retry_bounded fetch :
  terminates fetch →
  ∀ fuel retries s,
    (retries ≤ 2)%nat → (3 ≤ fuel + retries)%nat →
    (retry fuel fetch retries s).1 ≠ Diverge ∧
    (invocations (retry fuel fetch retries s).2.2 + retries ≤ invocations s.2 + 3)%nat.
Proof.
  intros Hfetch. induction fuel as [|fuel IH]; intros retries [σ calls] Hr Hsum; [lia|].
  rewrite retry_turn. specialize (Hfetch σ).
  destruct (fetch σ) as [[v|error|] σ']; simpl in Hfetch; [| |done].
  { simpl. rewrite invocations_app, invocations_fetch. split; [done|lia]. }
  destruct error as [e|name msg].
  - destruct (Z.eqb_spec (status e) 401) as [He|He].
    + destruct retries as [|[|r]].
      * rewrite (catchBlock_refresh _ _ _ _ He).
        destruct (IH 1%nat ((recoverByRefresh σ').2,
                            ((calls ++ [CallFetch]) ++ [CallRefreshAccessToken])%list))
          as [Hd Hn]; [lia|lia|].
        split; [done|]. simpl in Hn |- *.
        rewrite !invocations_app, invocations_fetch, invocations_refresh in Hn. lia.
      * destruct (credentials (client σ')) as [[u p]|] eqn:Hc.
        -- rewrite (catchBlock_login _ _ _ _ _ _ He Hc).
           destruct (IH 2%nat ((recoverByLogin u p σ').2,
                               ((calls ++ [CallFetch]) ++ [CallFetchAccessToken u p])%list))
             as [Hd Hn]; [lia|lia|].
           split; [done|]. simpl in Hn |- *.
           rewrite !invocations_app, invocations_fetch, invocations_login in Hn. lia.
        -- rewrite (catchBlock_no_credentials _ _ _ _ He Hc). simpl.
           rewrite invocations_app, invocations_fetch. split; [done|lia].
      * rewrite (catchBlock_exhausted _ _ _ _ He) by lia. simpl.
        rewrite invocations_app, invocations_fetch. split; [done|lia].
    + rewrite (catchBlock_status _ _ _ _ _ He). simpl.
      rewrite invocations_app, invocations_fetch. split; [done|lia].
  - rewrite catchBlock_other. simpl.
    rewrite invocations_app, invocations_fetch. split; [done|lia].
Qed.

(** The authentication before the loop never invokes the operation. *)
Lemma authenticateFirst_invocations loginFuel s :
  invocations (authenticateFirst loginFuel s).2.2 = invocations s.2.
Proof.
  destruct s as [σ calls]. unfold authenticateFirst, bind, lift, called, this. simpl.
  destruct (negb (truthy (username (client σ))) || negb (truthy (password (client σ))));
    simpl.
  - destruct (login loginFuel _) as [[[]|e|] σ1]; simpl;
      rewrite ?invocations_app, ?invocations_prompt; try lia.
    destruct (credentials (client σ1)) as [[u p]|]; simpl;
      rewrite ?invocations_app, ?invocations_prompt; try lia.
    destruct (negb (truthy (accessToken (client σ1)))); simpl;
      rewrite ?invocations_app, ?invocations_prompt; try lia.
    destruct (fetchAccessToken u p _) as [r σ2]; simpl.
    rewrite !invocations_app, invocations_prompt, invocations_login. lia.
  - destruct (credentials (client σ)) as [[u p]|]; simpl; try lia.
    destruct (negb (truthy (accessToken (client σ)))); simpl; try lia.
    destruct (fetchAccessToken u p _) as [r σ2]; simpl.
    rewrite !invocations_app, invocations_login. lia.
Qed.

(** With a username and a password at hand nobody is prompted, and the
    authentication before the loop comes back. *)
Lemma authenticateFirst_with_credentials loginFuel σ calls u p :
  credentials (client σ) = Some (u, p) →
  (authenticateFirst loginFuel (σ, calls)).1 ≠ Diverge.
Proof.
  intros Hc. unfold authenticateFirst, bind, lift, this. simpl.
  assert (truthy (username (client σ)) = true ∧ truthy (password (client σ)) = true)
    as [Hu Hp].
  { unfold credentials, whenTruthy in Hc.
    destruct (truthy (username (client σ))), (truthy (password (client σ)));
      try done; destruct (username (client σ)); done. }
  rewrite Hu, Hp. simpl. rewrite Hc.
  destruct (negb (truthy (accessToken (client σ)))); simpl; [|done].
  pose proof (terminates_fetchAccessToken u p
                (withLog [(Level.warn, "No access token, logging in again ...")] σ)) as Ht.
  unfold withLog in Ht.
  by destruct (fetchAccessToken u p _) as [[[]|e|] σ'].
Qed.

Lemma withReauth_bounded fetch loginFuel n s :
  terminates fetch →
  (authenticateFirst loginFuel s).1 ≠ Diverge →
  (withReauth loginFuel (3 + n) fetch s).1 ≠ Diverge ∧
  (invocations (withReauth loginFuel (3 + n) fetch s).2.2 ≤ invocations s.2 + 3)%nat.
Proof.
  intros Hfetch Hpre. unfold withReauth, bind.
  destruct (authenticateFirst loginFuel s) as [[[]|e|] s'] eqn:Hs; simpl in Hpre; [| |done].
  - destruct (retry_bounded fetch Hfetch (3 + n) 0 s') as [Hd Hn]; [lia|lia|].
    split; [done|].
    assert (invocations s'.2 = invocations s.2) as <-; [|lia].
    rewrite <- (authenticateFirst_invocations loginFuel s). by rewrite Hs.
  - simpl. split; [done|].
    rewrite <- (authenticateFirst_invocations loginFuel s). rewrite Hs. simpl. lia.
Qed.

(** In particular [withReauth] comes back whenever the client holds a
    username and a password. *)
Lemma withReauth_comes_back_with_credentials fetch loginFuel n σ calls u p :
  terminates fetch →
  credentials (client σ) = Some (u, p) →
  (withReauth loginFuel (3 + n) fetch (σ, calls)).1 ≠ Diverge.
Proof.
  intros Hfetch Hc.
  apply withReauth_bounded; [done|]. by eapply authenticateFirst_with_credentials.
Qed.

(** C9, as the code has it. Whatever the wrapped operation and the two
    recovery calls do, as long as each invocation of the operation returns
    or throws, the loop of [withReauth] ends: three turns are enough, and
    the operation is invoked at most three times. [withReauth] as a whole
    runs [login] before the loop when the client has no username or no
    password, and [login] repeats as long as the user asks for it: with a
    username and a password [withReauth] comes back, and when it does not
    come back it is [login] that has not. *)
Theorem withReauth_terminates fetch loginFuel n :
  terminates fetch →
  (∀ s, (retry (3 + n) fetch 0 s).1 ≠ Diverge ∧
        (invocations (retry (3 + n) fetch 0 s).2.2 ≤ invocations s.2 + 3)%nat) ∧
  (∀ s, (invocations (withReauth loginFuel (3 + n) fetch s).2.2 ≤ invocations s.2 + 3)%nat) ∧
  (∀ σ calls u p,
     credentials (client σ) = Some (u, p) →
     (withReauth loginFuel (3 + n) fetch (σ, calls)).1 ≠ Diverge) ∧
  (∀ σ calls,
     (withReauth loginFuel (3 + n) fetch (σ, calls)).1 = Diverge →
     credentials (client σ) = None ∧
     (login loginFuel
        (withLog [(Level.warn, "No username/password, asking the user ...")] σ)).1
     = Diverge).
Proof.
  intros Hfetch.
  assert (∀ s, (retry (3 + n) fetch 0 s).1 ≠ Diverge ∧
               (invocations (retry (3 + n) fetch 0 s).2.2 ≤ invocations s.2 + 3)%nat)
    as Hloop.
  { intros s. destruct (retry_bounded fetch Hfetch (3 + n) 0 s) as [Hd Hn]; [lia|lia|].
    split; [done|lia]. }
  split; [exact Hloop|]. split; [|split].
  - intros s. unfold withReauth, bind.
    pose proof (authenticateFirst_invocations loginFuel s) as Hpre.
    destruct (authenticateFirst loginFuel s) as [[[]|e|] s']; simpl in *;
      [|lia|lia].
    destruct (Hloop s') as [_ Hn]. lia.
  - intros σ calls u p Hc. by eapply withReauth_comes_back_with_credentials.
  - intros σ calls Hdiverge.
    destruct (credentials (client σ)) as [[u p]|] eqn:Hc.
    { by destruct (withReauth_comes_back_with_credentials fetch loginFuel n σ calls u p). }
    split; [done|].
    unfold withReauth in Hdiverge. unfold bind at 1 in Hdiverge.
    destruct (authenticateFirst loginFuel (σ, calls)) as [[[]|e|] s'] eqn:Hpre;
      [by destruct (Hloop s') as [Hd _]|done|].
    clear Hdiverge. unfold authenticateFirst in Hpre.
    unfold bind at 1 2 3 in Hpre. unfold lift at 1, this in Hpre. simpl in Hpre.
    rewrite (credentials_None _ Hc) in Hpre. revert Hpre.
    unfold bind, lift, called, log, act. simpl.
    change {| client := client σ; world := _ |}
      with (withLog [(Level.warn, "No username/password, asking the user ...")] σ).
    destruct (login loginFuel _) as [[[]|e|] σ1]; simpl; [|done|done].
    destruct (credentials (client σ1)) as [[u p]|]; simpl; [|done].
    destruct (negb (truthy (accessToken (client σ1)))); simpl; [|done].
    pose proof (terminates_fetchAccessToken u p
                  (withLog [(Level.warn, "No access token, logging in again ...")] σ1)) as Ht.
    unfold withLog in Ht.
    by destruct (fetchAccessToken u p _) as [[[]|e|] σ2].
Qed.

End Loop.

(** ** The request pipeline *)

(** A cookie is in the record exactly when a header names it, and its value
    is that of the last header that does; a header named [__proto__] leaves
    no entry. *)
Lemma parseCookies_from (hs : list string) (cookies : gmap string string) name :
  fold_left
    (λ cookies setCookie,
       let cookieName := beforeFirst "=" setCookie in
       let cookieValue :=
         beforeFirst ";" (substring (String.length cookieName + 1) setCookie) in
       assignProperty cookieName cookieValue cookies) hs cookies !! name
  = if decide (name = "__proto__") then cookies !! name
    else match last (filter (λ h, cookieName h = name) hs) with
         | Some h => Some (cookieValue h)
         | None => cookies !! name
         end.
Proof.
  revert cookies. induction hs as [|h hs IH]; intros cookies; [by case_decide|].
  simpl. rewrite IH, filter_cons.
  fold (cookieName h). fold (cookieValue h). unfold assignProperty.
  destruct (decide (name = "__proto__")) as [->|Hname].
  - destruct (decide (cookieName h = "__proto__")) as [_|Hne]; [done|].
    by rewrite lookup_insert_ne.
  - destruct (decide (cookieName h = name)) as [<-|Hne].
    + rewrite decide_False by done. rewrite lookup_insert_eq.
      destruct (filter _ hs) as [|h' l] eqn:Hf; [done|].
      change (last (h :: h' :: l)) with (last (h' :: l)).
      destruct (last (h' :: l)) eqn:Hl; [done|]. by apply last_None in Hl.
    + destruct (decide (cookieName h = "__proto__")); [done|].
      by rewrite lookup_insert_ne.
Qed.

Lemma parseCookies_lookup res name :
  name ≠ "__proto__" →
  parseCookies res !! name =
    cookieValue <$> last (filter (λ h, cookieName h = name) (Http.setCookie res)).
Proof.
  intros Hname. unfold parseCookies. rewrite parseCookies_from.
  rewrite decide_False by done.
  destruct (last _); [done|apply lookup_empty].
Qed.

Lemma parseCookies_proto res : parseCookies res !! "__proto__" = None.
Proof. unfold parseCookies. rewrite parseCookies_from. apply lookup_empty. Qed.

Lemma parseCookies_refresh_token res stored :
  match parseCookies res !! "refresh-token" with
  | Some v => Some v
  | None => stored
  end = rotated res stored.
Proof. unfold rotated, refreshCookie. by rewrite parseCookies_lookup. Qed.

Lemma get_outcome url σ a :
  answers σ a →
  (get url σ).1 = match a with
                  | Resolved res => if Http.ok res then Return res else Throw (failure a)
                  | Rejected _ => Throw (failure a)
                  end
  ∧ client (get url σ).2 =
      match a with
      | Resolved res =>
          if Http.ok res
          then setRefreshToken (rotated res (refreshToken (client σ))) (client σ)
          else client σ
      | Rejected _ => client σ
      end.
Proof.
  intros Ha. unfold get, bind, this, log, fetch, act, assign. simpl.
  rewrite (Ha _). destruct a as [reason|res]; simpl; [done|].
  destruct (Http.ok res); simpl; [|done].
  by rewrite parseCookies_refresh_token.
Qed.

Lemma postRaw_outcome url body headers σ a :
  answers σ a →
  (postRaw url body headers σ).1 =
    match a with
    | Resolved res => if Http.ok res then Return res else Throw (failure a)
    | Rejected _ => Throw (failure a)
    end
  ∧ client (postRaw url body headers σ).2 =
      match a with
      | Resolved res =>
          if Http.ok res
          then setRefreshToken (rotated res (refreshToken (client σ))) (client σ)
          else client σ
      | Rejected _ => client σ
      end.
Proof.
  intros Ha. unfold postRaw, bind, this, log, fetch, act, assign. simpl.
  rewrite (Ha _). destruct a as [reason|res]; simpl; [done|].
  destruct (Http.ok res); simpl; [|done].
  by rewrite parseCookies_refresh_token.
Qed.

(** C5, as the code has it. A response to [get] or [postRaw] with a 2xx
    status makes the stored refresh token the value of the [refresh-token]
    cookie among its [Set-Cookie] headers when there is one, and leaves it
    as it was when there is none. Any other response is turned into an
    [ApiError] before its cookies are looked at: the stored refresh token
    stays as it was. *)
Theorem refresh_token_follows_2xx_responses url body headers σ res :
  answers σ (Resolved res) →
  let stored (σ : Session) := refreshToken (client σ) in
  let expected := if Http.ok res then rotated res (stored σ) else stored σ in
  let outcome := if Http.ok res then Return res else Throw (ApiErr (fromResponse res)) in
  ((get url σ).1 = outcome ∧ stored (get url σ).2 = expected) ∧
  ((postRaw url body headers σ).1 = outcome ∧ stored (postRaw url body headers σ).2 = expected).
Proof.
  intros Ha. simpl.
  destruct (get_outcome url σ _ Ha) as [Hg1 Hg2].
  destruct (postRaw_outcome url body headers σ _ Ha) as [Hp1 Hp2].
  rewrite Hg1, Hg2, Hp1, Hp2. destruct (Http.ok res); done.
Qed.

(** ** Signing in *)

Lemma post_without_tokens url body σ :
  accessToken (client σ) = None →
  refreshToken (client σ) = None →
  ∃ req, sent (world (post url body σ).2) = req :: sent (world σ) ∧
         Http.url req = url ∧
         Http.header "Authorization" (Http.headers req) = None ∧
         Http.header "Cookie" (Http.headers req) = None.
Proof.
  intros Ht Hr. unfold post, postRaw, bind, this, log, fetch, act, assign. simpl.
  rewrite Ht, Hr. simpl.
  destruct (server (world σ) _) as [reason|res]; simpl.
  - eexists. split; [reflexivity|done].
  - destruct (Http.ok res); simpl; eexists; (split; [reflexivity|done]).
Qed.

(** Once the login request has come back, [fetchAccessToken] only touches
    the client. *)
Lemma fetchAccessToken_after_post u p σ :
  let σ0 := {| client := setAccessToken None (setRefreshToken None (client σ));
               world := world σ |} in
  let body := JObject [("username", JString u); ("password", JString p)] in
  let posted := post (api "auth/login/student") body σ0 in
  world (fetchAccessToken u p σ).2 = world posted.2 ∧
  match posted.1 with
  | Return res =>
      username (client (fetchAccessToken u p σ).2) = Some u ∧
      password (client (fetchAccessToken u p σ).2) = Some p
  | Throw e => fetchAccessToken u p σ = (Throw e, posted.2)
  | Diverge => fetchAccessToken u p σ = (Diverge, posted.2)
  end.
Proof.
  simpl. unfold fetchAccessToken, bind, assign. simpl.
  destruct (post _ _ _) as [[res|e|] σp]; simpl; [|done|done].
  unfold json. destruct (Http.json res ≫= cast) as [d|]; simpl; [|done].
  destruct d as [[]| |]; simpl; done.
Qed.

(** C10. [fetchAccessToken] clears both tokens before it sends the login
    request, which therefore carries neither of them. When the request
    fails, both tokens stay cleared and the stored username and password are
    what they were; they are replaced by the ones supplied only when the
    request has succeeded. *)
Theorem fetchAccessToken_stores_credentials_on_success u p σ a :
  answers σ a →
  let after := (fetchAccessToken u p σ).2 in
  (∃ req, sent (world after) = req :: sent (world σ) ∧
          Http.url req = api "auth/login/student" ∧
          Http.header "Authorization" (Http.headers req) = None ∧
          Http.header "Cookie" (Http.headers req) = None) ∧
  (failed a = true →
     (fetchAccessToken u p σ).1 = Throw (failure a) ∧
     accessToken (client after) = None ∧
     refreshToken (client after) = None ∧
     username (client after) = username (client σ) ∧
     password (client after) = password (client σ)) ∧
  (failed a = false →
     username (client after) = Some u ∧ password (client after) = Some p).
Proof.
  intros Ha. simpl.
  destruct (fetchAccessToken_after_post u p σ) as [Hworld Hrest]. simpl in Hworld, Hrest.
  set (σ0 := {| client := setAccessToken None (setRefreshToken None (client σ));
                world := world σ |}) in *.
  assert (answers σ0 a) as Ha0 by exact Ha.
  destruct (postRaw_outcome (api "auth/login/student")
              (stringify (JObject [("username", JString u); ("password", JString p)]))
              [] σ0 a Ha0) as [Hout Hclient].
  fold (post (api "auth/login/student")
          (JObject [("username", JString u); ("password", JString p)])) in Hout, Hclient.
  split.
  { rewrite Hworld. by apply (post_without_tokens _ _ σ0). }
  split.
  - intros Hfailed. rewrite Hout in Hrest.
    assert (fetchAccessToken u p σ
            = (Throw (failure a), (post (api "auth/login/student")
                 (JObject [("username", JString u); ("password", JString p)]) σ0).2)
            ∧ client (post (api "auth/login/student")
                 (JObject [("username", JString u); ("password", JString p)]) σ0).2
              = client σ0) as [-> Hc].
    { destruct a as [reason|res]; simpl in *; [done|].
      by destruct (Http.ok res). }
    simpl. by rewrite Hc.
  - intros Hfailed. rewrite Hout in Hrest.
    destruct a as [reason|res]; simpl in *; [done|].
    by destruct (Http.ok res).
Qed.

(** ** Reports and uploaded files *)

Lemma decodeReport_eq item σ :
  decodeReport item σ =
    match atob (content item) with
    | Some _ => (Return (reportOf item), σ)
    | None => (Throw invalidCharacter, σ)
    end.
Proof.
  unfold decodeReport, decodeBase64, bind, tryCatch, JSON_parse, reportOf, textOf.
  destruct (atob (content item)) as [bytes|]; simpl; [|done].
  destruct (parse (decode bytes)); done.
Qed.

Lemma decodeFile_eq item σ :
  decodeFile item σ =
    match atob (content item) with
    | Some _ => (Return (fileOf item), σ)
    | None => (Throw invalidCharacter, σ)
    end.
Proof.
  unfold decodeFile, decodeBase64, bind, fileOf, textOf.
  destruct (atob (content item)) as [bytes|]; done.
Qed.

Section ForOf.
Context {B : Type} (body : Item string → Task B) (pure : Item string → B).
Hypothesis body_eq : ∀ item σ,
  body item σ = match atob (content item) with
                | Some _ => (Return (pure item), σ)
                | None => (Throw invalidCharacter, σ)
                end.

Lemma forOf_wellEncoded v σ :
  Forall wellEncoded v → forOf body v σ = (Return (pure <$> v), σ).
Proof.
  induction 1 as [|item rest [bytes Hitem] _ IH]; [done|].
  simpl. unfold bind. rewrite body_eq, Hitem, IH. done.
Qed.

Lemma forOf_malformed v σ :
  ¬ Forall wellEncoded v → forOf body v σ = (Throw invalidCharacter, σ).
Proof.
  induction v as [|item rest IH]; intros Hv; [by destruct Hv|].
  simpl. unfold bind. rewrite body_eq.
  destruct (atob (content item)) as [bytes|] eqn:Hitem; [|done].
  rewrite IH; [done|]. intros Hrest. apply Hv. constructor; [|done].
  by exists bytes.
Qed.
End ForOf.

(** C6, as the code has it. Once the list of payloads has arrived, a
    payload that is well-formed base64 never makes [fetchReports] or
    [fetchSubmissionFiles] fail: a report whose text is not JSON is kept as
    that text. A payload that is not well-formed base64 is not absorbed:
    [atob] throws outside any [try], and the whole fetch rejects with its
    error, storing nothing. *)
Theorem decode_errors_absorbed_for_json_only id σ v σ1 :
  (getJson (api ("students/evaluations/" +:+ ofNumber id +:+ "/reports")) σ = (Return v, σ1) →
   (Forall wellEncoded v →
      fetchReports id σ =
        (Return (reportOf <$> v),
         {| client := setReports (<[id := reportOf <$> v]> (reports (client σ1))) (client σ1);
            world := world σ1 |}) ∧
      ∀ item, item ∈ v → parse (textOf item) = None →
              content (reportOf item) = JString (textOf item)) ∧
   (¬ Forall wellEncoded v → fetchReports id σ = (Throw invalidCharacter, σ1))) ∧
  (getJson (api ("students/submissions/" +:+ ofNumber id +:+ "/uploaded-files")) σ
     = (Return v, σ1) →
   (Forall wellEncoded v →
      fetchSubmissionFiles id σ =
        (Return (fileOf <$> v),
         {| client := setSubmissionFiles (<[id := fileOf <$> v]> (submissionFiles (client σ1)))
                        (client σ1);
            world := world σ1 |})) ∧
   (¬ Forall wellEncoded v → fetchSubmissionFiles id σ = (Throw invalidCharacter, σ1))).
Proof.
  split; intros Hget.
  - split; intros Hv.
    + split.
      * unfold fetchReports, bind. rewrite Hget.
        by rewrite (forOf_wellEncoded decodeReport reportOf decodeReport_eq).
      * intros item _ Hparse. unfold reportOf. simpl. by rewrite Hparse.
    + unfold fetchReports, bind. rewrite Hget.
      by rewrite (forOf_malformed decodeReport reportOf decodeReport_eq).
  - split; intros Hv.
    + unfold fetchSubmissionFiles, bind. rewrite Hget.
      by rewrite (forOf_wellEncoded decodeFile fileOf decodeFile_eq).
    + unfold fetchSubmissionFiles, bind. rewrite Hget.
      by rewrite (forOf_malformed decodeFile fileOf decodeFile_eq).
Qed.

(** ** File submission *)


Lemma append_empty_r (a : string) : a +:+ EmptyString = a.
Proof.
  induction a as [|x a IH]; [done|].
  change (String x (a +:+ EmptyString) = String x a). by rewrite IH.
Qed.













(** ** The entity caches *)

(** A cached entity is handed out as it is, without a request. *)
Lemma cached_entity_returned σ id :
  (∀ v, assignments (client σ) !! id = Some v → v ≠ JNull →
        getAssignments id σ = (Return v, σ)) ∧
  (∀ v, assignmentDetails (client σ) !! id = Some v → v ≠ JNull →
        getAssignment id σ = (Return v, σ)) ∧
  (∀ v, exercises (client σ) !! id = Some v → v ≠ JNull →
        getExercise id σ = (Return v, σ)) ∧
  (∀ v, submissionStatuses (client σ) !! id = Some v → v ≠ JNull →
        getSubmissionStatus id σ = (Return v, σ)) ∧
  (∀ v, reports (client σ) !! id = Some v → getReports id σ = (Return v, σ)) ∧
  (∀ v, submissionFiles (client σ) !! id = Some v →
        getSubmissionFiles id σ = (Return v, σ)) ∧
  (∀ r v, subjectInstances (client σ) = Some r → r !! id = Some v →
          getSubjectInstance id σ = (Return (Some v), σ)).
Proof.
  repeat split; intros.
  - unfold getAssignments, bind, this. simpl. rewrite H. by destruct v.
  - unfold getAssignment, bind, this. simpl. rewrite H. by destruct v.
  - unfold getExercise, bind, this. simpl. rewrite H. by destruct v.
  - unfold getSubmissionStatus, bind, this. simpl. rewrite H. by destruct v.
  - unfold getReports, bind, this. simpl. by rewrite H.
  - unfold getSubmissionFiles, bind, this. simpl. by rewrite H.
  - unfold getSubjectInstance, bind, this. simpl. rewrite H. simpl. by rewrite H0.
Qed.

(** An exercise that is not cached is fetched, stored and returned. *)
Lemma getExercise_miss id σ v σ1 :
  nonNull (exercises (client σ) !! id) = None →
  getJson (api ("students/exercises/" +:+ ofNumber id)) σ = (Return v, σ1) →
  getExercise id σ =
    (Return v, {| client := setExercises (<[id := v]> (exercises (client σ1))) (client σ1);
                  world := world σ1 |}).
Proof.
  intros Hmiss Hget. unfold getExercise, bind, this. simpl. rewrite Hmiss.
  unfold fetchExercise, bind. by rewrite Hget.
Qed.

(** A subject instance that is not cached is fetched and stored under its
    id, but what is returned is the entry of the fetched list at the position
    [instanceId]. *)
Lemma getSubjectInstance_miss instanceId σ v σ1 :
  subjectInstances (client σ) ≫= (λ r, r !! instanceId) = None →
  getJson (api "students/subject-instances") σ = (Return v, σ1) →
  getSubjectInstance instanceId σ =
    (Return (index v instanceId),
     {| client := setSubjectInstances (Some (listToRecord v subjectInstanceId)) (client σ1);
        world := world σ1 |}).
Proof.
  intros Hmiss Hget. unfold getSubjectInstance, bind, this. simpl. rewrite Hmiss.
  unfold fetchSubjectInstances, bind. by rewrite Hget.
Qed.

(** C4, where the code departs from it. The subject instance with id 7 is
    not cached; the server lists it (at position 0). [getSubjectInstance(7)]
    fetches the list and caches the instance under 7, yet it returns
    [undefined], the entry at position 7 of the list. The next call finds
    the instance in the cache and returns it, without a request. *)
Theorem getSubjectInstance_miss_returns_list_entry :
  let first := getSubjectInstance 7 Scenario.campus in
  let second := getSubjectInstance 7 first.2 in
  subjectInstances (client Scenario.campus) = None ∧
  first.1 = Return None ∧
  (subjectInstances (client first.2) ≫= (λ r, r !! 7)) = Some Scenario.programming ∧
  length (sent (world first.2)) = 1%nat ∧
  second.1 = Return (Some Scenario.programming) ∧
  sent (world second.2) = sent (world first.2).
Proof. vm_compute. repeat split. Qed.

(** C7. The payload [aGVsbG8=] is base64 for [hello], which is not JSON:
    the report is kept as that text, a string. The payload that is base64
    for [{"report_type":"X","tests":[]}] is parsed: the report is the
    object, and its [report_type] is [X]. *)
Theorem report_decoding_round_trips :
  let fetched := fetchReports 12 Scenario.graded in
  decode <$> atob "aGVsbG8=" = Some "hello" ∧
  parse "hello" = None ∧
  decode <$> atob "eyJyZXBvcnRfdHlwZSI6IlgiLCJ0ZXN0cyI6W119"
    = Some (stringify Scenario.structured) ∧
  parse (stringify Scenario.structured) = Some Scenario.structured ∧
  fetched.1 = Return [ {| filename := "stdout.txt"; content := JString "hello" |};
                       {| filename := "report.json"; content := Scenario.structured |} ] ∧
  reports (client fetched.2) !! 12 =
    Some [ {| filename := "stdout.txt"; content := JString "hello" |};
           {| filename := "report.json"; content := Scenario.structured |} ] ∧
  isString (JString "hello") = true ∧
  isString Scenario.structured = false ∧
  prop "report_type" Scenario.structured = Some (JString "X").
Proof. vm_compute. repeat split. Qed.

(** ** The properties at work *)

Lemma terminates_getExercise id : terminates (getExercise id).
Proof.
  unfold getExercise. apply terminates_bind; [apply terminates_this|intros self].
  destruct (nonNull _); [apply terminates_ret|].
  unfold fetchExercise.
  apply terminates_bind; [apply terminates_getJson|intros v].
  apply terminates_bind; [apply terminates_assign|intros _]. apply terminates_ret.
Qed.

(** C1 at work: the server turns everything down, the refresh and the
    login included. *)
Lemma withReauth_gives_up_after_two_recoveries_witness :
  let r := withReauth 0 (3 + 0) (getExercise 5) (Scenario.locked, []) in
  r.1 = Throw (ApiErr (fromResponse Scenario.unauthorized)) ∧
  r.2.2 = [CallFetch; CallRefreshAccessToken; CallFetch;
           CallFetchAccessToken "student" "secret"; CallFetch].
Proof.
  cbv zeta.
  rewrite (withReauth_gives_up_after_two_recoveries 0 0 (getExercise 5)
             (Scenario.locked, []) Scenario.locked []
             (fromResponse Scenario.unauthorized)
             (getExercise 5 Scenario.locked).2
             (fromResponse Scenario.unauthorized)
             (getExercise 5 (recoverByRefresh (getExercise 5 Scenario.locked).2).2).2
             "student" "secret"
             (fromResponse Scenario.unauthorized)
             (getExercise 5
                (recoverByLogin "student" "secret"
                   (getExercise 5
                      (recoverByRefresh (getExercise 5 Scenario.locked).2).2).2).2).2);
    [split; reflexivity | vm_compute; reflexivity ..].
Defined.

(** C3 at work: the access token has expired, the refresh token has not. *)
Lemma withReauth_refreshes_once_witness :
  let r := withReauth 0 (2 + 0) (getExercise 5) (Scenario.stale, []) in
  r.1 = Return Scenario.exercise ∧
  r.2.2 = [CallFetch; CallRefreshAccessToken; CallFetch] ∧
  accessToken (client r.2.1) = Some "fresh" ∧
  refreshToken (client r.2.1) = Some "r2".
Proof.
  cbv zeta.
  rewrite (withReauth_refreshes_once 0 0 (getExercise 5)
             (Scenario.stale, []) Scenario.stale []
             (fromResponse Scenario.unauthorized)
             (getExercise 5 Scenario.stale).2
             Scenario.exercise
             (getExercise 5 (recoverByRefresh (getExercise 5 Scenario.stale).2).2).2);
    [repeat split; vm_compute; reflexivity | vm_compute; reflexivity ..].
Defined.

(** C2 at work: a 500 is logged as [HTTP 500] and rethrown. *)
Lemma withReauth_rethrows_other_errors_witness :
  let r := withReauth 0 (1 + 0) (getExercise 5) (Scenario.broken, []) in
  r.1 = Throw (ApiErr (fromResponse Scenario.serverError)) ∧
  r.2.2 = [CallFetch] ∧
  last (logged (world r.2.1)) = Some (Level.warn, "HTTP 500").
Proof.
  cbv zeta.
  rewrite (withReauth_rethrows_other_errors 0 0 (getExercise 5)
             (Scenario.broken, []) Scenario.broken []
             (ApiErr (fromResponse Scenario.serverError))
             (getExercise 5 Scenario.broken).2);
    [repeat split; vm_compute; reflexivity
    | vm_compute; reflexivity
    | vm_compute; reflexivity
    | intros e [= <-]; vm_compute; discriminate ].
Defined.

(** C2 as stated fails: an operation that rejects with a transport error is
    invoked once and its error rethrown, but nothing at all is logged, neither
    before the error is rethrown nor after. *)
Lemma withReauth_transport_error_not_logged :
  let r := withReauth 0 1 Scenario.unreachable (Scenario.offline, []) in
  r.1 = Throw (OtherErr "TypeError" "fetch failed") ∧
  r.2.2 = [CallFetch] ∧
  logged (world Scenario.offline) = [] ∧
  logged (world r.2.1) = [] ∧
  ¬ ∃ entry, entry ∈ logged (world r.2.1).
Proof.
  cbv zeta.
  assert (logged (world (withReauth 0 1 Scenario.unreachable (Scenario.offline, [])).2.1)
          = []) as Hlog by (vm_compute; reflexivity).
  rewrite Hlog. repeat split; try (vm_compute; reflexivity).
  intros [entry Hentry]. by apply not_elem_of_nil in Hentry.
Qed.

(** C9 at work. *)
Lemma withReauth_terminates_witness :
  (retry (3 + 0) (getExercise 5) 0 (Scenario.locked, [])).1 ≠ Diverge ∧
  (invocations (retry (3 + 0) (getExercise 5) 0 (Scenario.locked, [])).2.2 ≤ 3)%nat.
Proof.
  exact (proj1 (withReauth_terminates (getExercise 5) 0 0 (terminates_getExercise 5))
           (Scenario.locked, [])).
Defined.

(** C5 at work: a 2xx answer with a [refresh-token] cookie. *)
Lemma refresh_token_follows_2xx_responses_witness :
  refreshToken (client Scenario.rotating) = Some "old" ∧
  refreshToken (client (get (api "students/exercises/5") Scenario.rotating).2)
    = Some "abc123" ∧
  refreshToken (client (postRaw (api "auth/refresh-token") "{}" [] Scenario.rotating).2)
    = Some "abc123".
Proof.
  destruct (refresh_token_follows_2xx_responses
              (api "students/exercises/5") "{}" [] Scenario.rotating
              (Scenario.reply 200 "OK" ["refresh-token=abc123; Path=/"] Scenario.exercise)
              (λ _, eq_refl)) as [[_ Hget] _].
  destruct (refresh_token_follows_2xx_responses
              (api "auth/refresh-token") "{}" [] Scenario.rotating
              (Scenario.reply 200 "OK" ["refresh-token=abc123; Path=/"] Scenario.exercise)
              (λ _, eq_refl)) as [_ [_ Hpost]].
  split; [reflexivity|]. split; [exact Hget|exact Hpost].
Defined.

(** C5 as stated fails: a 401 that carries a new [refresh-token] cookie
    leaves the stored refresh token as it was, for [get] and for [postRaw]. *)
Lemma refresh_token_ignored_on_failure :
  let res := Scenario.unauthorized in
  let got := get (api "students/exercises/5") Scenario.locked in
  let posted := postRaw (api "auth/refresh-token") "{}" [] Scenario.locked in
  Http.setCookie res = ["refresh-token=abc123; Path=/"] ∧
  parseCookies res !! "refresh-token" = Some "abc123" ∧
  refreshToken (client Scenario.locked) = Some "old" ∧
  got.1 = Throw (ApiErr (fromResponse res)) ∧
  refreshToken (client got.2) = Some "old" ∧
  posted.1 = Throw (ApiErr (fromResponse res)) ∧
  refreshToken (client posted.2) = Some "old".
Proof. vm_compute. repeat split. Qed.

(** C6 at work: [hello] is not JSON and stays text. *)
Lemma decode_errors_absorbed_for_json_only_witness :
  (fetchReports 12 Scenario.graded).1 =
    Return [ {| filename := "stdout.txt"; content := JString "hello" |};
             {| filename := "report.json"; content := Scenario.structured |} ].
Proof.
  destruct (decode_errors_absorbed_for_json_only 12 Scenario.graded Scenario.payloads
              (getJson (T:=list (Item string))
                 (api ("students/evaluations/" +:+ ofNumber 12 +:+ "/reports"))
                 Scenario.graded).2) as [Hreports _].
  destruct Hreports as [Hok _]; [vm_compute; reflexivity|].
  destruct Hok as [Hfetched _].
  { repeat constructor; eexists; vm_compute; reflexivity. }
  rewrite Hfetched. vm_compute. reflexivity.
Defined.

(** C6 as stated fails: a payload that is not base64 makes the whole fetch
    reject, of reports and of uploaded files, and nothing is stored. *)
Lemma malformed_base64_fails_the_fetch :
  let reports' := fetchReports 12 Scenario.garbled in
  let files' := fetchSubmissionFiles 12 Scenario.garbled in
  atob "%%%%" = None ∧
  reports'.1 = Throw invalidCharacter ∧
  reports (client reports'.2) !! 12 = None ∧
  files'.1 = Throw invalidCharacter ∧
  submissionFiles (client files'.2) !! 12 = None.
Proof. vm_compute. repeat split. Qed.

(** C10 at work: the login is turned down. *)
Lemma fetchAccessToken_stores_credentials_on_success_witness :
  let r := fetchAccessToken "someone" "else" Scenario.locked in
  r.1 = Throw (ApiErr (fromResponse Scenario.unauthorized)) ∧
  accessToken (client r.2) = None ∧
  refreshToken (client r.2) = None ∧
  username (client r.2) = Some "student" ∧
  password (client r.2) = Some "secret".
Proof.
  cbv zeta.
  destruct (fetchAccessToken_stores_credentials_on_success "someone" "else" Scenario.locked
              (Resolved Scenario.unauthorized) (λ _, eq_refl)) as (_ & Hfailed & _).
  exact (Hfailed eq_refl).
Defined.

(** * Further properties *)

(** ** Records built from lists *)

Lemma listToRecord_from {T} (key : T → Z) (items : list T) (res : gmap Z T) k :
  fold_left (λ res item, <[key item := item]> res) items res !! k
  = match last (filter (λ item, key item = k) items) with
    | Some item => Some item
    | None => res !! k
    end.
Proof.
  revert res. induction items as [|x items IH]; intros res; [done|].
  simpl. rewrite IH, filter_cons.
  destruct (decide (key x = k)) as [<-|Hne].
  - rewrite lookup_insert_eq.
    destruct (filter _ items) as [|y l] eqn:Hf; [done|].
    change (last (x :: y :: l)) with (last (y :: l)).
    destruct (last (y :: l)) eqn:Hl; [done|]. by apply last_None in Hl.
  - by rewrite lookup_insert_ne.
Qed.

(** X1. [listToRecord] files every item under its key: looking a key up
    gives the last item of the list that has this key, and nothing when no
    item has it. *)
Theorem listToRecord_lookup {T} (key : T → Z) (items : list T) k :
  listToRecord items key !! k = last (filter (λ item, key item = k) items).
Proof.
  unfold listToRecord. rewrite listToRecord_from.
  destruct (last _); [done|apply lookup_empty].
Qed.

(** ** Cookies *)

Lemma beforeFirst_app c a b :
  occurs c a = false → beforeFirst c (a +:+ String c b) = a.
Proof.
  induction a as [|x a IH]; intros Ha.
  - simpl. by rewrite Ascii.eqb_refl.
  - simpl in Ha. apply orb_false_iff in Ha as [Hx Ha].
    change (String x a +:+ String c b) with (String x (a +:+ String c b)).
    simpl. rewrite Hx. by rewrite IH.
Qed.

Lemma beforeFirst_none c a : occurs c a = false → beforeFirst c a = a.
Proof.
  induction a as [|x a IH]; intros Ha; [done|].
  simpl in Ha. apply orb_false_iff in Ha as [Hx Ha].
  simpl. rewrite Hx. by rewrite IH.
Qed.

Lemma substring_app a c b : substring (String.length a + 1) (a +:+ String c b) = b.
Proof.
  induction a as [|x a IH]; [done|].
  change (String x a +:+ String c b) with (String x (a +:+ String c b)).
  exact IH.
Qed.

Lemma substring_past a : substring (String.length a + 1) a = EmptyString.
Proof. induction a as [|x a IH]; [done|exact IH]. Qed.

(** X2. The last [Set-Cookie] header for a name decides its cookie. When
    [name] has no [=] and is not [__proto__], and [value] has no [;], the
    header [name=value], with or without [;attributes] after it, is read
    back as the value [value], and a header that is just [name] as the empty
    value. *)
Theorem parseCookies_reads_back res hs name :
  occurs "=" name = false →
  name ≠ "__proto__" →
  (∀ value attributes,
     occurs ";" value = false →
     Http.setCookie res
       = (hs ++ [name +:+ String "=" (value +:+ match attributes with
                                                | Some a => String ";" a
                                                | None => EmptyString
                                                end)])%list →
     parseCookies res !! name = Some value) ∧
  (Http.setCookie res = (hs ++ [name])%list →
   parseCookies res !! name = Some EmptyString).
Proof.
  intros Hname Hproto. split.
  - intros value attributes Hvalue Hres. rewrite parseCookies_lookup, Hres by done.
    set (h := name +:+ String "=" _).
    assert (cookieName h = name) as Hn by (unfold cookieName; by apply beforeFirst_app).
    rewrite filter_app, filter_cons, filter_nil.
    rewrite decide_True by done. rewrite last_snoc. simpl. f_equal.
    unfold cookieValue. rewrite Hn. unfold h. rewrite substring_app.
    destruct attributes as [a|].
    + by apply beforeFirst_app.
    + rewrite append_empty_r. by apply beforeFirst_none.
  - intros Hres. rewrite parseCookies_lookup, Hres by done.
    assert (cookieName name = name) as Hn by (unfold cookieName; by apply beforeFirst_none).
    rewrite filter_app, filter_cons, filter_nil.
    rewrite decide_True by done. rewrite last_snoc. simpl. f_equal.
    unfold cookieValue. by rewrite Hn, substring_past.
Qed.

(** X3. [parseCookies] invents no cookie: a name is absent from the record
    exactly when no [Set-Cookie] header carries it or the name is
    [__proto__], for which a header leaves no entry. A cookie of the record
    has the name and the value that one of the headers gives. *)
Theorem parseCookies_only_what_headers_name res name :
  (parseCookies res !! name = None ↔
     name = "__proto__" ∨ ∀ h, h ∈ Http.setCookie res → cookieName h ≠ name) ∧
  (∀ value, parseCookies res !! name = Some value →
     name ≠ "__proto__" ∧
     ∃ h, h ∈ Http.setCookie res ∧ cookieName h = name ∧ cookieValue h = value).
Proof.
  destruct (decide (name = "__proto__")) as [->|Hproto].
  { rewrite parseCookies_proto. split; [split; [by left|done]|done]. }
  assert ((name = "__proto__" ∨ ∀ h, h ∈ Http.setCookie res → cookieName h ≠ name)
          ↔ ∀ h, h ∈ Http.setCookie res → cookieName h ≠ name) as ->
    by (split; [intros [?|?]; done|by right]).
  assert (∀ value, (name ≠ "__proto__" ∧
                    ∃ h, h ∈ Http.setCookie res ∧ cookieName h = name ∧ cookieValue h = value)
                   ↔ ∃ h, h ∈ Http.setCookie res ∧ cookieName h = name ∧ cookieValue h = value)
    as Hsome by (intros value; split; [by intros [_ ?]|done]).
  setoid_rewrite Hsome. clear Hsome.
  rewrite parseCookies_lookup by done. split.
  - rewrite fmap_None, last_None. split.
    + intros Hf h Hh Hn. by apply (filter_nil_not_elem_of _ _ h Hf).
    + intros Hnone.
      destruct (filter _ (Http.setCookie res)) as [|h l] eqn:Hf; [done|].
      assert (h ∈ filter (λ h, cookieName h = name) (Http.setCookie res)) as Hin
        by (rewrite Hf; left).
      apply list_elem_of_filter in Hin as [Hn Hh]. by destruct (Hnone h Hh).
  - intros value Hv. apply fmap_Some in Hv as (h & Hlast & ->).
    apply last_Some_elem_of in Hlast. apply list_elem_of_filter in Hlast as [Hn Hh].
    by exists h.
Qed.

(** ** Requests *)

(** X4. [get] and [post] send exactly one request each, with [credentials:
    'include'] and [mode: 'cors']. It carries [Authorization: Bearer <access
    token>] exactly when the client holds a non-empty access token and
    [Cookie: refresh-token=<refresh token>] exactly when it holds a non-empty
    refresh token; [post] sends the body as JSON text, declared as
    [application/json]. *)
Theorem requests_carry_the_tokens url body σ :
  let bearer := (λ t, "Bearer " +:+ t) <$> whenTruthy (accessToken (client σ)) in
  let cookie := (λ t, "refresh-token=" +:+ t) <$> whenTruthy (refreshToken (client σ)) in
  (∃ req, sent (world (get url σ).2) = req :: sent (world σ) ∧
          Http.method req = "GET" ∧ Http.url req = url ∧ Http.body req = None ∧
          Http.credentials req = "include" ∧ Http.mode req = "cors" ∧
          Http.header "Authorization" (Http.headers req) = bearer ∧
          Http.header "Cookie" (Http.headers req) = cookie) ∧
  (∃ req, sent (world (post url body σ).2) = req :: sent (world σ) ∧
          Http.method req = "POST" ∧ Http.url req = url ∧
          Http.body req = Some (stringify body) ∧
          Http.credentials req = "include" ∧ Http.mode req = "cors" ∧
          Http.header "Content-Type" (Http.headers req) = Some "application/json" ∧
          Http.header "Authorization" (Http.headers req) = bearer ∧
          Http.header "Cookie" (Http.headers req) = cookie).
Proof.
  cbv zeta. split.
  - unfold get, bind, this, log, fetch, act, assign. simpl.
    destruct (server (world σ) _) as [reason|res]; simpl;
      [|destruct (Http.ok res); simpl];
      (eexists; split; [reflexivity|]; repeat split; unfold whenTruthy;
       destruct (accessToken (client σ)) as [[|? ?]|];
       destruct (refreshToken (client σ)) as [[|? ?]|]; reflexivity).
  - unfold post, postRaw, bind, this, log, fetch, act, assign. simpl.
    destruct (server (world σ) _) as [reason|res]; simpl;
      [|destruct (Http.ok res); simpl];
      (eexists; split; [reflexivity|]; repeat split; unfold whenTruthy;
       destruct (accessToken (client σ)) as [[|? ?]|];
       destruct (refreshToken (client σ)) as [[|? ?]|]; reflexivity).
Qed.

Lemma header_setHeader name value hs k :
  Http.header k (Http.setHeader name value hs)
  = if decide (name = k) then Some value else Http.header k hs.
Proof.
  induction hs as [|[n v] hs IH]; simpl.
  - destruct (String.eqb_spec name k); by case_decide.
  - destruct (String.eqb_spec n name) as [->|Hn]; simpl.
    + destruct (String.eqb_spec name k); by case_decide.
    + destruct (String.eqb_spec n k) as [->|Hk].
      * by rewrite decide_False by done.
      * exact IH.
Qed.

Lemma header_merged k (custom base : list (string * string)) :
  Http.header k (fold_left (λ hs kv, Http.setHeader (fst kv) (snd kv) hs) custom base)
  = match lastValue k custom with
    | Some v => Some v
    | None => Http.header k base
    end.
Proof.
  revert base. induction custom as [|[n v] custom IH]; intros base; [done|].
  simpl. rewrite IH, header_setHeader. unfold lastValue. rewrite filter_cons. simpl.
  destruct (decide (n = k)) as [->|Hn].
  - destruct (filter _ custom) as [|y l] eqn:Hf; [done|].
    rewrite last_cons_cons.
    destruct (last (y :: l)) eqn:Hl; [done|]. by apply last_None in Hl.
  - done.
Qed.

(** X5. A header the caller passes to [postRaw] replaces the header of
    that name that [postRaw] would send by itself (the last one passed
    wins); every other header is sent as it would be without the caller's. *)
Theorem postRaw_headers_override url body headers σ k :
  ∃ plain custom,
    lastSent (postRaw url body [] σ).2 = Some plain ∧
    lastSent (postRaw url body headers σ).2 = Some custom ∧
    Http.header k (Http.headers custom)
      = match lastValue k headers with
        | Some v => Some v
        | None => Http.header k (Http.headers plain)
        end.
Proof.
  unfold lastSent, postRaw, bind, this, log, fetch, act, assign. simpl.
  set (base := match whenTruthy (refreshToken (client σ)) with
               | Some token => _ | None => _ end).
  destruct (server (world σ) ({| Http.headers := base |} :: _)) as [?|res0]; simpl;
    [|destruct (Http.ok res0); simpl];
    (destruct (server (world σ) _) as [?|res1]; simpl;
       [|destruct (Http.ok res1); simpl]);
    (eexists; eexists; split; [reflexivity|]; split; [reflexivity|];
     simpl; apply header_merged).
Qed.

(** ** Fetching into the caches *)

Lemma get_sentSince url σ : sentSince σ (get url σ).2 = 1%nat.
Proof.
  unfold sentSince, get, bind, this, log, fetch, act, assign. simpl.
  destruct (server (world σ) _) as [reason|res]; simpl;
    [|destruct (Http.ok res); simpl]; lia.
Qed.

Lemma getJson_outcome {T} `{Shape T} url σ a :
  answers σ a →
  getJson (T:=T) url σ =
    (match a with
     | Rejected _ => Throw (failure a)
     | Resolved res =>
         if Http.ok res then
           match Http.json res ≫= cast with
           | Some d => Return d
           | None => Throw (OtherErr "SyntaxError" "Unexpected token in JSON")
           end
         else Throw (failure a)
     end, (get url σ).2).
Proof.
  intros Ha. destruct (get_outcome url σ a Ha) as [Hout _].
  unfold getJson, bind. destruct (get url σ) as [r σ'] eqn:Hget. simpl in Hout. subst r.
  destruct a as [reason|res]; [done|].
  destruct (Http.ok res); [|done].
  unfold json. by destruct (Http.json res ≫= cast).
Qed.

Lemma fetch_and_store url (store : Json → Biro3Client → Biro3Client) σ a :
  answers σ a →
  let r := (let* v := getJson url in assign (store v);; ret v) σ in
  sentSince σ r.2 = 1%nat ∧
  (failed a = true → r.1 = Throw (failure a) ∧ client r.2 = client σ) ∧
  (∀ res v, a = Resolved res → Http.ok res = true → Http.json res = Some (PJson v) →
     r.1 = Return v ∧
     client r.2 = store v (setRefreshToken (rotated res (refreshToken (client σ)))
                             (client σ))).
Proof.
  intros Ha. cbv zeta.
  set (run := (let* v := getJson url in assign (store v);; ret v) σ).
  pose proof (get_sentSince url σ) as Hsent. unfold sentSince in Hsent.
  pose proof (proj2 (get_outcome url σ a Ha)) as Hclient.
  assert (run = match (getJson (T:=Json) url σ).1 with
                | Return v =>
                    (Return v, {| client := store v (client (get url σ).2);
                                  world := world (get url σ).2 |})
                | Throw e => (Throw e, (get url σ).2)
                | Diverge => (Diverge, (get url σ).2)
                end) as ->.
  { unfold run, bind, assign. rewrite (getJson_outcome url σ a Ha). simpl.
    by destruct (match a with Rejected _ => _ | Resolved _ => _ end). }
  rewrite (getJson_outcome url σ a Ha). unfold sentSince. simpl.
  destruct a as [reason|res]; simpl.
  { split; [done|]. split; [done|]. by intros ? ? [=]. }
  destruct (Http.ok res) eqn:Hok; simpl.
  - destruct (Http.json res) as [d|] eqn:Hbody; simpl.
    + destruct d as [d|v'|v']; simpl.
      * split; [done|]. split; [done|].
        intros res' v [= <-] _ Hv. rewrite Hbody in Hv. simplify_eq.
        split; [done|]. by rewrite Hclient.
      * split; [done|]. split; [done|].
        intros res' v [= <-] _ Hv. rewrite Hbody in Hv. simplify_eq.
      * split; [done|]. split; [done|].
        intros res' v [= <-] _ Hv. rewrite Hbody in Hv. simplify_eq.
    + split; [done|]. split; [done|].
      intros res' v [= <-] _ Hv. rewrite Hbody in Hv. simplify_eq.
  - split; [done|]. split; [done|].
    intros res' v [= <-] Hok'. congruence.
Qed.

(** X6. [fetch<Entity>(id)] sends exactly one request, whatever the cache
    holds. When the request fails the error is thrown and the client is left
    as it was, its cache included; when the answer is 2xx with a JSON body,
    that value is returned and stored under [id], replacing what was there,
    and every other entry of the cache stays. *)
Theorem fetch_overwrites_the_cache kind id σ a :
  answers σ a →
  let r := fetchOf kind id σ in
  sentSince σ r.2 = 1%nat ∧
  (failed a = true → r.1 = Throw (failure a) ∧ client r.2 = client σ) ∧
  (∀ res v, a = Resolved res → Http.ok res = true → Http.json res = Some (PJson v) →
     r.1 = Return v ∧
     cacheOf kind (client r.2) = <[id := v]> (cacheOf kind (client σ))).
Proof.
  intros Ha. cbv zeta.
  destruct kind;
    [ destruct (fetch_and_store
        (api ("students/subject-instances/" +:+ ofNumber id +:+ "/assignments"))
        (λ v c, setAssignments (<[id := v]> (assignments c)) c) σ a Ha)
        as (Hsent & Hfail & Hok)
    | destruct (fetch_and_store (api ("students/assignments/" +:+ ofNumber id))
        (λ v c, setAssignmentDetails (<[id := v]> (assignmentDetails c)) c) σ a Ha)
        as (Hsent & Hfail & Hok)
    | destruct (fetch_and_store (api ("students/exercises/" +:+ ofNumber id))
        (λ v c, setExercises (<[id := v]> (exercises c)) c) σ a Ha)
        as (Hsent & Hfail & Hok)
    | destruct (fetch_and_store
        (api ("students/submissions/" +:+ ofNumber id +:+ "/status"))
        (λ v c, setSubmissionStatuses (<[id := v]> (submissionStatuses c)) c) σ a Ha)
        as (Hsent & Hfail & Hok) ];
    (split; [exact Hsent|]; split; [exact Hfail|];
     intros res v Hres Hres_ok Hbody;
     destruct (Hok res v Hres Hres_ok Hbody) as [Hreturned Hstored];
     split; [exact Hreturned|];
     match goal with
     | |- cacheOf ?K _ = _ => exact (eq_trans (f_equal (cacheOf K) Hstored) eq_refl)
     end).
Qed.

(** X7. [fetchSubjectInstances] replaces the whole record: after a 2xx
    answer that lists the instances [v], an id is cached exactly when an
    instance of [v] has it (the last such instance), whatever was cached
    before. An instance the server no longer lists is forgotten. *)
Theorem fetchSubjectInstances_replaces_the_record σ res v :
  answers σ (Resolved res) →
  Http.ok res = true →
  Http.json res = Some (PSubjectInstances v) →
  let r := fetchSubjectInstances σ in
  r.1 = Return v ∧
  ∀ k, subjectInstances (client r.2) ≫= (λ record, record !! k)
       = last (filter (λ i, subjectInstanceId i = k) v).
Proof.
  intros Ha Hok Hbody. cbv zeta.
  unfold fetchSubjectInstances, bind, assign.
  rewrite (getJson_outcome _ σ _ Ha), Hok, Hbody. simpl. split; [done|].
  intros k. unfold listToRecord. rewrite listToRecord_from.
  destruct (last _); [done|apply lookup_empty].
Qed.

Lemma getOf_miss kind id σ :
  nonNull (cacheOf kind (client σ) !! id) = None →
  getOf kind id σ = fetchOf kind id σ.
Proof.
  intros Hmiss. destruct kind; simpl in *;
    unfold getAssignments, getAssignment, getExercise, getSubmissionStatus, bind, this;
    simpl; by rewrite Hmiss.
Qed.

Lemma getOf_hit kind id σ v :
  cacheOf kind (client σ) !! id = Some v → v ≠ JNull →
  getOf kind id σ = (Return v, σ).
Proof.
  intros Hhit Hv.
  destruct (cached_entity_returned σ id) as (H1 & H2 & H3 & H4 & _).
  destruct kind; simpl in *; auto.
Qed.

Lemma fetchOf_stores kind id σ res v :
  answers σ (Resolved res) →
  Http.ok res = true →
  Http.json res = Some (PJson v) →
  (fetchOf kind id σ).1 = Return v ∧
  cacheOf kind (client (fetchOf kind id σ).2) = <[id := v]> (cacheOf kind (client σ)) ∧
  length (sent (world (fetchOf kind id σ).2)) = S (length (sent (world σ))) ∧
  server (world (fetchOf kind id σ).2) = server (world σ).
Proof.
  intros Ha Hok Hbody.
  assert (∀ url, length (sent (world (get url σ).2)) = S (length (sent (world σ))) ∧
                 server (world (get url σ).2) = server (world σ)) as Hworld.
  { intros url. unfold get, bind, this, log, fetch, act, assign. simpl.
    rewrite (Ha _), Hok. done. }
  destruct kind; simpl;
    unfold fetchAssignments, fetchAssignment, fetchExercise, fetchSubmissionStatus,
      bind, assign;
    rewrite (getJson_outcome _ σ _ Ha), Hok, Hbody; simpl;
    rewrite (proj2 (get_outcome _ σ _ Ha)), Hok;
    (split; [done|]; split; [done|]; apply Hworld).
Qed.

(** X8. With no usable entry cached, [get<Entity>(id)] called twice in a
    row sends one request: the first call fetches and stores the value, the
    second returns the same value and leaves the session as the first left
    it. *)
Theorem get_twice_fetches_once kind id σ res v :
  nonNull (cacheOf kind (client σ) !! id) = None →
  answers σ (Resolved res) →
  Http.ok res = true →
  Http.json res = Some (PJson v) →
  v ≠ JNull →
  let first := getOf kind id σ in
  let second := getOf kind id first.2 in
  first.1 = Return v ∧ second = (Return v, first.2) ∧ sentSince σ second.2 = 1%nat.
Proof.
  intros Hmiss Ha Hok Hbody Hv. cbv zeta.
  rewrite (getOf_miss _ _ _ Hmiss).
  destruct (fetchOf_stores kind id σ res v Ha Hok Hbody) as (Hret & Hcache & Hsent & _).
  split; [done|].
  assert (getOf kind id (fetchOf kind id σ).2 = (Return v, (fetchOf kind id σ).2)) as ->.
  { apply getOf_hit; [|done]. by rewrite Hcache, lookup_insert_eq. }
  split; [done|]. unfold sentSince. simpl. lia.
Qed.

(** X9. A JSON [null] is stored like any value but never served: when the
    server answers [null], every call of [get<Entity>(id)] sends a request
    again, so [n] calls in a row send [n] requests. *)
Theorem null_entity_is_fetched_every_time kind id σ res n :
  nonNull (cacheOf kind (client σ) !! id) = None →
  alwaysAnswers σ (Resolved res) →
  Http.ok res = true →
  Http.json res = Some (PJson JNull) →
  sentSince σ (repeatedly (getOf kind id) n σ) = n ∧
  cacheOf kind (client (repeatedly (getOf kind id) (S n) σ)) !! id = Some JNull.
Proof.
  intros Hmiss Ha Hok Hbody.
  assert (∀ n, let s := repeatedly (getOf kind id) n σ in
               nonNull (cacheOf kind (client s) !! id) = None ∧
               server (world s) = server (world σ) ∧
               length (sent (world s)) = (length (sent (world σ)) + n)%nat) as Hinv.
  { clear n. induction n as [|n (IHmiss & IHserver & IHsent)]; simpl.
    { split; [done|]. split; [done|]. lia. }
    set (s := repeatedly (getOf kind id) n σ) in *.
    change (repeatedly (getOf kind id) (S n) σ) with (getOf kind id s).2.
    rewrite (getOf_miss _ _ _ IHmiss).
    assert (answers s (Resolved res)) as Has.
    { intros req. rewrite IHserver. apply Ha. }
    destruct (fetchOf_stores kind id s res JNull Has Hok Hbody)
      as (_ & Hcache & Hsent & Hserver).
    rewrite Hcache, lookup_insert_eq, Hserver, Hsent. simpl.
    split; [done|]. split; [done|]. lia. }
  destruct (Hinv n) as (Hn & Hs & Hl). cbv zeta in *. split.
  - unfold sentSince. lia.
  - set (s := repeatedly (getOf kind id) n σ) in *.
    change (repeatedly (getOf kind id) (S n) σ) with (getOf kind id s).2.
    rewrite (getOf_miss _ _ _ Hn).
    assert (answers s (Resolved res)) as Has.
    { intros req. rewrite Hs. apply Ha. }
    destruct (fetchOf_stores kind id s res JNull Has Hok Hbody) as (_ & Hcache & _).
    by rewrite Hcache, lookup_insert_eq.
Qed.

Lemma setRefreshToken_same c : setRefreshToken (refreshToken c) c = c.
Proof. by destruct c. Qed.

(** X10. A request changes nothing in the client but the refresh token:
    after [get], [postRaw] or [submitFile], whatever the server answers, the
    username, the password, the access token and every cache are what they
    were. In particular [submitFile] does not drop the cached exercise. *)
Theorem requests_touch_only_the_refresh_token σ url body headers exerciseId filename
    filecontent :
  sameButRefreshToken (client σ) (client (get url σ).2) ∧
  sameButRefreshToken (client σ) (client (postRaw url body headers σ).2) ∧
  sameButRefreshToken (client σ)
    (client (submitFile exerciseId filename filecontent σ).2).
Proof.
  unfold sameButRefreshToken.
  assert (∀ url body headers,
            client (postRaw url body headers σ).2
            = setRefreshToken (refreshToken (client (postRaw url body headers σ).2))
                (client σ)) as Hpost.
  { intros u b h. unfold postRaw, bind, this, log, fetch, act, assign. simpl.
    destruct (server (world σ) _) as [reason|res]; simpl;
      [|destruct (Http.ok res); simpl]; by rewrite ?setRefreshToken_same. }
  split; [|split].
  - unfold get, bind, this, log, fetch, act, assign. simpl.
    destruct (server (world σ) _) as [reason|res]; simpl;
      [|destruct (Http.ok res); simpl]; by rewrite ?setRefreshToken_same.
  - apply Hpost.
  - unfold submitFile. cbv zeta. unfold bind.
    match goal with
    | |- context [postRaw ?u ?b ?h σ] =>
        pose proof (Hpost u b h) as Hp; destruct (postRaw u b h σ) as [[r|e|] σ']
    end; simpl in *; [|done|done].
    unfold json. by destruct (Http.json r ≫= cast).
Qed.

(** ** Signing in and refreshing *)

Lemma postRaw_world url body headers σ :
  let w := world σ in
  let w' := world (postRaw url body headers σ).2 in
  server w' = server w ∧ typed w' = typed w ∧ asked w' = asked w ∧
  chosen w' = chosen w ∧ shown w' = shown w ∧
  length (sent w') = S (length (sent w)) ∧
  length (logged w') = S (length (logged w)).
Proof.
  cbv zeta. unfold postRaw, bind, this, log, fetch, act, assign. simpl.
  destruct (server (world σ) _) as [reason|res]; simpl;
    [|destruct (Http.ok res); simpl]; rewrite length_app; simpl; repeat split; lia.
Qed.

Lemma fetchAccessToken_world u p σ :
  let w := world σ in
  let w' := world (fetchAccessToken u p σ).2 in
  server w' = server w ∧ typed w' = typed w ∧ asked w' = asked w ∧
  chosen w' = chosen w ∧ shown w' = shown w ∧
  length (sent w') = S (length (sent w)) ∧
  length (logged w') = S (length (logged w)).
Proof.
  cbv zeta. rewrite (proj1 (fetchAccessToken_after_post u p σ)).
  apply (postRaw_world _ _ []
           {| client := setAccessToken None (setRefreshToken None (client σ));
              world := world σ |}).
Qed.

Lemma fetchAccessToken_failed u p σ a :
  answers σ a → failed a = true →
  (fetchAccessToken u p σ).1 = Throw (failure a).
Proof.
  intros Ha Hfailed.
  pose proof (fetchAccessToken_after_post u p σ) as [_ Hrest]. simpl in Hrest.
  set (σ0 := {| client := setAccessToken None (setRefreshToken None (client σ));
                world := world σ |}) in *.
  assert (answers σ0 a) as Ha0 by exact Ha.
  destruct (postRaw_outcome (api "auth/login/student")
              (stringify (JObject [("username", JString u); ("password", JString p)]))
              [] σ0 a Ha0) as [Hout _].
  fold (post (api "auth/login/student")
          (JObject [("username", JString u); ("password", JString p)])) in Hout.
  rewrite Hout in Hrest.
  destruct a as [reason|res]; simpl in *; [by rewrite Hrest|].
  destruct (Http.ok res); [done|]. by rewrite Hrest.
Qed.

(** X11. [refreshAccessToken] forgets the access token before it asks for
    a new one: its request never carries an [Authorization] header, and it
    carries the refresh token as a cookie when there is one. A failed
    refresh therefore leaves the client without access token; the refresh
    token, the username and the password are kept. A 2xx answer with an
    [accessToken] makes that the access token. *)
Theorem refreshAccessToken_effects σ a :
  answers σ a →
  let r := refreshAccessToken σ in
  (∃ req, lastSent r.2 = Some req ∧
          Http.url req = api "auth/refresh-token" ∧
          Http.header "Authorization" (Http.headers req) = None ∧
          Http.header "Cookie" (Http.headers req)
            = (λ t, "refresh-token=" +:+ t) <$> whenTruthy (refreshToken (client σ))) ∧
  username (client r.2) = username (client σ) ∧
  password (client r.2) = password (client σ) ∧
  (failed a = true →
     r.1 = Throw (failure a) ∧
     accessToken (client r.2) = None ∧
     refreshToken (client r.2) = refreshToken (client σ)) ∧
  (∀ res fs t, a = Resolved res → Http.ok res = true →
     Http.json res = Some (PJson (JObject fs)) →
     field "accessToken" fs = Some (JString t) →
     r.1 = Return tt ∧
     accessToken (client r.2) = Some t ∧
     refreshToken (client r.2) = rotated res (refreshToken (client σ))).
Proof.
  intros Ha. cbv zeta.
  unfold refreshAccessToken, post, postRaw, lastSent, bind, this, log, fetch, act, assign.
  simpl. rewrite (Ha _).
  destruct a as [reason|res]; simpl.
  { split; [eexists; split; [reflexivity|]; repeat split;
            unfold whenTruthy; destruct (refreshToken (client σ)) as [[|? ?]|]; reflexivity|].
    split; [done|]. split; [done|]. split; [done|]. by intros ? ? ? [=]. }
  destruct (Http.ok res) eqn:Hok; simpl.
  - unfold json, accessTokenOf.
    destruct (Http.json res) as [d|] eqn:Hbody; simpl.
    + destruct d as [[]| |]; simpl;
        (split; [eexists; split; [reflexivity|]; repeat split;
                 unfold whenTruthy; destruct (refreshToken (client σ)) as [[|? ?]|];
                 reflexivity|];
         split; [done|]; split; [done|]; split; [done|];
         intros res' fs' tok [= <-] _ Hfs Hfield; simplify_eq).
      rewrite Hfield. simpl. by rewrite parseCookies_refresh_token.
    + split; [eexists; split; [reflexivity|]; repeat split;
              unfold whenTruthy; destruct (refreshToken (client σ)) as [[|? ?]|];
              reflexivity|].
      split; [done|]. split; [done|]. split; [done|].
      intros res' fs' tok [= <-] _ Hfs. simplify_eq.
  - split; [eexists; split; [reflexivity|]; repeat split;
            unfold whenTruthy; destruct (refreshToken (client σ)) as [[|? ?]|]; reflexivity|].
    split; [done|]. split; [done|]. split; [done|].
    intros res' fs' tok [= <-] Hok'. congruence.
Qed.


Lemma login_turn n σ :
  login (S n) σ =
    match fetchAccessToken (typedUsername σ) (typedPassword σ) (prompted σ) with
    | (Throw error, s) =>
        match error with
        | ApiErr e =>
            match responseMessage e (withLog [(Level.error, describe error)] s) with
            | (Return msg, s1) =>
                if decide (chosen (world s1) (length (shown (world s1))) = Some Ujra)
                then login n (withShown msg s1)
                else (Throw error, withShown msg s1)
            | (Throw e', s1) => (Throw e', s1)
            | (Diverge, s1) => (Diverge, s1)
            end
        | OtherErr _ _ => (Throw error, withLog [(Level.error, describe error)] s)
        end
    | r => r
    end.
Proof.
  simpl. unfold bind at 1. unfold showInputBox at 1. unfold act at 1. simpl.
  unfold bind at 1. unfold showInputBox at 1. unfold act at 1. simpl.
  unfold tryCatch.
  change {| client := client σ; world := _ |} with (prompted σ).
  fold (typedUsername σ). fold (typedPassword σ).
  destruct (fetchAccessToken _ _ (prompted σ)) as [[[]|error|] s]; [done| |done].
  unfold bind at 1. rewrite log_eq.
  destruct error as [e|name msg]; [|done].
  unfold bind at 1.
  destruct (responseMessage e _) as [[msg|e'|] s1]; [|done|done].
  unfold bind at 1. unfold showErrorMessage, act. simpl.
  fold (withShown msg s1). by destruct (decide _).
Qed.

Lemma prompted_answers σ a : answers σ a → answers (prompted σ) a.
Proof. intros Ha req. apply Ha. Qed.

Lemma responseMessage_state e σ : (responseMessage e σ).2 = σ.
Proof. unfold responseMessage. by repeat case_match. Qed.

(** X13. When the login request does not get through, [login] gives up at
    once: the transport error is rethrown after one attempt and no error
    message is shown, so the user is not asked whether to try again. *)
Theorem login_rethrows_transport_errors n σ reason :
  answers σ (Rejected reason) →
  let r := login (S n) σ in
  r.1 = Throw (OtherErr "TypeError" reason) ∧
  shown (world r.2) = shown (world σ) ∧
  asked (world r.2) = S (S (asked (world σ))) ∧
  sentSince σ r.2 = 1%nat.
Proof.
  intros Ha. cbv zeta. rewrite login_turn.
  pose proof (fetchAccessToken_failed (typedUsername σ) (typedPassword σ) (prompted σ) _
                (prompted_answers _ _ Ha) eq_refl) as Hout.
  pose proof (fetchAccessToken_world (typedUsername σ) (typedPassword σ) (prompted σ))
    as (_ & _ & Hasked & _ & Hshown & Hsent & _).
  destruct (fetchAccessToken _ _ (prompted σ)) as [r s]. simpl in *. subst r.
  unfold sentSince. simpl. rewrite Hshown, Hasked, Hsent. repeat split; lia.
Qed.

(** X14. When the login is turned down and the user does not choose
    [Újra], [login] makes that one attempt: it shows the message of the
    answer and rethrows the [ApiError]. *)
Theorem login_gives_up_when_declined n σ res msg :
  answers σ (Resolved res) →
  Http.ok res = false →
  shownFor (fromResponse res) msg →
  chosen (world σ) (length (shown (world σ))) ≠ Some Ujra →
  let r := login (S n) σ in
  r.1 = Throw (ApiErr (fromResponse res)) ∧
  shown (world r.2) = (shown (world σ) ++ [msg])%list ∧
  sentSince σ r.2 = 1%nat.
Proof.
  intros Ha Hok Hmsg Hchoice. cbv zeta. rewrite login_turn.
  assert (failed (Resolved res) = true) as Hfailed by (simpl; by rewrite Hok).
  pose proof (fetchAccessToken_failed (typedUsername σ) (typedPassword σ) (prompted σ) _
                (prompted_answers _ _ Ha) Hfailed) as Hout.
  pose proof (fetchAccessToken_world (typedUsername σ) (typedPassword σ) (prompted σ))
    as (_ & _ & _ & Hchosen & Hshown & Hsent & _).
  destruct (fetchAccessToken _ _ (prompted σ)) as [r s]. simpl in *. subst r.
  rewrite (Hmsg _). simpl. rewrite Hchosen, Hshown.
  rewrite decide_False by done. unfold sentSince. simpl. rewrite Hshown, Hsent.
  repeat split; lia.
Qed.

(** X15. When the login is turned down by an answer that is declared
    [application/json] and whose body is not JSON, or is [null], [login]
    does not rethrow the [ApiError]: reading the message of the answer
    throws a [TypeError], which is what the caller gets, and no error
    message is shown. *)
Theorem login_masks_errors_without_body n σ res :
  answers σ (Resolved res) →
  Http.ok res = false →
  Http.contentType res = Some "application/json" →
  Http.json res = None ∨ Http.json res = Some (PJson JNull) →
  let r := login (S n) σ in
  r.1 = Throw (OtherErr "TypeError" "Cannot read properties of null") ∧
  shown (world r.2) = shown (world σ) ∧
  sentSince σ r.2 = 1%nat.
Proof.
  intros Ha Hok Htype Hbody. cbv zeta. rewrite login_turn.
  assert (failed (Resolved res) = true) as Hfailed by (simpl; by rewrite Hok).
  pose proof (fetchAccessToken_failed (typedUsername σ) (typedPassword σ) (prompted σ) _
                (prompted_answers _ _ Ha) Hfailed) as Hout.
  pose proof (fetchAccessToken_world (typedUsername σ) (typedPassword σ) (prompted σ))
    as (_ & _ & _ & _ & Hshown & Hsent & _).
  destruct (fetchAccessToken _ _ (prompted σ)) as [r s]. simpl in *. subst r.
  assert (response (fromResponse res) = None
          ∨ response (fromResponse res) = Some (DJson (PJson JNull))) as Hresponse.
  { unfold fromResponse. rewrite Htype. rewrite decide_True by done.
    destruct Hbody as [-> | ->]; simpl; auto. }
  unfold responseMessage.
  destruct Hresponse as [-> | ->]; unfold sentSince; simpl; rewrite Hshown, Hsent;
    repeat split; lia.
Qed.

(** The turns of [login] against a server that turns every login down
    and a user who always asks for another attempt. *)
Lemma login_turns σ res msg :
  alwaysAnswers σ (Resolved res) →
  Http.ok res = false →
  shownFor (fromResponse res) msg →
  alwaysRetries σ →
  ∀ n s, server (world s) = server (world σ) →
         chosen (world s) = chosen (world σ) →
         (login n s).1 = Diverge ∧
         length (sent (world (login n s).2)) = (length (sent (world s)) + n)%nat ∧
         asked (world (login n s).2) = (asked (world s) + 2 * n)%nat.
Proof.
  intros Ha Hok Hmsg Hretry.
  assert (failed (Resolved res) = true) as Hfailed by (simpl; by rewrite Hok).
  induction n as [|n IH]; intros s Hserver Hchosen.
  { simpl. split; [done|lia]. }
  rewrite login_turn.
  assert (answers (prompted s) (Resolved res)) as Has.
  { intros req. simpl. rewrite Hserver. apply Ha. }
  pose proof (fetchAccessToken_failed (typedUsername s) (typedPassword s) (prompted s) _
                Has Hfailed) as Hout.
  pose proof (fetchAccessToken_world (typedUsername s) (typedPassword s) (prompted s))
    as (Hserver' & _ & Hasked & Hchosen' & _ & Hsent & _).
  destruct (fetchAccessToken _ _ (prompted s)) as [r s']. simpl in *. subst r.
  rewrite (Hmsg _). simpl. rewrite Hchosen', Hchosen, (Hretry _).
  rewrite decide_True by done.
  destruct (IH (withShown msg (withLog [(Level.error,
                  describe (ApiErr (fromResponse res)))] s'))) as (Hd & Hl & Hk).
  { simpl. by rewrite Hserver'. }
  { simpl. by rewrite Hchosen'. }
  split; [exact Hd|]. split.
  - etrans; [exact Hl|]. simpl. rewrite Hsent. lia.
  - etrans; [exact Hk|]. simpl. rewrite Hasked. lia.
Qed.

(** X16. Nothing bounds the attempts of [login]: as long as the server
    turns the login down and the user chooses [Újra], it asks and sends
    again. However many turns of its loop are run, it has not come back, and
    it has asked for a username and a password and sent one login request
    per turn. *)
Theorem login_retries_without_bound σ res msg :
  alwaysAnswers σ (Resolved res) →
  Http.ok res = false →
  shownFor (fromResponse res) msg →
  alwaysRetries σ →
  ∀ n, (login n σ).1 = Diverge ∧ sentSince σ (login n σ).2 = n ∧
       asked (world (login n σ).2) = (asked (world σ) + 2 * n)%nat.
Proof.
  intros Ha Hok Hmsg Hretry n.
  destruct (login_turns σ res msg Ha Hok Hmsg Hretry n σ eq_refl eq_refl) as (Hd & Hl & Hk).
  split; [exact Hd|]. split; [unfold sentSince; lia|exact Hk].
Qed.

(** C9 as stated fails: nobody has signed in, the server turns every login
    down and the user asks for another attempt each time. The wrapped
    operation and the two recovery calls return or throw whenever they are
    invoked, and [withReauth] has not come back however long it runs: it
    does not get beyond [login], which it awaits before its loop. *)
Lemma withReauth_waits_for_login :
  terminates (getExercise 5) ∧
  terminates refreshAccessToken ∧
  (∀ u p, terminates (fetchAccessToken u p)) ∧
  ∀ loginFuel fuel,
    let r := withReauth loginFuel fuel (getExercise 5) (Cases.insisting, []) in
    r.1 = Diverge ∧ r.2.2 = [CallLogin] ∧ sentSince Cases.insisting r.2.1 = loginFuel.
Proof.
  split; [apply terminates_getExercise|].
  split; [apply terminates_refreshAccessToken|].
  split; [apply terminates_fetchAccessToken|].
  intros loginFuel fuel. cbv zeta.
  unfold withReauth, authenticateFirst. unfold bind at 1 2 3. unfold lift at 1, this.
  change (negb (truthy (username (client (Cases.insisting, []).1)))
          || negb (truthy (password (client (Cases.insisting, []).1)))) with true.
  cbv iota. unfold bind, lift, called, log, act. simpl.
  set (s := {| client := _; world := _ |}).
  destruct (login_turns Cases.insisting Scenario.unauthorized
              (Some (JString "Token expired"))
              (λ _, eq_refl) eq_refl (λ _, eq_refl) (λ _, eq_refl)
              loginFuel s eq_refl eq_refl) as (Hd & Hl & _).
  destruct (login loginFuel s) as [r s']. simpl in *. subst r. simpl.
  split; [done|]. split; [done|]. unfold sentSince. simpl. lia.
Qed.

Lemma fetchAccessToken_accepted u p σ res fs :
  answers σ (Resolved res) →
  Http.ok res = true →
  Http.json res = Some (PJson (JObject fs)) →
  (fetchAccessToken u p σ).1 = Return tt ∧
  username (client (fetchAccessToken u p σ).2) = Some u ∧
  password (client (fetchAccessToken u p σ).2) = Some p ∧
  accessToken (client (fetchAccessToken u p σ).2) = field "accessToken" fs ≫= heldAs ∧
  ∃ req, lastSent (fetchAccessToken u p σ).2 = Some req ∧
         Http.body req
           = Some (stringify (JObject [("username", JString u); ("password", JString p)])).
Proof.
  intros Ha Hok Hbody.
  unfold fetchAccessToken, post, postRaw, lastSent, bind, this, log, fetch, act, assign. simpl.
  rewrite (Ha _), Hok. simpl.
  unfold json, accessTokenOf. rewrite Hbody. simpl.
  split; [done|]. split; [done|]. split; [done|]. split; [done|]. by eexists.
Qed.

(** X17. When the login is accepted, [login] comes back after one attempt
    and without an error message. What it sends and stores is what the user
    typed, an input box that was dismissed counting as the empty string. *)
Theorem login_signs_in_with_what_was_typed n σ res fs :
  answers σ (Resolved res) →
  Http.ok res = true →
  Http.json res = Some (PJson (JObject fs)) →
  let r := login (S n) σ in
  r.1 = Return tt ∧
  username (client r.2) = Some (typedUsername σ) ∧
  password (client r.2) = Some (typedPassword σ) ∧
  (∃ req, lastSent r.2 = Some req ∧
          Http.body req
            = Some (stringify (JObject [("username", JString (typedUsername σ));
                                        ("password", JString (typedPassword σ))]))) ∧
  shown (world r.2) = shown (world σ) ∧
  sentSince σ r.2 = 1%nat.
Proof.
  intros Ha Hok Hbody. cbv zeta. rewrite login_turn.
  pose proof (fetchAccessToken_accepted (typedUsername σ) (typedPassword σ) (prompted σ) _ _
                (prompted_answers _ _ Ha) Hok Hbody) as (Hout & Hu & Hp & _ & Hreq).
  pose proof (fetchAccessToken_world (typedUsername σ) (typedPassword σ) (prompted σ))
    as (_ & _ & _ & _ & Hshown & Hsent & _).
  destruct (fetchAccessToken _ _ (prompted σ)) as [r s]. simpl in *. subst r.
  unfold sentSince. simpl. rewrite Hshown, Hsent.
  split; [done|]. split; [done|]. split; [done|]. split; [done|]. split; [done|lia].
Qed.

(** X18. When the wrapped operation fails with a 401 on the initial
    attempt and again after the refresh, and succeeds once the client has
    logged in again, [withReauth] returns the result of the third
    invocation, having called [refreshAccessToken()] and then
    [fetchAccessToken] with the stored username and password. *)
Theorem withReauth_logs_in_again
    {T} loginFuel n (fetch : Task T) s σ0 calls e1 σ1 e2 σ2 u p v σ3 :
  authenticateFirst loginFuel s = (Return tt, (σ0, calls)) →
  fetch σ0 = (Throw (ApiErr e1), σ1) → status e1 = 401 →
  fetch (recoverByRefresh σ1).2 = (Throw (ApiErr e2), σ2) → status e2 = 401 →
  credentials (client σ2) = Some (u, p) →
  fetch (recoverByLogin u p σ2).2 = (Return v, σ3) →
  withReauth loginFuel (3 + n) fetch s =
    (Return v,
     (σ3, (calls ++ [CallFetch; CallRefreshAccessToken; CallFetch;
                     CallFetchAccessToken u p; CallFetch])%list)).
Proof.
  intros Hpre H1 He1 H2 He2 Hc H3.
  rewrite (withReauth_loop _ _ _ _ _ _ Hpre).
  change (3 + n)%nat with (S (S (S n))).
  rewrite retry_turn, H1, (catchBlock_refresh _ _ _ _ He1).
  rewrite retry_turn, H2, (catchBlock_login _ _ _ _ _ _ He2 Hc).
  rewrite retry_turn, H3. by rewrite <- !app_assoc.
Qed.

(** X19. When the operation fails with a 401 on the initial attempt and
    again after the refresh, and the client then holds no usable username
    and password, [withReauth] does not log in again: it logs the error [No
    saved username or password (this should never happen)] and rethrows the
    second 401, after two invocations and one recovery call. *)
Theorem withReauth_without_credentials
    {T} loginFuel n (fetch : Task T) s σ0 calls e1 σ1 e2 σ2 :
  authenticateFirst loginFuel s = (Return tt, (σ0, calls)) →
  fetch σ0 = (Throw (ApiErr e1), σ1) → status e1 = 401 →
  fetch (recoverByRefresh σ1).2 = (Throw (ApiErr e2), σ2) → status e2 = 401 →
  credentials (client σ2) = None →
  withReauth loginFuel (2 + n) fetch s =
    (Throw (ApiErr e2),
     (withLog [(Level.error, "No saved username or password (this should never happen)")] σ2,
      (calls ++ [CallFetch; CallRefreshAccessToken; CallFetch])%list)).
Proof.
  intros Hpre H1 He1 H2 He2 Hc.
  rewrite (withReauth_loop _ _ _ _ _ _ Hpre).
  change (2 + n)%nat with (S (S n)).
  rewrite retry_turn, H1, (catchBlock_refresh _ _ _ _ He1).
  rewrite retry_turn, H2, (catchBlock_no_credentials _ _ _ _ He2 Hc).
  by rewrite <- !app_assoc.
Qed.

(** X20. Whatever the wrapped operation does, the calls of the loop of
    [withReauth] come in one of three orders: the operation alone; the
    operation, [refreshAccessToken()] and the operation; or these followed
    by [fetchAccessToken] and the operation. So each recovery is tried at
    most once, the refresh always before the login, and the operation is
    invoked once more after every recovery. *)
Theorem withReauth_call_order {T} loginFuel n (fetch : Task T) s σ0 calls :
  authenticateFirst loginFuel s = (Return tt, (σ0, calls)) →
  let record := (withReauth loginFuel (3 + n) fetch s).2.2 in
  record = (calls ++ [CallFetch])%list
  ∨ record = (calls ++ [CallFetch; CallRefreshAccessToken; CallFetch])%list
  ∨ ∃ u p, record = (calls ++ [CallFetch; CallRefreshAccessToken; CallFetch;
                               CallFetchAccessToken u p; CallFetch])%list.
Proof.
  intros Hpre. cbv zeta.
  rewrite (withReauth_loop _ _ _ _ _ _ Hpre).
  change (3 + n)%nat with (S (S (S n))).
  rewrite retry_turn.
  destruct (fetch σ0) as [[v1|[e1|name1 msg1]|] σ1]; [by left| |by left|by left].
  destruct (decide (status e1 = 401)) as [He1|He1];
    [|rewrite (catchBlock_status _ _ _ _ _ He1); by left].
  rewrite (catchBlock_refresh _ _ _ _ He1), retry_turn.
  destruct (fetch (recoverByRefresh σ1).2) as [[v2|[e2|name2 msg2]|] σ2];
    rewrite <- ?app_assoc; [by right; left| |by right; left|by right; left].
  destruct (decide (status e2 = 401)) as [He2|He2];
    [|rewrite (catchBlock_status _ _ _ _ _ He2); by right; left].
  destruct (credentials (client σ2)) as [[u p]|] eqn:Hc;
    [|rewrite (catchBlock_no_credentials _ _ _ _ He2 Hc); by right; left].
  rewrite (catchBlock_login _ _ _ _ _ _ He2 Hc), retry_turn.
  right; right. exists u, p.
  destruct (fetch (recoverByLogin u p σ2).2) as [[v3|[e3|name3 msg3]|] σ3];
    rewrite <- ?app_assoc; [done| |done|done].
  destruct (decide (status e3 = 401)) as [He3|He3].
  - by rewrite (catchBlock_exhausted _ _ _ _ He3) by lia.
  - by rewrite (catchBlock_status _ _ _ _ _ He3).
Qed.

(** X21. With a username and a password and without access token,
    [withReauth] logs in before anything else. When that login fails, its
    error is what [withReauth] throws, and the wrapped operation is not
    invoked at all. *)
Theorem withReauth_fails_when_first_login_fails
    {T} loginFuel fuel (fetch : Task T) σ calls u p a :
  credentials (client σ) = Some (u, p) →
  truthy (accessToken (client σ)) = false →
  answers σ a → failed a = true →
  let r := withReauth loginFuel fuel fetch (σ, calls) in
  r.1 = Throw (failure a) ∧
  r.2.2 = (calls ++ [CallFetchAccessToken u p])%list ∧
  sentSince σ r.2.1 = 1%nat.
Proof.
  intros Hc Ht Ha Hfailed. cbv zeta.
  unfold withReauth, authenticateFirst, bind, lift, this, called. simpl.
  assert (truthy (username (client σ)) = true ∧ truthy (password (client σ)) = true)
    as [Hu Hp].
  { unfold credentials, whenTruthy in Hc.
    destruct (truthy (username (client σ))), (truthy (password (client σ)));
      try done; destruct (username (client σ)); done. }
  rewrite Hu, Hp. simpl. rewrite Hc, Ht. simpl.
  set (σ' := {| client := client σ; world := _ |}).
  assert (answers σ' a) as Ha' by exact Ha.
  pose proof (fetchAccessToken_failed u p σ' a Ha' Hfailed) as Hout.
  pose proof (fetchAccessToken_world u p σ') as (_ & _ & _ & _ & _ & Hsent & _).
  destruct (fetchAccessToken u p σ') as [r s']. simpl in *. subst r. simpl.
  unfold sentSince. rewrite Hsent. repeat split; lia.
Qed.

(** ** Time labels *)

Lemma pretty_N_char_code d : (d < 10)%N → code (pretty_N_char d) = 48 + Z.of_N d.
Proof.
  intros Hd.
  assert (d = 0 ∨ d = 1 ∨ d = 2 ∨ d = 3 ∨ d = 4 ∨ d = 5 ∨ d = 6 ∨ d = 7 ∨ d = 8 ∨ d = 9)%N
    as Hcases by lia.
  repeat (destruct Hcases as [->|Hcases]; [reflexivity|]). by subst.
Qed.

Lemma digitValue_decimal c d :
  0 ≤ d < 10 → code c = 48 + d → TimeLabels.digitValue 10 c = Some d.
Proof.
  intros Hd Hc. unfold TimeLabels.digitValue, hexValue. rewrite Hc.
  assert ((48 <=? 48 + d) && (48 + d <=? 57) = true) as -> by (apply andb_true_iff; lia).
  assert ((48 + d - 48 <? 10) = true) as -> by lia. f_equal. lia.
Qed.

(** The digits [`${n}`] is made of are read back as [n]. *)
Lemma readDigits_pretty x : ∀ s acc,
  (0 < x)%N → default 0 acc = 0 →
  TimeLabels.readDigits 10 acc (pretty_N_go x s)
  = TimeLabels.readDigits 10 (Some (Z.of_N x)) s.
Proof.
  induction (N.lt_wf_0 x) as [x _ IH]; intros s acc Hx Hacc.
  rewrite pretty_N_go_step by done.
  assert (x `mod` 10 < 10)%N as Hmod by (apply N.mod_lt; lia).
  pose proof (N.div_mod x 10 ltac:(lia)) as Hdiv.
  assert (x `div` 10 < x)%N as Hlt by (apply N.div_lt; lia).
  set (m := (x `mod` 10)%N) in *. set (q := (x `div` 10)%N) in *.
  assert (TimeLabels.digitValue 10 (pretty_N_char m) = Some (Z.of_N m))
    as Hd by (apply digitValue_decimal; [lia|by apply pretty_N_char_code]).
  destruct (decide (q = 0)%N) as [Hz|Hnz].
  - rewrite Hz, pretty_N_go_0. simpl. rewrite Hd, Hacc. do 2 f_equal. lia.
  - rewrite IH; [|done|lia|done]. simpl. rewrite Hd. simpl.
    do 2 f_equal. lia.
Qed.

(** [`${n}`] starts with a digit, and goes on with one. *)
Lemma pretty_N_go_head x : ∀ s,
  (0 < x)%N →
  (s = EmptyString ∨ ∃ c r, s = String c r ∧ 48 ≤ code c ≤ 57) →
  ∃ c r, pretty_N_go x s = String c r ∧ 48 ≤ code c ≤ 57
         ∧ (r = EmptyString ∨ ∃ c' r', r = String c' r' ∧ 48 ≤ code c' ≤ 57).
Proof.
  induction (N.lt_wf_0 x) as [x _ IH]; intros s Hx Hs.
  rewrite pretty_N_go_step by done.
  assert (x `mod` 10 < 10)%N as Hmod by (apply N.mod_lt; lia).
  pose proof (pretty_N_char_code _ Hmod) as Hc.
  assert (x `div` 10 < x)%N as Hlt by (apply N.div_lt; lia).
  set (m := (x `mod` 10)%N) in *. set (q := (x `div` 10)%N) in *.
  destruct (decide (q = 0)%N) as [Hz|Hnz].
  - rewrite Hz, pretty_N_go_0. eexists _, _. split; [done|]. split; [lia|done].
  - apply IH; [done|lia|]. right. eexists _, _. split; [done|lia].
Qed.

Lemma parseInt_digits c r :
  48 ≤ code c ≤ 57 →
  (r = EmptyString ∨ ∃ c' r', r = String c' r' ∧ 48 ≤ code c' ≤ 57) →
  TimeLabels.parseInt (String c r)
  = (λ n, 1 * n) <$> TimeLabels.readDigits 10 None (String c r).
Proof.
  intros Hc Hr. unfold TimeLabels.parseInt. simpl TimeLabels.trimStart.
  assert (TimeLabels.isStrWs c = false) as ->.
  { unfold TimeLabels.isStrWs. repeat (apply orb_false_iff; split); lia. }
  assert ((code c =? 45) = false) as -> by lia.
  assert ((code c =? 43) = false) as -> by lia.
  destruct Hr as [->|(c' & r' & -> & Hc')]; [done|].
  assert ((code c' =? 120) || (code c' =? 88) = false) as ->.
  { apply orb_false_iff; split; lia. }
  by rewrite andb_false_r.
Qed.

Lemma parseInt_positive p :
  TimeLabels.parseInt (pretty_N_go (N.pos p) EmptyString) = Some (Z.pos p).
Proof.
  destruct (pretty_N_go_head (N.pos p) EmptyString) as (c & r & Hs & Hc & Hr); [lia|by left|].
  pose proof (readDigits_pretty (N.pos p) EmptyString None ltac:(lia) eq_refl) as Hread.
  rewrite Hs in Hread |- *. rewrite (parseInt_digits _ _ Hc Hr), Hread. done.
Qed.

Lemma parseInt_negative p :
  TimeLabels.parseInt (String "-" (pretty_N_go (N.pos p) EmptyString)) = Some (Z.neg p).
Proof.
  destruct (pretty_N_go_head (N.pos p) EmptyString) as (c & r & Hs & Hc & Hr); [lia|by left|].
  pose proof (readDigits_pretty (N.pos p) EmptyString None ltac:(lia) eq_refl) as Hread.
  rewrite Hs in Hread |- *.
  pose proof (parseInt_digits _ _ Hc Hr) as Hparse.
  unfold TimeLabels.parseInt in *. simpl TimeLabels.trimStart in *.
  change (TimeLabels.isStrWs "-") with false. cbv iota.
  change (code "-" =? 45) with true. cbv iota.
  assert (TimeLabels.isStrWs c = false) as Hws.
  { unfold TimeLabels.isStrWs. repeat (apply orb_false_iff; split); lia. }
  rewrite Hws in Hparse.
  assert ((code c =? 45) = false) as H45 by lia.
  assert ((code c =? 43) = false) as H43 by lia.
  rewrite H45, H43 in Hparse.
  destruct (match String c r with
            | String z (String x r0) =>
                if (code z =? 48) && ((code x =? 120) || (code x =? 88))
                then (16, r0) else (10, String c r)
            | _ => (10, String c r)
            end) as [radix s'] eqn:Hradix.
  assert (radix = 10 ∧ s' = String c r) as [-> ->].
  { destruct Hr as [->|(c' & r' & -> & Hc')]; [by simplify_eq|].
    assert ((code c' =? 120) || (code c' =? 88) = false) as Hx.
    { apply orb_false_iff; split; lia. }
    rewrite Hx, andb_false_r in Hradix. by simplify_eq. }
  by rewrite Hread.
Qed.

(** [Number.parseInt(String(t))] is [t], be it [NaN]. *)
Lemma parseInt_str t : TimeLabels.parseInt (TimeLabels.str t) = t.
Proof.
  destruct t as [[|p|p]|]; [reflexivity| | |reflexivity].
  - unfold TimeLabels.str, ofNumber, pretty, pretty_Z, pretty, pretty_positive, pretty,
      pretty_N. rewrite decide_False by done. apply parseInt_positive.
  - unfold TimeLabels.str, ofNumber, pretty, pretty_Z, pretty, pretty_positive, pretty,
      pretty_N. rewrite decide_False by done. apply parseInt_negative.
Qed.

Lemma str_truthy t : whenTruthy (Some (TimeLabels.str t)) = Some (TimeLabels.str t).
Proof.
  destruct t as [[|p|p]|]; [reflexivity| | |reflexivity].
  - unfold TimeLabels.str, ofNumber, pretty, pretty_Z, pretty, pretty_positive, pretty,
      pretty_N. rewrite decide_False by done.
    destruct (pretty_N_go_head (N.pos p) EmptyString) as (c & r & -> & _); [lia|by left|].
    done.
  - done.
Qed.

(** X22. The time of a label is fixed by its first refresh: the seconds
    are kept in the [data-time] attribute and read back from there, so that
    a later refresh shows what a first refresh at that moment would have
    shown, although the text it was parsed from has been overwritten. This
    holds for a text that is no date as well, the attribute then being
    [NaN]. *)
Theorem refreshTimeLabels_keeps_the_time Date_parse getters now now' elements :
  TimeLabels.refreshTimeLabels Date_parse getters now'
    (TimeLabels.refreshTimeLabels Date_parse getters now elements)
  = TimeLabels.refreshTimeLabels Date_parse getters now' elements.
Proof.
  unfold TimeLabels.refreshTimeLabels. rewrite List.map_map. apply List.map_ext.
  intros element.
  set (inner := TimeLabels.refreshTimeLabel Date_parse getters (now / 1000) element).
  assert (TimeLabels.dataTime inner
          = match whenTruthy (TimeLabels.dataTime element) with
            | Some _ => TimeLabels.dataTime element
            | None =>
                Some (TimeLabels.str
                        (TimeLabels.floorDiv
                           (Date_parse (TimeLabels.textContent element)) 1000))
            end) as Hkept.
  { unfold inner, TimeLabels.refreshTimeLabel.
    destruct (whenTruthy (TimeLabels.dataTime element)); by repeat case_match. }
  unfold TimeLabels.refreshTimeLabel. rewrite Hkept.
  destruct (whenTruthy (TimeLabels.dataTime element)) as [attr|] eqn:Hattr.
  - rewrite Hattr. cbv beta iota zeta. by rewrite !Hkept.
  - rewrite str_truthy, parseInt_str. cbv beta iota zeta. by rewrite !Hkept.
Qed.

(** X23. The unit of a label goes by the whole seconds [d] since its
    time: seconds below a minute, and so for any time in the future, however
    far; whole minutes below an hour; whole hours below a day. From a day on
    the label is the date of that time, taken at the whole second, which
    later refreshes leave as it is. *)
Theorem refreshTimeLabel_units Date_parse getters now element ms :
  whenTruthy (TimeLabels.dataTime element) = None →
  Date_parse (TimeLabels.textContent element) = Some ms →
  let d := now - ms / 1000 in
  let label now := TimeLabels.textContent
                     (TimeLabels.refreshTimeLabel Date_parse getters now element) in
  (d < 60 → label now = ofNumber d +:+ " másodperce") ∧
  (60 ≤ d < 3600 → label now = ofNumber (d / 60) +:+ " perce") ∧
  (3600 ≤ d < 86400 → label now = ofNumber (d / 3600) +:+ " órája") ∧
  (86400 ≤ d → ∀ later, now ≤ later → label later = label now) ∧
  (86400 ≤ d → label now = dateText (getters (Some (ms / 1000 * 1000)))).
Proof.
  intros Hattr Hparse. cbv zeta.
  assert (∀ now,
    TimeLabels.textContent (TimeLabels.refreshTimeLabel Date_parse getters now element)
    = let d := now - ms / 1000 in
      if d <? 60 then ofNumber d +:+ " másodperce"
      else if d / 60 <? 60 then ofNumber (d / 60) +:+ " perce"
      else if d / 60 / 60 <? 24 then ofNumber (d / 60 / 60) +:+ " órája"
      else dateText (getters (Some (ms / 1000 * 1000))))
    as Hlabel.
  { intros t. unfold TimeLabels.refreshTimeLabel, dateText. rewrite Hattr, Hparse.
    cbv beta iota zeta.
    unfold TimeLabels.floorDiv, less, fmap, option_fmap, option_map, TimeLabels.str.
    cbv beta iota zeta.
    destruct (_ <? 60); [done|]. destruct (_ <? 60); [done|].
    destruct (_ <? 24); done. }
  assert (∀ d, d / 60 / 60 = d / 3600) as Hhours.
  { intros d. rewrite Z.div_div by lia. done. }
  assert (∀ d, d / 60 < 60 ↔ d < 3600) as Hminute.
  { intros d. pose proof (Z.div_mod d 60 ltac:(lia)).
    pose proof (Z.mod_pos_bound d 60 ltac:(lia)). lia. }
  assert (∀ d, d / 3600 < 24 ↔ d < 86400) as Hday.
  { intros d. pose proof (Z.div_mod d 3600 ltac:(lia)).
    pose proof (Z.mod_pos_bound d 3600 ltac:(lia)). lia. }
  assert (∀ t, 86400 ≤ t - ms / 1000 →
            (t - ms / 1000 <? 60) = false ∧ ((t - ms / 1000) / 60 <? 60) = false
            ∧ ((t - ms / 1000) / 60 / 60 <? 24) = false) as Hold.
  { intros t Ht. pose proof (Hminute (t - ms / 1000)). pose proof (Hday (t - ms / 1000)).
    rewrite Hhours in *. repeat split; apply Z.ltb_ge; lia. }
  split; [|split; [|split; [|split]]].
  - intros Hd. rewrite Hlabel. cbv zeta.
    by destruct (Z.ltb_spec (now - ms / 1000) 60); [|lia].
  - intros Hd. rewrite Hlabel. cbv zeta.
    destruct (Z.ltb_spec (now - ms / 1000) 60); [lia|].
    destruct (Z.ltb_spec ((now - ms / 1000) / 60) 60) as [|Hge]; [done|].
    pose proof (Hminute (now - ms / 1000)). lia.
  - intros Hd. rewrite Hlabel. cbv zeta. rewrite Hhours.
    destruct (Z.ltb_spec (now - ms / 1000) 60); [lia|].
    destruct (Z.ltb_spec ((now - ms / 1000) / 60) 60) as [Hlt|_].
    { pose proof (Hminute (now - ms / 1000)). lia. }
    destruct (Z.ltb_spec ((now - ms / 1000) / 3600) 24) as [|Hge]; [done|].
    pose proof (Hday (now - ms / 1000)). lia.
  - intros Hd later Hlater. rewrite (Hlabel later), (Hlabel now). cbv zeta.
    destruct (Hold now Hd) as (-> & -> & ->).
    destruct (Hold later ltac:(lia)) as (-> & -> & ->). done.
  - intros Hd. rewrite (Hlabel now). cbv zeta.
    by destruct (Hold now Hd) as (-> & -> & ->).
Qed.

(** ** Locked assignments *)

(** X24. [isAssignmentLocked] compares the clock with what can be parsed:
    an assignment is [EARLY] exactly when its start time is a date that lies
    ahead, open exactly when it is not [EARLY] and its end time is a date
    that lies ahead, and [LATE] otherwise. So a start time that is no date
    counts as passed, and so does an end time that is no date. *)
Theorem isAssignmentLocked_cases Date_parse Date_now assignment :
  let starts := Date_parse (Assignment.startTime assignment) in
  let ends := Date_parse (Assignment.endTime assignment) in
  let r := isAssignmentLocked Date_parse Date_now assignment in
  (r = EARLY ↔ ∃ s, starts = Some s ∧ Date_now < s) ∧
  (r = Unlocked ↔ (∀ s, starts = Some s → s ≤ Date_now) ∧ ∃ e, ends = Some e ∧ Date_now < e) ∧
  (r = LATE ↔ (∀ s, starts = Some s → s ≤ Date_now) ∧ (∀ e, ends = Some e → e ≤ Date_now)).
Proof.
  cbv zeta. unfold isAssignmentLocked, less.
  destruct (Date_parse (Assignment.startTime assignment)) as [s|];
    destruct (Date_parse (Assignment.endTime assignment)) as [e|];
    repeat match goal with
           | |- context [?a <? ?b] => destruct (Z.ltb_spec a b)
           end;
    (split; [|split]);
    (split;
     [ intros Hr; try discriminate;
       first [ by eauto
             | split; [intros ? [= <-]; lia|]; first [by eauto | intros ? [= <-]; lia]
             | split; [done|]; first [by eauto | done | intros ? [= <-]; lia] ]
     | intros Hc; try reflexivity; exfalso;
       repeat match goal with
              | H : _ ∧ _ |- _ => destruct H
              | H : ∃ _, _ |- _ => destruct H
              | H : ∀ x, Some ?y = Some x → _ |- _ => specialize (H y eq_refl)
              end; simplify_eq; lia ]).
Qed.

(** ** What [login] shows *)

(** X25. What [login] shows is the [message] property of the JSON object
    the server answered with, as it is, whatever its type, and nothing when
    the object has none. For an answer that is not declared as exactly
    [application/json] the [ApiError] holds the body as text, so that [login]
    shows no message at all, while the message of the error itself, which
    goes to the log, carries the body. *)
Theorem login_shows_only_json_messages res :
  (Http.contentType res ≠ Some "application/json" →
     shownFor (fromResponse res) None ∧
     (Http.text res ≠ EmptyString →
        message (fromResponse res)
        = "HTTP " +:+ ofNumber (Http.status res) +:+ ": " +:+ Http.text res)) ∧
  (∀ fs, Http.contentType res = Some "application/json" →
         Http.json res = Some (PJson (JObject fs)) →
         shownFor (fromResponse res) (field "message" fs)).
Proof.
  split.
  - intros Htype. unfold shownFor, responseMessage, fromResponse.
    rewrite decide_False by done. simpl. split; [done|].
    intros Htext. by destruct (Http.text res).
  - intros fs Htype Hbody σ. unfold responseMessage, fromResponse.
    rewrite decide_True by done. rewrite Hbody. done.
Qed.

(** ** The list of subject instances *)

(** X26. Once [fetchSubjectInstances] has cached the list [v],
    [getSubjectInstances] answers from the record without a request. What it
    returns is not [v] but one instance per id, the last of [v] with that
    id: instances that share an id with a later one are gone. When the ids
    are array indices, the instances come in the ascending order of their
    ids, not in the order of [v]. *)
Theorem getSubjectInstances_lists_one_instance_per_id σ res v :
  answers σ (Resolved res) →
  Http.ok res = true →
  Http.json res = Some (PSubjectInstances v) →
  let σ' := (fetchSubjectInstances σ).2 in
  ∃ l, getSubjectInstances σ' = (Return l, σ') ∧
       (∀ i, i ∈ l ↔ ∃ k, last (filter (λ i, subjectInstanceId i = k) v) = Some i) ∧
       NoDup (subjectInstanceId <$> l) ∧
       ((∀ i, i ∈ v → 0 ≤ subjectInstanceId i < 4294967295) →
        Sorted Z.le (subjectInstanceId <$> l)).
Proof.
  intros Ha Hok Hbody. cbv zeta.
  unfold fetchSubjectInstances, bind, assign.
  rewrite (getJson_outcome _ σ _ Ha), Hok, Hbody. simpl.
  unfold getSubjectInstances, bind, this. simpl.
  eexists. split; [done|].
  assert (∀ k i, listToRecord v subjectInstanceId !! k = Some i
                 ↔ last (filter (λ i, subjectInstanceId i = k) v) = Some i) as Hrecord.
  { intros k i. unfold listToRecord. rewrite listToRecord_from, lookup_empty.
    by destruct (last _). }
  unfold values.
  set (entries := merge_sort _ (map_to_list (listToRecord v subjectInstanceId))).
  assert (entries ≡ₚ map_to_list (listToRecord v subjectInstanceId)) as Hentries
    by apply merge_sort_Permutation.
  assert (∀ k i, (k, i) ∈ entries ↔ listToRecord v subjectInstanceId !! k = Some i)
    as Hin.
  { intros k i. rewrite Hentries. apply elem_of_map_to_list. }
  assert ((subjectInstanceId <$> entries.*2) = entries.*1) as Hids.
  { rewrite <- list_fmap_compose. apply list_fmap_ext.
    intros n [k i] Hn. simpl.
    apply list_elem_of_lookup_2, Hin, Hrecord, last_Some in Hn as [l' Hl'].
    assert (i ∈ filter (λ i, subjectInstanceId i = k) v) as Hi.
    { rewrite Hl'. apply elem_of_app. right. by apply list_elem_of_singleton. }
    by apply list_elem_of_filter in Hi as [Hi _]. }
  split; [|split].
  - intros i. rewrite list_elem_of_fmap. split.
    + intros ([k i'] & -> & Hi). exists k. by apply Hrecord, Hin.
    + intros (k & Hk). exists (k, i). split; [done|]. by apply Hin, Hrecord.
  - rewrite Hids, Hentries. apply NoDup_fst_map_to_list.
  - intros _. rewrite Hids. apply (Sorted_fmap fst byKey Z.le); [done|].
    assert (Total (@byKey SubjectInstance)) as Htotal.
    { intros a b. unfold byKey. lia. }
    apply (Sorted_merge_sort _).
Qed.

(** ** Fetches that fail *)

Lemma get_client url σ : sameButRefreshToken (client σ) (client (get url σ).2).
Proof.
  unfold sameButRefreshToken, get, bind, this, log, fetch, act, assign. simpl.
  destruct (server (world σ) _) as [reason|res]; simpl;
    [|destruct (Http.ok res); simpl]; by rewrite ?setRefreshToken_same.
Qed.

Lemma getJson_state {T} `{Shape T} url σ : (getJson (T:=T) url σ).2 = (get url σ).2.
Proof.
  unfold getJson, bind. destruct (get url σ) as [[res|e|] s]; simpl; [|done|done].
  unfold json. by destruct (Http.json res ≫= cast).
Qed.

Lemma getJson_client {T} `{Shape T} url σ r s :
  getJson (T:=T) url σ = (r, s) → sameButRefreshToken (client σ) (client s).
Proof.
  intros Hg. pose proof (getJson_state (T:=T) url σ) as Hs. rewrite Hg in Hs.
  simpl in Hs. subst s. apply get_client.
Qed.

Section ForOfState.
Context {B : Type} (body : Item string → Task B) (pure : Item string → B).
Hypothesis body_eq : ∀ item σ,
  body item σ = match atob (content item) with
                | Some _ => (Return (pure item), σ)
                | None => (Throw invalidCharacter, σ)
                end.

Lemma forOf_state v σ : (forOf body v σ).2 = σ.
Proof.
  destruct (decide (Forall wellEncoded v)) as [Hv|Hv].
  - by rewrite (forOf_wellEncoded body pure body_eq).
  - by rewrite (forOf_malformed body pure body_eq).
Qed.

End ForOfState.

(** X27. A fetch that does not come back with a value caches nothing:
    whatever made it fail, be it the network, the status of the answer, a
    body that is not JSON or a payload that is not base64, every cache of
    the client is what it was, and so are the username, the password and
    the access token. *)
Theorem failed_fetch_caches_nothing σ :
  (∀ kind id, (∀ v, (fetchOf kind id σ).1 ≠ Return v) →
     sameButRefreshToken (client σ) (client (fetchOf kind id σ).2)) ∧
  ((∀ v, (fetchSubjectInstances σ).1 ≠ Return v) →
     sameButRefreshToken (client σ) (client (fetchSubjectInstances σ).2)) ∧
  (∀ id, (∀ v, (fetchReports id σ).1 ≠ Return v) →
     sameButRefreshToken (client σ) (client (fetchReports id σ).2)) ∧
  (∀ id, (∀ v, (fetchSubmissionFiles id σ).1 ≠ Return v) →
     sameButRefreshToken (client σ) (client (fetchSubmissionFiles id σ).2)).
Proof.
  split; [|split; [|split]].
  - intros kind id. destruct kind; simpl;
      unfold fetchAssignments, fetchAssignment, fetchExercise, fetchSubmissionStatus, bind;
      (destruct (getJson _ σ) as [[v|e|] s] eqn:Hg; simpl;
       [intros Hr; by destruct (Hr v)|intros _; exact (getJson_client _ _ _ _ Hg)..]).
  - unfold fetchSubjectInstances, bind.
    destruct (getJson _ σ) as [[v|e|] s] eqn:Hg; simpl;
      [intros Hr; by destruct (Hr v)|intros _; exact (getJson_client _ _ _ _ Hg)..].
  - intros id. unfold fetchReports, bind.
    destruct (getJson _ σ) as [[v|e|] s] eqn:Hg; simpl;
      [|intros _; exact (getJson_client _ _ _ _ Hg)..].
    pose proof (forOf_state decodeReport reportOf decodeReport_eq v s) as Hs.
    destruct (forOf decodeReport v s) as [[v'|e|] s']; simpl in *; subst s';
      [intros Hr; by destruct (Hr v')|intros _; exact (getJson_client _ _ _ _ Hg)..].
  - intros id. unfold fetchSubmissionFiles, bind.
    destruct (getJson _ σ) as [[v|e|] s] eqn:Hg; simpl;
      [|intros _; exact (getJson_client _ _ _ _ Hg)..].
    pose proof (forOf_state decodeFile fileOf decodeFile_eq v s) as Hs.
    destruct (forOf decodeFile v s) as [[v'|e|] s']; simpl in *; subst s';
      [intros Hr; by destruct (Hr v')|intros _; exact (getJson_client _ _ _ _ Hg)..].
Qed.

(** ** Decoded reports and files *)

(** X28. What [fetchReports] and [fetchSubmissionFiles] return is what
    they cache, the payloads decoded: the next [getReports] or
    [getSubmissionFiles] for that id returns the same list and sends no
    request. An empty list is cached like any other. *)
Theorem decoded_lists_are_cached id σ :
  (∀ v σ', fetchReports id σ = (Return v, σ') → getReports id σ' = (Return v, σ')) ∧
  (∀ v σ', fetchSubmissionFiles id σ = (Return v, σ') →
           getSubmissionFiles id σ' = (Return v, σ')).
Proof.
  split; intros v σ'.
  - unfold fetchReports, getReports, bind, this, assign.
    destruct (getJson _ σ) as [[v0|e|] s]; simpl; [|done|done].
    destruct (forOf decodeReport v0 s) as [[v1|e|] s1]; simpl; [|done|done].
    intros [= <- <-]. simpl. by rewrite lookup_insert_eq.
  - unfold fetchSubmissionFiles, getSubmissionFiles, bind, this, assign.
    destruct (getJson _ σ) as [[v0|e|] s]; simpl; [|done|done].
    destruct (forOf decodeFile v0 s) as [[v1|e|] s1]; simpl; [|done|done].
    intros [= <- <-]. simpl. by rewrite lookup_insert_eq.
Qed.

(** ** Asking the user first *)

(** X29. With no username or no password, [withReauth] asks the user
    before anything else. When the login is accepted and answered with an
    access token, the client holds what was typed and that token, and the
    loop is entered after the one [login] call, without a second login
    request. *)
Theorem withReauth_asks_first n σ calls res fs t :
  credentials (client σ) = None →
  answers σ (Resolved res) →
  Http.ok res = true →
  Http.json res = Some (PJson (JObject fs)) →
  field "accessToken" fs = Some (JString t) → t ≠ EmptyString →
  typedUsername σ ≠ EmptyString → typedPassword σ ≠ EmptyString →
  ∃ σ0, authenticateFirst (S n) (σ, calls) = (Return tt, (σ0, (calls ++ [CallLogin])%list)) ∧
        credentials (client σ0) = Some (typedUsername σ, typedPassword σ) ∧
        accessToken (client σ0) = Some t ∧
        sentSince σ σ0 = 1%nat.
Proof.
  intros Hc Ha Hok Hbody Htoken Ht Hu Hp.
  unfold authenticateFirst. remember (login (S n)) as run eqn:Hrun.
  unfold bind, lift, this, called. simpl.
  rewrite (credentials_None _ Hc). simpl.
  set (σ1 := {| client := client σ; world := _ |}).
  assert (answers σ1 (Resolved res)) as Ha1 by exact Ha.
  subst run. rewrite login_turn.
  pose proof (fetchAccessToken_accepted (typedUsername σ1) (typedPassword σ1) (prompted σ1)
                _ _ (prompted_answers _ _ Ha1) Hok Hbody) as (Hout & Hu' & Hp' & Ht' & _).
  pose proof (fetchAccessToken_world (typedUsername σ1) (typedPassword σ1) (prompted σ1))
    as (_ & _ & _ & _ & _ & Hsent & _).
  change (typedUsername σ1) with (typedUsername σ) in *.
  change (typedPassword σ1) with (typedPassword σ) in *.
  destruct (fetchAccessToken _ _ (prompted σ1)) as [r s]. simpl in *. subst r. simpl.
  rewrite Htoken in Ht'.
  assert (credentials (client s) = Some (typedUsername σ, typedPassword σ)) as Hcs.
  { unfold credentials, whenTruthy. rewrite Hu', Hp'.
    destruct (typedUsername σ); [done|]. by destruct (typedPassword σ). }
  rewrite Hcs, Ht'. destruct t; [done|]. simpl.
  eexists. split; [done|]. split; [done|]. split; [done|].
  unfold sentSince. rewrite Hsent. lia.
Qed.

(** ** The further properties at work *)

(** X2 at work: the refresh token of a [Set-Cookie] header with attributes. *)
Lemma parseCookies_reads_back_witness :
  parseCookies Scenario.unauthorized !! "refresh-token" = Some "abc123".
Proof.
  apply (proj1 (parseCookies_reads_back Scenario.unauthorized [] "refresh-token" eq_refl
                  ltac:(discriminate))
           "abc123" (Some " Path=/")); reflexivity.
Defined.

(** X6 at work: an exercise is fetched and filed under its id. *)
Lemma fetch_overwrites_the_cache_witness :
  let r := fetchExercise 5 Scenario.rotating in
  r.1 = Return Scenario.exercise ∧
  exercises (client r.2) = <[5 := Scenario.exercise]> (exercises (client Scenario.rotating)).
Proof.
  cbv zeta.
  destruct (fetch_overwrites_the_cache Exercise 5 Scenario.rotating
              (Resolved (Scenario.reply 200 "OK" ["refresh-token=abc123; Path=/"]
                           Scenario.exercise))
              (λ _, eq_refl)) as (_ & _ & Hstored).
  exact (Hstored _ _ eq_refl eq_refl eq_refl).
Defined.

(** X7 at work: the one subject instance is filed under its id, 7. *)
Lemma fetchSubjectInstances_replaces_the_record_witness :
  let r := fetchSubjectInstances Scenario.campus in
  r.1 = Return [Scenario.programming] ∧
  subjectInstances (client r.2) ≫= (λ record, record !! 7) = Some Scenario.programming.
Proof.
  cbv zeta.
  destruct (fetchSubjectInstances_replaces_the_record Scenario.campus _ [Scenario.programming]
              (λ _, eq_refl) eq_refl eq_refl) as [Hout Hrecord].
  split; [exact Hout|]. rewrite Hrecord. reflexivity.
Defined.

(** X8 at work: the second [getExercise] sends nothing. *)
Lemma get_twice_fetches_once_witness :
  let first := getExercise 5 Scenario.rotating in
  let second := getExercise 5 first.2 in
  first.1 = Return Scenario.exercise ∧ second = (Return Scenario.exercise, first.2)
  ∧ sentSince Scenario.rotating second.2 = 1%nat.
Proof.
  apply (get_twice_fetches_once Exercise 5 Scenario.rotating
           (Scenario.reply 200 "OK" ["refresh-token=abc123; Path=/"] Scenario.exercise)
           Scenario.exercise);
    [reflexivity | intros req; reflexivity | reflexivity | reflexivity | discriminate].
Defined.

(** X9 at work: three calls for an exercise that is [null], three requests. *)
Lemma null_entity_is_fetched_every_time_witness :
  sentSince Cases.nothing (repeatedly (getExercise 5) 3 Cases.nothing) = 3%nat.
Proof.
  apply (null_entity_is_fetched_every_time Exercise 5 Cases.nothing
           (Scenario.reply 200 "OK" [] JNull) 3);
    [reflexivity | intros reqs; reflexivity | reflexivity | reflexivity].
Defined.

(** X11 at work: a refresh that is turned down leaves no access token. *)
Lemma refreshAccessToken_effects_witness :
  let r := refreshAccessToken Scenario.locked in
  r.1 = Throw (ApiErr (fromResponse Scenario.unauthorized)) ∧
  accessToken (client r.2) = None ∧
  refreshToken (client r.2) = Some "old".
Proof.
  cbv zeta.
  destruct (refreshAccessToken_effects Scenario.locked (Resolved Scenario.unauthorized)
              (λ _, eq_refl)) as (_ & _ & _ & Hfailed & _).
  exact (Hfailed eq_refl).
Defined.


(** X13 at work: no network. *)
Lemma login_rethrows_transport_errors_witness :
  let r := login 1 Scenario.offline in
  r.1 = Throw (OtherErr "TypeError" "fetch failed") ∧
  shown (world r.2) = [] ∧ asked (world r.2) = 2%nat ∧
  sentSince Scenario.offline r.2 = 1%nat.
Proof.
  exact (login_rethrows_transport_errors 0 Scenario.offline "fetch failed" (λ _, eq_refl)).
Defined.

(** X14 at work: the login is turned down and the user closes the message. *)
Lemma login_gives_up_when_declined_witness :
  let r := login 1 Scenario.locked in
  r.1 = Throw (ApiErr (fromResponse Scenario.unauthorized)) ∧
  shown (world r.2) = [Some (JString "Token expired")] ∧
  sentSince Scenario.locked r.2 = 1%nat.
Proof.
  apply (login_gives_up_when_declined 0 Scenario.locked Scenario.unauthorized
           (Some (JString "Token expired")));
    [intros req; reflexivity | reflexivity | intros σ; reflexivity | discriminate].
Defined.

(** X15 at work: a 401 without a body. *)
Lemma login_masks_errors_without_body_witness :
  let r := login 1 Cases.mute in
  r.1 = Throw (OtherErr "TypeError" "Cannot read properties of null") ∧
  shown (world r.2) = [] ∧
  sentSince Cases.mute r.2 = 1%nat.
Proof.
  apply (login_masks_errors_without_body 0 Cases.mute Cases.bodiless);
    [intros req; reflexivity | reflexivity | reflexivity | left; reflexivity].
Defined.

(** X16 at work: four turns, four requests, eight prompts, and [login] is
    not back. *)
Lemma login_retries_without_bound_witness :
  (login 4 Cases.insisting).1 = Diverge ∧
  sentSince Cases.insisting (login 4 Cases.insisting).2 = 4%nat ∧
  asked (world (login 4 Cases.insisting).2) = 8%nat.
Proof.
  apply (login_retries_without_bound Cases.insisting Scenario.unauthorized
           (Some (JString "Token expired")));
    [intros reqs; reflexivity | reflexivity | intros σ; reflexivity | intros k; reflexivity].
Defined.

(** X17 at work: the user types [guess] twice. *)
Lemma login_signs_in_with_what_was_typed_witness :
  let r := login 1 Cases.welcoming in
  r.1 = Return tt ∧
  username (client r.2) = Some "guess" ∧ password (client r.2) = Some "guess".
Proof.
  cbv zeta.
  destruct (login_signs_in_with_what_was_typed 0 Cases.welcoming Cases.welcome
              [("accessToken", JString "fresh")] (λ _, eq_refl) eq_refl eq_refl)
    as (Hout & Hu & Hp & _).
  split; [exact Hout|]. split; [exact Hu|exact Hp].
Defined.

(** X18 at work: the refresh token has run out as well. *)
Lemma withReauth_logs_in_again_witness :
  let r := withReauth 0 (3 + 0) (getExercise 5) (Cases.lapsed, []) in
  r.1 = Return Scenario.exercise ∧
  r.2.2 = [CallFetch; CallRefreshAccessToken; CallFetch;
           CallFetchAccessToken "student" "secret"; CallFetch].
Proof.
  cbv zeta.
  rewrite (withReauth_logs_in_again 0 0 (getExercise 5)
             (Cases.lapsed, []) Cases.lapsed []
             (fromResponse Scenario.unauthorized)
             (getExercise 5 Cases.lapsed).2
             (fromResponse Scenario.unauthorized)
             (getExercise 5 (recoverByRefresh (getExercise 5 Cases.lapsed).2).2).2
             "student" "secret"
             Scenario.exercise
             (getExercise 5
                (recoverByLogin "student" "secret"
                   (getExercise 5
                      (recoverByRefresh (getExercise 5 Cases.lapsed).2).2).2).2).2);
    [split; reflexivity | vm_compute; reflexivity ..].
Defined.

(** X19 at work: the user dismissed the prompts, the server accepted the
    empty login, and then turns the requests down. *)
Lemma withReauth_without_credentials_witness :
  let r := withReauth 1 (2 + 0) (getExercise 5) (Cases.unnamed, []) in
  r.1 = Throw (ApiErr (fromResponse Scenario.unauthorized)) ∧
  r.2.2 = [CallLogin; CallFetch; CallRefreshAccessToken; CallFetch] ∧
  last (logged (world r.2.1))
    = Some (Level.error, "No saved username or password (this should never happen)").
Proof.
  cbv zeta.
  rewrite (withReauth_without_credentials 1 0 (getExercise 5)
             (Cases.unnamed, []) (authenticateFirst 1 (Cases.unnamed, [])).2.1 [CallLogin]
             (fromResponse Scenario.unauthorized)
             (getExercise 5 (authenticateFirst 1 (Cases.unnamed, [])).2.1).2
             (fromResponse Scenario.unauthorized)
             (getExercise 5
                (recoverByRefresh
                   (getExercise 5 (authenticateFirst 1 (Cases.unnamed, [])).2.1).2).2).2);
    [split; [reflexivity|split; vm_compute; reflexivity] | vm_compute; reflexivity ..].
Defined.

(** X20 at work: the server turns everything down, and the calls are the
    longest of the three records. *)
Lemma withReauth_call_order_witness :
  let record := (withReauth 0 (3 + 0) (getExercise 5) (Scenario.locked, [])).2.2 in
  record = [CallFetch]
  ∨ record = [CallFetch; CallRefreshAccessToken; CallFetch]
  ∨ ∃ u p, record = [CallFetch; CallRefreshAccessToken; CallFetch;
                     CallFetchAccessToken u p; CallFetch].
Proof.
  exact (withReauth_call_order 0 0 (getExercise 5) (Scenario.locked, []) Scenario.locked []
           eq_refl).
Defined.

(** X21 at work: the first login is turned down. *)
Lemma withReauth_fails_when_first_login_fails_witness :
  let r := withReauth 0 3 (getExercise 5) (Cases.expired, []) in
  r.1 = Throw (ApiErr (fromResponse Scenario.unauthorized)) ∧
  r.2.2 = [CallFetchAccessToken "student" "secret"] ∧
  sentSince Cases.expired r.2.1 = 1%nat.
Proof.
  apply (withReauth_fails_when_first_login_fails 0 3 (getExercise 5) Cases.expired []
           "student" "secret" (Resolved Scenario.unauthorized));
    [reflexivity | reflexivity | intros req; reflexivity | reflexivity].
Defined.

(** X23 at work: five minutes ago. *)
Lemma refreshTimeLabel_units_witness :
  TimeLabels.textContent
    (TimeLabels.refreshTimeLabel Cases.moment Cases.blank 1700000300 Cases.fresh)
  = "5 perce".
Proof.
  destruct (refreshTimeLabel_units Cases.moment Cases.blank 1700000300 Cases.fresh
              1700000000000 eq_refl eq_refl) as (_ & Hminutes & _).
  rewrite Hminutes; [reflexivity|]. vm_compute. split; [discriminate|reflexivity].
Defined.

(** X26 at work: of two instances with the id 7, one is listed. *)
Lemma getSubjectInstances_lists_one_instance_per_id_witness :
  let σ' := (fetchSubjectInstances Cases.doubled).2 in
  ∃ l, getSubjectInstances σ' = (Return l, σ') ∧
       (∀ i, i ∈ l ↔ ∃ k, last (filter (λ i, subjectInstanceId i = k)
                                 [Scenario.programming; Cases.evening]) = Some i) ∧
       NoDup (subjectInstanceId <$> l) ∧
       ((∀ i, i ∈ [Scenario.programming; Cases.evening] →
              0 ≤ subjectInstanceId i < 4294967295) →
        Sorted Z.le (subjectInstanceId <$> l)).
Proof.
  exact (getSubjectInstances_lists_one_instance_per_id Cases.doubled _
           [Scenario.programming; Cases.evening] (λ _, eq_refl) eq_refl eq_refl).
Defined.

(** X29 at work: nobody has signed in, and the user types [guess] twice. *)
Lemma withReauth_asks_first_witness :
  ∃ σ0, authenticateFirst 1 (Cases.welcoming, [])
        = (Return tt, (σ0, [CallLogin])) ∧
        credentials (client σ0) = Some ("guess", "guess") ∧
        accessToken (client σ0) = Some "fresh" ∧
        sentSince Cases.welcoming σ0 = 1%nat.
Proof.
  apply (withReauth_asks_first 0 Cases.welcoming [] Cases.welcome
           [("accessToken", JString "fresh")] "fresh");
    [reflexivity | intros req; reflexivity | reflexivity | reflexivity | reflexivity
    | discriminate | discriminate | discriminate].
Defined.


